(** * Record normalization pipeline (e-com-scrapper)

    A shallow embedding of [src/utils/normalize.py] and
    [src/scripts/process_batch.py], and the properties of the pipeline
    specification checked against it.

    Python values are embedded as follows.
    - A [str] is a list of Unicode code points ([N]).
    - A value decoded from JSON is a [json] term; a [dict] is an
      association list in insertion order whose keys are unique; [None]
      is [JNull].
    - A [float] is kept as the decimal it was read from ([FDec m e] stands
      for the double nearest to [m * 10^e]).
    - A call that may raise returns an [option] ([None] when it raises);
      code that writes files or logs runs in a state monad whose outcome
      is a return, a raised exception or an exit.
    - The files written are opened with [encoding="utf-8"]: a write of a
      text with a surrogate code point in it raises.
    - What the Python runtime decides (Unicode tables, [urlparse],
      [json.dumps], the completion service) is a field of [Runtime]. *)

From Stdlib Require Import List NArith ZArith Bool String Ascii Lia.
Import ListNotations.

Set Implicit Arguments.

(** ** Python strings *)

Module Py.

Local Open Scope N_scope.

Definition char := N.
Definition str := list char.

Definition char_eqb (a b : char) : bool := N.eqb a b.

Fixpoint str_eqb (a b : str) : bool :=
  match a, b with
  | [], [] => true
  | x :: a', y :: b' => char_eqb x y && str_eqb a' b'
  | _, _ => false
  end.

(** Literals: an ASCII Rocq string read as code points.  [q] is the same
    with every apostrophe standing for a double quote (code point 34). *)
Definition lit (s : string) : str :=
  map (fun a => N_of_ascii a) (list_ascii_of_string s).

Definition q (s : string) : str :=
  map (fun c => if char_eqb c 39 then 34 else c) (lit s).

Arguments lit s%_string.
Arguments q s%_string.

Definition nl : str := [10].

Definition in_range (lo hi c : char) : bool := N.leb lo c && N.leb c hi.

Definition is_ascii (c : char) : bool := N.ltb c 128.

(** A surrogate code point, the one thing a Python [str] can hold that
    [s.encode("utf-8")] refuses ([UnicodeEncodeError]).  A text file opened
    with [encoding="utf-8"] encodes what it is given when [write] is
    called. *)
Definition is_surrogate (c : char) : bool := in_range 55296 57343 c.

Definition utf8_encodable (s : str) : bool :=
  forallb (fun c => negb (is_surrogate c)) s.
Definition is_digit (c : char) : bool := in_range 48 57 c.
Definition is_upper (c : char) : bool := in_range 65 90 c.
Definition is_lower (c : char) : bool := in_range 97 122 c.

(** [str.isspace] for one code point (the Unicode whitespace table of
    CPython). *)
Definition is_space (c : char) : bool :=
  in_range 9 13 c || in_range 28 32 c || char_eqb c 133 || char_eqb c 160
  || char_eqb c 5760 || in_range 8192 8202 c || char_eqb c 8232
  || char_eqb c 8233 || char_eqb c 8239 || char_eqb c 8287
  || char_eqb c 12288.

(** Line boundaries of [str.splitlines]. *)
Definition is_linebreak (c : char) : bool :=
  in_range 10 13 c || in_range 28 30 c || char_eqb c 133
  || char_eqb c 8232 || char_eqb c 8233.

Fixpoint lstrip (s : str) : str :=
  match s with
  | c :: r => if is_space c then lstrip r else s
  | [] => []
  end.

Definition rstrip (s : str) : str := rev (lstrip (rev s)).

(** [s.strip()] *)
Definition strip (s : str) : str := rstrip (lstrip s).

(** [s.startswith(p)] *)
Fixpoint startswith (s p : str) : bool :=
  match p, s with
  | [], _ => true
  | x :: p', y :: s' => char_eqb x y && startswith s' p'
  | _ :: _, [] => false
  end.

(** [s.endswith(p)] *)
Definition endswith (s p : str) : bool := startswith (rev s) (rev p).

(** [s.splitlines()]: [cur] is the line being read, reversed. *)
Fixpoint splitlines_aux (s : str) (cur : str) : list str :=
  match s with
  | [] => match cur with [] => [] | _ => [rev cur] end
  | c :: r =>
      if char_eqb c 13 then
        match r with
        | d :: r' =>
            if char_eqb d 10 then rev cur :: splitlines_aux r' []
            else rev cur :: splitlines_aux r []
        | [] => [rev cur]
        end
      else if is_linebreak c then rev cur :: splitlines_aux r []
      else splitlines_aux r (c :: cur)
  end.

Definition splitlines (s : str) : list str := splitlines_aux s [].

(** [sep.join(parts)] *)
Fixpoint join (sep : str) (parts : list str) : str :=
  match parts with
  | [] => []
  | [p] => p
  | p :: rest => p ++ sep ++ join sep rest
  end.

(** [parts[1:-1]] *)
Definition drop_first_last (A : Type) (l : list A) : list A :=
  removelast (tl l).

(** [s.find(c)] for a one-character pattern: index of the first
    occurrence, or -1. *)
Fixpoint find_from (c : char) (s : str) (i : Z) : Z :=
  match s with
  | [] => (-1)%Z
  | x :: r => if char_eqb x c then i else find_from c r (i + 1)%Z
  end.

Definition find (c : char) (s : str) : Z := find_from c s 0%Z.

(** [s.rfind(c)]: index of the last occurrence, or -1. *)
Fixpoint rfind_from (c : char) (s : str) (i : Z) (best : Z) : Z :=
  match s with
  | [] => best
  | x :: r => rfind_from c r (i + 1)%Z (if char_eqb x c then i else best)
  end.

Definition rfind (c : char) (s : str) : Z := rfind_from c s 0%Z (-1)%Z.

(** [s[a:b]] for [0 <= a]. *)
Definition slice (s : str) (a b : Z) : str :=
  firstn (Z.to_nat (b - a)) (skipn (Z.to_nat a) s).

(** [c in s] for a one-character [c]. *)
Definition contains (c : char) (s : str) : bool := existsb (char_eqb c) s.

(** [s.replace(old, new)] for a non-empty [old]: matches are taken left to
    right and do not overlap.  [skip] counts the characters of a match
    still to be passed over. *)
Fixpoint replace_aux (old new : str) (skip : nat) (s : str) : str :=
  match s with
  | [] => []
  | c :: r =>
      match skip with
      | S k => replace_aux old new k r
      | O =>
          if startswith s old
          then new ++ replace_aux old new (pred (List.length old)) r
          else c :: replace_aux old new 0%nat r
      end
  end.

Definition replace (s old new : str) : str := replace_aux old new 0%nat s.

Definition ascii_lower (c : char) : char :=
  if is_upper c then c + 32 else c.

(** [str(n)] for a non-negative integer. *)
Fixpoint digits_aux (fuel : nat) (n : N) (acc : str) : str :=
  match fuel with
  | O => acc
  | S f =>
      let acc' := 48 + N.modulo n 10 :: acc in
      if N.ltb n 10 then acc' else digits_aux f (N.div n 10) acc'
  end.

Definition str_of_nat (n : nat) : str :=
  digits_aux (S n) (N.of_nat n) [].

End Py.

(** ** JSON values and Python dictionaries *)

Module Json.
Import Py.

Local Open Scope N_scope.

(** A Python [float]: [FDec m e] is the double nearest to [m * 10^e]. *)
Inductive pyfloat :=
| FDec (m e : Z)
| FInf (negative : bool)
| FNan.

#[warnings="-register-all"]
Inductive json :=
| JNull
| JBool (b : bool)
| JInt (n : Z)
| JFloat (f : pyfloat)
| JStr (s : str)
| JArr (l : list json)
| JObj (d : list (str * json)).

Definition dict := list (str * json).

(** [FDec m e] rounds to zero when [|m * 10^e| <= 2^-1075]. *)
Definition float_is_zero (f : pyfloat) : bool :=
  match f with
  | FDec m e =>
      Z.eqb m 0
      || (Z.ltb e 0 && Z.leb (Z.abs m * 2 ^ 1075) (10 ^ (- e)))%Z
  | _ => false
  end.

(** [bool(v)] *)
Definition truthy (v : json) : bool :=
  match v with
  | JNull => false
  | JBool b => b
  | JInt n => negb (Z.eqb n 0)
  | JFloat f => negb (float_is_zero f)
  | JStr s => match s with [] => false | _ => true end
  | JArr l => match l with [] => false | _ => true end
  | JObj d => match d with [] => false | _ => true end
  end.

(** [a or b] *)
Definition py_or (a b : json) : json := if truthy a then a else b.

Infix "|||" := py_or (at level 50, left associativity).

(** [k in d] *)
Fixpoint dict_mem (d : dict) (k : str) : bool :=
  match d with
  | [] => false
  | (k', _) :: r => str_eqb k' k || dict_mem r k
  end.

(** [d[k]] when [k in d] *)
Fixpoint dict_lookup (d : dict) (k : str) : option json :=
  match d with
  | [] => None
  | (k', v) :: r => if str_eqb k' k then Some v else dict_lookup r k
  end.

(** [d.get(k)]: [None] is [JNull]. *)
Definition dict_get (d : dict) (k : str) : json :=
  match dict_lookup d k with Some v => v | None => JNull end.

(** [d[k] = v]: an existing key keeps its place. *)
Fixpoint dict_set (d : dict) (k : str) (v : json) : dict :=
  match d with
  | [] => [(k, v)]
  | (k', v') :: r =>
      if str_eqb k' k then (k', v) :: r else (k', v') :: dict_set r k v
  end.

(** [del d[k]] when [k in d] *)
Fixpoint dict_del (d : dict) (k : str) : dict :=
  match d with
  | [] => []
  | (k', v') :: r => if str_eqb k' k then r else (k', v') :: dict_del r k
  end.

(** [d.get(k)] for a literal key *)
Definition getk (d : dict) (k : string) : json := dict_get d (lit k).

Arguments getk d k%_string.

Definition keys (d : dict) : list str := map fst d.

(** [{c: f(c) for c in cols}] *)
Definition dict_comprehension (cols : list str) (f : str -> json) : dict :=
  fold_left (fun d c => dict_set d c (f c)) cols [].

(** The cells of a row as the [csv] writer puts them on a line of a file
    opened with [encoding="utf-8"]: a string goes as it is, every other
    value through [str], which is ASCII.  The line can be encoded when no
    string cell holds a surrogate. *)
Definition cell_encodable (v : json) : bool :=
  match v with
  | JStr s => utf8_encodable s
  | _ => true
  end.

Definition row_encodable (row : dict) : bool :=
  forallb (fun kv => cell_encodable (snd kv)) row.

(** *** [float(s)] for an ASCII string *)

Fixpoint digits_value (ds : str) (acc : Z) : Z :=
  match ds with
  | [] => acc
  | c :: r => digits_value r (10 * acc + Z.of_N (c - 48))%Z
  end.

(** digitpart ::= digit (["_"] digit)*; returns the digits and the rest. *)
Fixpoint digitpart_tail (s : str) (acc : str) : str * str :=
  match s with
  | c :: r =>
      if is_digit c then digitpart_tail r (c :: acc)
      else if char_eqb c 95 then
        match r with
        | d :: r' =>
            if is_digit d then digitpart_tail r' (d :: acc) else (rev acc, s)
        | [] => (rev acc, s)
        end
      else (rev acc, s)
  | [] => (rev acc, [])
  end.

Definition digitpart (s : str) : option (str * str) :=
  match s with
  | c :: r => if is_digit c then Some (digitpart_tail r [c]) else None
  | [] => None
  end.

Definition is_sign (c : char) : bool := char_eqb c 43 || char_eqb c 45.

(** exponent ::= ("e" | "E") [sign] digitpart, then the end of the text *)
Definition float_exponent (s : str) : option Z :=
  match s with
  | [] => Some 0%Z
  | c :: r =>
      if char_eqb c 101 || char_eqb c 69 then
        let '(neg, r1) :=
          match r with
          | x :: r' => if is_sign x then (char_eqb x 45, r') else (false, r)
          | [] => (false, r)
          end in
        match digitpart r1 with
        | Some (ds, []) =>
            let v := digits_value ds 0 in Some (if neg then - v else v)%Z
        | _ => None
        end
      else None
  end.

(** number ::= [digitpart] "." digitpart | digitpart ["."] *)
Definition float_number (s : str) : option (Z * Z) :=
  let finish (ip fp rest : str) :=
    match float_exponent rest with
    | Some ex =>
        Some (digits_value (ip ++ fp) 0, (ex - Z.of_nat (List.length fp))%Z)
    | None => None
    end in
  match digitpart s with
  | Some (ip, 46 :: r) =>
      match digitpart r with
      | Some (fp, rest) => finish ip fp rest
      | None => finish ip [] r
      end
  | Some (ip, rest) => finish ip [] rest
  | None =>
      match s with
      | 46 :: r =>
          match digitpart r with
          | Some (fp, rest) => finish [] fp rest
          | None => None
          end
      | _ => None
      end
  end.

(** Whitespace as [float] strips it from an ASCII string. *)
Definition is_c_space (c : char) : bool := in_range 9 13 c || char_eqb c 32.

Fixpoint drop_c_space (s : str) : str :=
  match s with
  | c :: r => if is_c_space c then drop_c_space r else s
  | [] => []
  end.

Definition float_of_ascii (s : str) : option pyfloat :=
  let t := rev (drop_c_space (rev (drop_c_space s))) in
  let '(neg, body) :=
    match t with
    | x :: r => if is_sign x then (char_eqb x 45, r) else (false, t)
    | [] => (false, t)
    end in
  let low := map ascii_lower body in
  if str_eqb low (lit "inf") || str_eqb low (lit "infinity") then
    Some (FInf neg)
  else if str_eqb low (lit "nan") then Some FNan
  else
    match float_number body with
    | Some (m, e) => Some (FDec (if neg then - m else m)%Z e)
    | None => None
    end.

(** *** [json.loads]

    A model of the decoder of the Python standard library: one value with
    optional surrounding whitespace; [None] stands for [JSONDecodeError]. *)

Definition is_json_ws (c : char) : bool :=
  char_eqb c 32 || char_eqb c 9 || char_eqb c 10 || char_eqb c 13.

Fixpoint skip_ws (s : str) : str :=
  match s with
  | c :: r => if is_json_ws c then skip_ws r else s
  | [] => []
  end.

Definition hex_value (c : char) : option N :=
  if is_digit c then Some (c - 48)
  else if in_range 97 102 c then Some (c - 87)
  else if in_range 65 70 c then Some (c - 55)
  else None.

Definition hex4 (s : str) : option (N * str) :=
  match s with
  | a :: b :: c :: d :: r =>
      match hex_value a, hex_value b, hex_value c, hex_value d with
      | Some x, Some y, Some z, Some w =>
          Some (((x * 16 + y) * 16 + z) * 16 + w, r)
      | _, _, _, _ => None
      end
  | _ => None
  end.

Definition simple_escape (c : char) : option char :=
  if char_eqb c 34 then Some 34
  else if char_eqb c 92 then Some 92
  else if char_eqb c 47 then Some 47
  else if char_eqb c 98 then Some 8
  else if char_eqb c 102 then Some 12
  else if char_eqb c 110 then Some 10
  else if char_eqb c 114 then Some 13
  else if char_eqb c 116 then Some 9
  else None.

(** [s] without its first character when that is [c]. *)
Definition head_is (c : char) (s : str) : option str :=
  match s with
  | x :: r => if char_eqb x c then Some r else None
  | [] => None
  end.

Definition after_prefix (p s : str) : option str :=
  if startswith s p then Some (skipn (List.length p) s) else None.

(** A [\uXXXX] escape whose four digits start [r']: the character and the
    number of input characters of the escape after its backslash.  A high
    surrogate followed by the escape of a low one is read as a pair. *)
Definition unicode_escape (r' : str) : option (char * nat) :=
  match hex4 r' with
  | None => None
  | Some (u, r2) =>
      if in_range 55296 56319 u then
        match after_prefix [92; 117] r2 with
        | Some r3 =>
            match hex4 r3 with
            | None => None
            | Some (u2, _) =>
                if in_range 56320 57343 u2
                then Some (65536 + (u - 55296) * 1024 + (u2 - 56320), 11%nat)
                else Some (u, 5%nat)
            end
        | None => Some (u, 5%nat)
        end
      else Some (u, 5%nat)
  end.

(** The body of a string, after its opening quote.  [wait] counts the
    characters of an escape sequence that were already decoded. *)
Fixpoint scanstring (s : str) (wait : nat) (acc : str) : option (str * str) :=
  match s with
  | [] => None
  | c :: r =>
      match wait with
      | S k => scanstring r k acc
      | O =>
          if char_eqb c 34 then Some (rev acc, r)
          else if N.ltb c 32 then None
          else if char_eqb c 92 then
            match r with
            | [] => None
            | e :: r' =>
                if char_eqb e 117 then
                  match unicode_escape r' with
                  | Some (u, n) => scanstring r n (u :: acc)
                  | None => None
                  end
                else
                  match simple_escape e with
                  | Some x => scanstring r 1 (x :: acc)
                  | None => None
                  end
            end
          else scanstring r 0 (c :: acc)
      end
  end.

Fixpoint span_digits (s : str) (acc : str) : str * str :=
  match s with
  | c :: r => if is_digit c then span_digits r (c :: acc) else (rev acc, s)
  | [] => (rev acc, [])
  end.

(** The fraction of a number: a dot followed by one digit at least. *)
Definition scan_fraction (s : str) : str * str :=
  match head_is 46 s with
  | Some (d :: t) => if is_digit d then span_digits (d :: t) [] else ([], s)
  | _ => ([], s)
  end.

(** The exponent of a number: e or E, an optional sign, one digit at
    least. *)
Definition scan_exponent (s : str) : option Z * str :=
  match s with
  | x :: t =>
      if char_eqb x 101 || char_eqb x 69 then
        let '(eneg, t1) :=
          match t with
          | y :: t' => if is_sign y then (char_eqb y 45, t') else (false, t)
          | [] => (false, t)
          end in
        match span_digits t1 [] with
        | ([], _) => (None, s)
        | (ds, t2) =>
            let v := digits_value ds 0 in
            (Some (if eneg then - v else v)%Z, t2)
        end
      else (None, s)
  | [] => (None, s)
  end.

(** NUMBER_RE: an optional minus, then 0 or a digit run without a leading
    zero, then an optional fraction and an optional exponent.  Without
    fraction and exponent the number is an [int], else a [float]. *)
Definition scan_number (s : str) : option (json * str) :=
  let '(neg, s1) :=
    match head_is 45 s with
    | Some r => (true, r)
    | None => (false, s)
    end in
  match s1 with
  | c :: r =>
      if is_digit c then
        let '(ip, r1) :=
          if char_eqb c 48 then ([c], r) else span_digits r [c] in
        let '(fp, r2) := scan_fraction r1 in
        let '(ex, r3) := scan_exponent r2 in
        let sgn (z : Z) := if neg then (- z)%Z else z in
        match fp, ex with
        | [], None => Some (JInt (sgn (digits_value ip 0)), r3)
        | _, _ =>
            let e := match ex with Some v => v | None => 0%Z end in
            Some (JFloat (FDec (sgn (digits_value (ip ++ fp) 0))
                               (e - Z.of_nat (List.length fp))%Z), r3)
        end
      else None
  | [] => None
  end.

(** [null], [true], [false], a number, [NaN], [Infinity], [-Infinity] *)
Definition scan_constant (s : str) : option (json * str) :=
  match after_prefix (lit "null") s with
  | Some r => Some (JNull, r)
  | None =>
  match after_prefix (lit "true") s with
  | Some r => Some (JBool true, r)
  | None =>
  match after_prefix (lit "false") s with
  | Some r => Some (JBool false, r)
  | None =>
  match scan_number s with
  | Some res => Some res
  | None =>
  match after_prefix (lit "NaN") s with
  | Some r => Some (JFloat FNan, r)
  | None =>
  match after_prefix (lit "Infinity") s with
  | Some r => Some (JFloat (FInf false), r)
  | None =>
  match after_prefix (lit "-Infinity") s with
  | Some r => Some (JFloat (FInf true), r)
  | None => None
  end end end end end end end.

(** The scanner.  A value costs one unit of fuel and a loop round one
    more, each round reading a character at least: more than twice the
    length of the input is enough fuel (lemma [scan_fuel_enough]). *)
Fixpoint scan_once (fuel : nat) (s : str) : option (json * str) :=
  match fuel with
  | O => None
  | S f =>
      match s with
      | [] => None
      | c :: r =>
          if char_eqb c 34 then
            match scanstring r 0 [] with
            | Some (t, r') => Some (JStr t, r')
            | None => None
            end
          else if char_eqb c 123 then
            match head_is 125 (skip_ws r) with
            | Some r' => Some (JObj [], r')
            | None => scan_members f (skip_ws r) []
            end
          else if char_eqb c 91 then
            match head_is 93 (skip_ws r) with
            | Some r' => Some (JArr [], r')
            | None => scan_elements f (skip_ws r) []
            end
          else scan_constant s
      end
  end

(** The members of an object, from a key on; [acc] is the dictionary
    built so far. *)
with scan_members (fuel : nat) (s : str) (acc : dict)
  : option (json * str) :=
  match fuel with
  | O => None
  | S f =>
      match head_is 34 s with
      | None => None
      | Some r =>
          match scanstring r 0 [] with
          | None => None
          | Some (k, r1) =>
              match head_is 58 (skip_ws r1) with
              | None => None
              | Some r2 =>
                  match scan_once f (skip_ws r2) with
                  | None => None
                  | Some (v, r3) =>
                      let acc' := dict_set acc k v in
                      match head_is 125 (skip_ws r3) with
                      | Some r4 => Some (JObj acc', r4)
                      | None =>
                          match head_is 44 (skip_ws r3) with
                          | Some r4 => scan_members f (skip_ws r4) acc'
                          | None => None
                          end
                      end
                  end
              end
          end
      end
  end

(** The elements of an array; [acc] holds them reversed. *)
with scan_elements (fuel : nat) (s : str) (acc : list json)
  : option (json * str) :=
  match fuel with
  | O => None
  | S f =>
      match scan_once f s with
      | None => None
      | Some (v, r1) =>
          match head_is 93 (skip_ws r1) with
          | Some r2 => Some (JArr (rev (v :: acc)), r2)
          | None =>
              match head_is 44 (skip_ws r1) with
              | Some r2 => scan_elements f (skip_ws r2) (v :: acc)
              | None => None
              end
          end
      end
  end.

(** [json.loads(s)] *)
Definition json_loads (s : str) : option json :=
  if startswith s [65279] then None
  else
    match scan_once (S (2 * List.length s)) (skip_ws s) with
    | Some (v, rest) =>
        match skip_ws rest with
        | [] => Some v
        | _ => None
        end
    | None => None
    end.

End Json.

(** ** Library behaviour left open

    What the pipeline takes from the Python runtime and does not fix
    itself: the Unicode tables beyond ASCII, URL splitting, the JSON
    serializer, the prompt template of [src/utils/prompt.py], the replies
    of the completion service and the order in which futures complete. *)

Class Runtime := {
  (** [s.lower()] for a string with a non-ASCII character *)
  lower_unicode : Py.str -> Py.str;
  (** [float(s)] for a string with a non-ASCII character *)
  float_unicode : Py.str -> option Json.pyfloat;
  (** [c.isalnum()] for a non-ASCII character *)
  isalnum_unicode : Py.char -> bool;
  (** [urlparse(str(v)).netloc]; [None] when it raises *)
  urlparse_netloc : Json.json -> option Py.str;
  (** [json.dumps(v, ensure_ascii=False)] *)
  json_dumps : Json.json -> Py.str;
  PROMPT_INSTRUCTION : Py.str;
  (** [call_azure_chat_completion] for record [idx] at attempt [attempt];
      [None] when the call raises *)
  chat_completion : nat -> nat -> Py.str -> option Py.str;
  (** the indices of the futures in the order [as_completed] yields them *)
  as_completed : nat -> list nat
}.

(** ** Effects: state, exceptions and [sys.exit] *)

Module Eff.

Inductive outcome (A : Type) :=
| Return (a : A)
| Raised
| Exited (code : Z).

Arguments Return {A} a.
Arguments Raised {A}.
Arguments Exited {A} code.

Definition M (S A : Type) := S -> outcome A * S.

Definition ret {S A} (a : A) : M S A := fun s => (Return a, s).

Definition bind {S A B} (m : M S A) (k : A -> M S B) : M S B :=
  fun s =>
    match m s with
    | (Return a, s') => k a s'
    | (Raised, s') => (Raised, s')
    | (Exited c, s') => (Exited c, s')
    end.

Definition raise {S A} : M S A := fun s => (Raised, s).

(** [sys.exit(code)] raises [SystemExit], which [except Exception] does
    not catch. *)
Definition sys_exit {S A} (code : Z) : M S A := fun s => (Exited code, s).

Definition modify {S} (f : S -> S) : M S unit := fun s => (Return tt, f s).

Definition gets {S A} (f : S -> A) : M S A := fun s => (Return (f s), s).

(** [try: m  except Exception: handler] *)
Definition try_except {S A} (m : M S A) (handler : M S A) : M S A :=
  fun s =>
    match m s with
    | (Raised, s') => handler s'
    | r => r
    end.

(** [for x in l: body(x)] *)
Fixpoint for_each {S X} (l : list X) (body : X -> M S unit) : M S unit :=
  match l with
  | [] => ret tt
  | x :: r => bind (body x) (fun _ => for_each r body)
  end.

(** [I] holds after [m] whenever it held before, however [m] ends. *)
Definition preserves {S A} (I : S -> Prop) (m : M S A) : Prop :=
  forall s, I s -> I (snd (m s)).

Module Notations.
Notation "x <- m ;; k" := (bind m (fun x => k))
  (at level 61, m at next level, right associativity).
Notation "m ;;; k" := (bind m (fun _ => k))
  (at level 61, right associativity).
End Notations.

End Eff.

(** ** [src/utils/normalize.py] *)

Module Normalize.
Import Py Json.

Section WithRuntime.
Context {rt : Runtime}.

Local Open Scope N_scope.

(** [s.lower()] *)
Definition lower (s : str) : str :=
  if forallb is_ascii s then map ascii_lower s else lower_unicode s.

(** [float(v)]; [None] when it raises.  An [int] of magnitude
    [2^1024 - 2^970] or more raises [OverflowError]. *)
Definition py_float (v : json) : option pyfloat :=
  match v with
  | JInt n =>
      if Z.leb (2 ^ 1024 - 2 ^ 970) (Z.abs n) then None else Some (FDec n 0)
  | JFloat f => Some f
  | JBool b => Some (FDec (if b then 1 else 0) 0)
  | JStr s => if forallb is_ascii s then float_of_ascii s else float_unicode s
  | _ => None
  end.

(** A word character of the [re] module. *)
Definition is_word (c : char) : bool :=
  if is_ascii c
  then is_digit c || is_upper c || is_lower c || char_eqb c 95
  else isalnum_unicode c.

Fixpoint span_digits_commas (s : str) (acc : str) : str * str :=
  match s with
  | c :: r =>
      if is_digit c || char_eqb c 44 then span_digits_commas r (c :: acc)
      else (rev acc, s)
  | [] => (rev acc, [])
  end.

(** A match of the price pattern at the start of [s]: an optional sign,
    one to three digits, any digits and commas, then an optional dot with
    digits.  Each part takes as much as it can. *)
Definition match_number_at (s : str) : option str :=
  let '(sign, r) :=
    match s with
    | c :: ((d :: _) as r') =>
        if is_sign c && is_digit d then ([c], r') else ([], s)
    | _ => ([], s)
    end in
  match r with
  | d :: r1 =>
      if is_digit d then
        let '(run, r2) := span_digits_commas r1 [d] in
        let frac :=
          match r2 with
          | 46 :: ((x :: _) as t) =>
              if is_digit x then 46 :: fst (span_digits t []) else []
          | _ => []
          end in
        Some (sign ++ run ++ frac)
      else None
  | [] => None
  end.

(** [re.search] of the price pattern: the leftmost match. *)
Fixpoint search_number (s : str) : option str :=
  match s with
  | [] => None
  | _ :: r =>
      match match_number_at s with
      | Some m => Some m
      | None => search_number r
      end
  end.

(** [re.search] of a three-capital token between word boundaries;
    [prev_word] tells whether the character before [s] is a word
    character. *)
Fixpoint search_iso (prev_word : bool) (s : str) : option str :=
  match s with
  | [] => None
  | a :: r =>
      let here :=
        match r with
        | b :: c :: rest =>
            negb prev_word && is_upper a && is_upper b && is_upper c
            && match rest with [] => true | x :: _ => negb (is_word x) end
        | _ => false
        end in
      if here then Some (firstn 3 s) else search_iso (is_word a) r
  end.

Definition dollar : char := 36.
Definition euro : char := 8364.
Definition pound : char := 163.
Definition yen : char := 165.

(** [symbol_map] *)
Definition symbol_map (sym : char) : json :=
  if char_eqb sym dollar then JStr (lit "USD")
  else if char_eqb sym euro then JStr (lit "EUR")
  else if char_eqb sym pound then JStr (lit "GBP")
  else if char_eqb sym yen then JStr (lit "JPY")
  else JNull.

(** [re.search] of one of the four currency symbols. *)
Fixpoint search_symbol (s : str) : option char :=
  match s with
  | [] => None
  | c :: r =>
      if char_eqb c dollar || char_eqb c euro || char_eqb c pound
         || char_eqb c yen
      then Some c else search_symbol r
  end.

Definition float_or_none (v : json) : json :=
  match py_float v with
  | Some f => JFloat f
  | None => JNull
  end.

(** The price and currency step of the extractor: the dictionary with
    ["price"] set where the source sets it, and the value of [currency]. *)
Definition extract_price (record out : dict) : dict * json :=
  let price := dict_get record (lit "price") in
  match price with
  | JNull =>
      let pwc :=
        dict_get record (lit "priceWithCurrency")
        ||| dict_get record (lit "price_with_currency") ||| JStr [] in
      match pwc with
      | JStr p =>
          match strip p with
          | [] => (out, JNull)
          | _ :: _ =>
              let out :=
                match search_number (replace p (lit ",") []) with
                | Some m => dict_set out (lit "price") (float_or_none (JStr m))
                | None => out
                end in
              let currency :=
                match search_iso false p with
                | Some code => JStr code
                | None =>
                    match search_symbol p with
                    | Some sym => symbol_map sym
                    | None => JNull
                    end
                end in
              (out, currency)
          end
      | _ => (out, JNull)
      end
  | _ =>
      (dict_set out (lit "price") (float_or_none price),
       dict_get record (lit "currency")
       ||| dict_get record (lit "priceCurrency"))
  end.

Definition extract_deterministic_fields (record : dict) : dict :=
  let out : dict := [] in
  let url :=
    getk record "url" ||| getk record "link" ||| getk record "product_url"
    ||| getk record "itemUrl" in
  let out := dict_set out (lit "url") url in
  let out :=
    if truthy url then
      dict_set out (lit "source")
        match urlparse_netloc url with
        | Some n => JStr n
        | None => JNull
        end
    else
      dict_set out (lit "source")
        (getk record "source" ||| getk record "site" ||| JNull)
  in
  let out :=
    dict_set out (lit "title")
      (getk record "title" ||| getk record "name" ||| JNull) in
  let '(out, currency) := extract_price record out in
  let out := dict_set out (lit "currency") (currency ||| JNull) in
  let imgs :=
    getk record "images" ||| getk record "image"
    ||| getk record "image_urls" ||| getk record "photos" in
  let out :=
    dict_set out (lit "image_urls")
      match imgs with
      | JArr l => JArr l
      | JStr s => JArr [JStr s]
      | _ => JArr []
      end in
  let out :=
    dict_set out (lit "upc")
      (getk record "upc" ||| getk record "ean" ||| JNull) in
  let out := dict_set out (lit "mpn") (getk record "mpn" ||| JNull) in
  let out :=
    dict_set out (lit "seller_name")
      (getk record "seller" ||| getk record "sellerName" ||| JNull) in
  let out :=
    dict_set out (lit "itemLocation")
      (getk record "itemLocation" ||| getk record "location" ||| JNull) in
  let cats := getk record "categories" ||| getk record "category" ||| JNull in
  let out :=
    dict_set out (lit "category")
      match cats with
      | JArr l => match l with x :: _ => x | [] => JNull end
      | _ => cats
      end in
  let out :=
    dict_set out (lit "rating")
      (getk record "rating" ||| getk record "averageRating" ||| JNull) in
  let out :=
    dict_set out (lit "review_count")
      (getk record "review_count" ||| getk record "reviews" ||| JNull) in
  let out :=
    dict_set out (lit "description")
      (getk record "description" ||| getk record "subTitle"
       ||| getk record "details" ||| JNull) in
  out.


(** [build_prompt(record_det, raw_record)] *)
Definition build_prompt (record_det raw_record : dict) : str :=
  let context :=
    JObj [(lit "deterministic", JObj record_det); (lit "raw", JObj raw_record)]
  in
  replace PROMPT_INSTRUCTION (lit "<<<INPUT_PRODUCT_JSON>>>")
    (json_dumps context).

Definition system_message : json :=
  JObj [(lit "role", JStr (lit "system"));
        (lit "content",
         JStr (lit "You are a helpful, precise data formatter."))].

Definition user_message (prompt : str) : json :=
  JObj [(lit "role", JStr (lit "user")); (lit "content", JStr prompt)].

(** The request object of the record at position [idx]. *)
Definition batch_line (idx : nat) (det raw : dict) : json :=
  JObj [(lit "custom_id", JStr (lit "task-" ++ str_of_nat idx));
        (lit "method", JStr (lit "POST"));
        (lit "url", JStr (lit "/chat/completions"));
        (lit "body",
         JObj [(lit "model", JStr (lit "o4-mini"));
               (lit "messages",
                JArr [system_message; user_message (build_prompt det raw)])])].

(** [enumerate(l)] from [start] *)
Fixpoint enumerate_from (A : Type) (start : nat) (l : list A)
  : list (nat * A) :=
  match l with
  | [] => []
  | x :: r => (start, x) :: enumerate_from (S start) r
  end.

Definition enumerate (A : Type) (l : list A) : list (nat * A) :=
  enumerate_from 0 l.

(** What one run leaves behind: the batch request file (one entry per
    [write] call), the output CSV and the log.  A file that does not exist
    is [None].  The log is that of the thread that runs
    [normalize_records]: the records prepared, and in the writing loop an
    entry for each completed future, the progress after every fiftieth
    and the end of the run. *)
Inductive csv_line :=
| CsvHeader (columns : list str)
| CsvRow (row : dict).

Inductive log_event :=
| LogPrepared (total : nat)
| LogJobProcessed (idx : nat)
| LogFutureFailed (idx : nat)
| LogProgress (processed total : nat)
| LogComplete (processed : nat).

Record world := {
  jsonl_file : option (list str);
  csv_file : option (list csv_line);
  log : list log_event
}.

Definition open_jsonl_w (w : world) : world :=
  {| jsonl_file := Some []; csv_file := csv_file w; log := log w |}.

Definition jsonl_appended (text : str) (w : world) : world :=
  {| jsonl_file :=
       Some (match jsonl_file w with Some l => l | None => [] end ++ [text]);
     csv_file := csv_file w; log := log w |}.

Definition open_csv_a (w : world) : world :=
  {| jsonl_file := jsonl_file w;
     csv_file := Some (match csv_file w with Some l => l | None => [] end);
     log := log w |}.

Definition write_csv (line : csv_line) (w : world) : world :=
  {| jsonl_file := jsonl_file w;
     csv_file :=
       Some (match csv_file w with Some l => l | None => [] end ++ [line]);
     log := log w |}.

Definition logger (e : log_event) (w : world) : world :=
  {| jsonl_file := jsonl_file w; csv_file := csv_file w;
     log := log w ++ [e] |}.

Import Eff Eff.Notations.

(** [fh.write(text)] on the batch request file, opened with
    [encoding="utf-8"]: a text that cannot be encoded raises
    [UnicodeEncodeError] and nothing of it is written. *)
Definition write_jsonl (text : str) : M world unit :=
  if utf8_encodable text then modify (jsonl_appended text) else raise.

(** [write_batch_jsonl(records, out_path)]: the loop stops at the first
    line that cannot be written, the lines before it stay in the file and
    no count is returned. *)
Definition write_batch_jsonl (records : list (dict * dict)) : M world nat :=
  modify open_jsonl_w ;;;
  for_each (enumerate records)
    (fun '(idx, (det, raw)) =>
       write_jsonl (json_dumps (batch_line idx det raw) ++ nl)) ;;;
  ret (List.length records).

(** [safe_load_json_file(path)] on the text of the file *)
Definition safe_load_json_file (text : str) : list json :=
  match json_loads text with
  | Some (JArr data) => data
  | Some (JObj data) => [JObj data]
  | Some _ => []
  | None =>
      flat_map
        (fun ln =>
           match strip ln with
           | [] => []
           | ln' => match json_loads ln' with Some o => [o] | None => [] end
           end)
        (splitlines text)
  end.

(** The body of the loading loop for the items of one file.  An item that
    is not a mapping raises in the loop; the [except] clause of the file
    then gives up the rest of the file and keeps what was appended. *)
Fixpoint prepare_items (items : list json) : list (dict * dict) :=
  match items with
  | JObj it :: rest =>
      let it := if dict_mem it (lit "reviews")
                then dict_del it (lit "reviews") else it in
      let det := extract_deterministic_fields it in
      (det, it) :: prepare_items rest
  | _ => []
  end.

(** [files]: the text of each input file, [None] when it cannot be read. *)
Definition collect_records (files : list (option str)) : list (dict * dict) :=
  flat_map
    (fun jf =>
       match jf with
       | Some text => prepare_items (safe_load_json_file text)
       | None => []
       end)
    files.

(** [parse_and_map_output(model_text)]; [JNull] is [None]. *)
Definition parse_and_map_output (model_text : str) : json :=
  match model_text with
  | [] => JNull
  | _ =>
      let txt := strip model_text in
      let txt :=
        if startswith txt (lit "```")
        then join nl (drop_first_last (splitlines txt)) else txt in
      let first := find 123 txt in
      let last := rfind 125 txt in
      let txt :=
        if (negb (Z.eqb first (-1)) && negb (Z.eqb last (-1))
            && Z.ltb first last)%Z
        then slice txt first (last + 1) else txt in
      match json_loads txt with
      | Some (JObj d) => JObj d
      | _ => JNull
      end
  end.

(** The row a worker builds from a parsed object: one entry per header
    column, then the deterministic fields where the entry is null. *)
Definition normalized_row (header : list str) (parsed deterministic : dict)
  : dict :=
  let row := dict_comprehension header (fun col => dict_get parsed col) in
  fold_left
    (fun row '(k, v) =>
       if dict_mem row k
          && match dict_get row k with JNull => true | _ => false end
       then dict_set row k v else row)
    deterministic row.

(** The attempts of [worker_job], [n] of them left; [None] is [None]. *)
Fixpoint worker_attempts (header : list str) (idx : nat) (prompt : str)
  (deterministic : dict) (attempt n : nat) : option dict :=
  match n with
  | O => None
  | S n' =>
      match chat_completion idx attempt prompt with
      | Some content =>
          match parse_and_map_output content with
          | JObj parsed => Some (normalized_row header parsed deterministic)
          | _ =>
              worker_attempts header idx prompt deterministic (S attempt) n'
          end
      | None => worker_attempts header idx prompt deterministic (S attempt) n'
      end
  end.

Definition worker_job (header : list str) (max_retries : Z) (idx : nat)
  (pair : dict * dict) : option dict :=
  let '(deterministic, raw) := pair in
  let prompt := build_prompt deterministic raw in
  worker_attempts header idx prompt deterministic 0
    (Z.to_nat (max_retries + 1)).

(** [csv.DictWriter.writerow]: a key outside the field names raises
    [ValueError], and a cell that cannot be encoded raises
    [UnicodeEncodeError] when the line is written. *)
Definition writerow (header : list str) (row : dict) : M world unit :=
  if forallb (fun k => existsb (str_eqb k) header) (keys row)
  then if row_encodable row
       then modify (write_csv (CsvRow row))
       else raise
  else raise.

(** The part of [normalize_records] after the batch file is written.
    The header is the first row of the template, read from a file decoded
    as UTF-8, so [writeheader] has nothing it cannot encode.  The futures
    come in the order [as_completed] yields them; [processed] is the
    position of the future in that order, counted from one. *)
Definition synchronous_stage (header : list str) (write_header : bool)
  (all_records : list (dict * dict)) (max_retries : Z) : M world unit :=
  let total := List.length all_records in
  let futures := as_completed total in
  modify open_csv_a ;;;
  (if write_header then modify (write_csv (CsvHeader header)) else ret tt) ;;;
  for_each (enumerate futures)
    (fun '(position, idx) =>
       let processed := S position in
       try_except
         (match nth_error all_records idx with
          | None => raise
          | Some (det, raw) =>
              (match worker_job header max_retries idx (det, raw) with
               | Some ((_ :: _) as row) =>
                   let row :=
                     fold_left
                       (fun row k =>
                          match dict_get row k with
                          | (JArr _ | JObj _) as v =>
                              dict_set row k (JStr (json_dumps v))
                          | _ => row
                          end)
                       header row in
                   writerow header
                     (dict_comprehension header (fun k => dict_get row k))
               | _ =>
                   (* [_, (det, raw) = all_records[idx]] unpacks the raw
                      mapping itself, that is, its keys *)
                   match keys raw with
                   | [det_key; raw_key] =>
                       let placeholder :=
                         dict_comprehension header (fun _ => JNull) in
                       (* [det.get("url")] on a [str] *)
                       raise
                   | _ => raise
                   end
               end) ;;;
              modify (logger (LogJobProcessed idx))
          end)
         (modify (logger (LogFutureFailed idx))) ;;;
       if Nat.eqb (Nat.modulo processed 50) 0
       then modify (logger (LogProgress processed total))
       else ret tt) ;;;
  modify (logger (LogComplete (List.length futures))).

(** [normalize_records]: [template] is the first row of the template CSV
    ([None] when it cannot be read), [files] the input files. *)
Definition normalize_records (template : option (list str))
  (files : list (option str)) (max_retries : Z) : M world unit :=
  header <- match template with Some h => ret h | None => raise end ;;
  write_header <-
    gets (fun w => match csv_file w with Some _ => false | None => true end) ;;
  let all_records := collect_records files in
  modify (logger (LogPrepared (List.length all_records))) ;;;
  write_batch_jsonl all_records ;;;
  @sys_exit world unit 0 ;;;
  synchronous_stage header write_header all_records max_retries.

End WithRuntime.
End Normalize.

(** ** [src/scripts/process_batch.py] *)

Module ProcessBatch.
Import Py Json.
Import Eff Eff.Notations.

Section WithRuntime.
Context {rt : Runtime}.

Local Open Scope N_scope.

(** [v.get(k)]: only a mapping has [get]; [None] is [AttributeError]. *)
Definition attr_get (v : json) (k : string) : option json :=
  match v with
  | JObj d => Some (getk d k)
  | _ => None
  end.

Arguments attr_get v k%_string.

Definition is_content_string (v : json) : bool :=
  match v with
  | JStr s => contains 123 s || contains 93 s || contains 34 s
  | _ => false
  end.

(** [search_for_content(d)]; [JNull] is [None]. *)
Fixpoint search_for_content (d : json) : json :=
  match d with
  | JObj items =>
      (fix over_items (l : list (str * json)) : json :=
         match l with
         | [] => JNull
         | (k, v) :: rest =>
             if str_eqb k (lit "content") && is_content_string v then v
             else
               match v with
               | JObj _ =>
                   let found := search_for_content v in
                   if truthy found then found else over_items rest
               | JArr elems =>
                   let found :=
                     (fix over_list (l' : list json) : json :=
                        match l' with
                        | [] => JNull
                        | item :: r =>
                            let found := search_for_content item in
                            if truthy found then found else over_list r
                        end) elems in
                   if truthy found then found else over_items rest
               | _ => over_items rest
               end
         end) items
  | _ => JNull
  end.

(** The [try] block of [_extract_content_from_line]; [None] when it
    raises. *)
Definition content_from_line_body (obj : json) : option json :=
  match attr_get obj "response" with
  | None => None
  | Some r =>
  let resp := r ||| JObj [] in
  match attr_get resp "body" with
  | None => None
  | Some b =>
  let body := b ||| JObj [] in
  match attr_get body "choices" with
  | None => None
  | Some c =>
  let choices := c ||| JArr [] in
  let fallback :=
    match obj with
    | JObj d =>
        if dict_mem d (lit "content") then Some (getk d "content")
        else Some (search_for_content obj)
    | _ => None
    end in
  match choices with
  | JArr (first :: _) =>
      match attr_get first "message" with
      | None => None
      | Some m =>
      let msg := m ||| JObj [] in
      match attr_get msg "content" with
      | None => None
      | Some content =>
          if truthy content then Some content
          else
            match attr_get first "text" with
            | None => None
            | Some text =>
                if truthy text then Some text
                else match msg with JStr _ => Some msg | _ => fallback end
            end
      end
      end
  | _ => fallback
  end
  end end end.

(** [_extract_content_from_line(obj)]; [JNull] is [None]. *)
Definition _extract_content_from_line (obj : json) : json :=
  match content_from_line_body obj with
  | Some v => v
  | None => JNull
  end.

Definition fence : str := lit "```".

(** The candidate text of [_extract_json_from_content]: the stripped
    content without its fence, cut to the outermost braces. *)
Definition json_candidate (content : str) : str :=
  let txt := strip content in
  let txt :=
    if startswith txt fence && endswith txt fence then
      let parts := splitlines txt in
      if Nat.leb 3 (List.length parts)
      then strip (join nl (drop_first_last parts)) else txt
    else txt in
  let first := find 123 txt in
  let last := rfind 125 txt in
  if (negb (Z.eqb first (-1)) && negb (Z.eqb last (-1))
      && Z.ltb first last)%Z
  then slice txt first (last + 1) else txt.

(** The escaped quote and the quote. *)
Definition escaped_quote : str := [92; 34].
Definition quote : str := [34].

(** [_extract_json_from_content(content)]: [Return JNull] is [None];
    [Raised] is the [AttributeError] of [content.strip()] on a value that
    is not a string. *)
Definition _extract_json_from_content (content : json) : outcome json :=
  if negb (truthy content) then Return JNull
  else
    match content with
    | JStr c =>
        let candidate := json_candidate c in
        match json_loads candidate with
        | Some (JObj parsed) => Return (JObj parsed)
        | Some (JArr (JObj first :: _)) => Return (JObj first)
        | Some (JArr (_ :: _)) => Return JNull
        | Some _ => Return JNull
        | None =>
            let candidate2 := replace candidate escaped_quote quote in
            match json_loads candidate2 with
            | Some (JObj parsed) => Return (JObj parsed)
            | _ => Return JNull
            end
        end
    | _ => Raised
    end.

(** [k.strip().lower() == lk] over [parsed.items()] *)
Fixpoint scan_keys (items : dict) (lk : str) : json :=
  match items with
  | [] => JNull
  | (k, v) :: rest =>
      if str_eqb (Normalize.lower (strip k)) lk then v else scan_keys rest lk
  end.

(** [_value_for_header(parsed, header_key)] *)
Definition _value_for_header (parsed : option dict) (header_key : str)
  : json :=
  match parsed with
  | None => JNull
  | Some parsed =>
      if dict_mem parsed header_key then dict_get parsed header_key
      else
        let lk := Normalize.lower header_key in
        if dict_mem parsed lk then dict_get parsed lk
        else
          let alt1 := replace header_key (lit " ") (lit "_") in
          if dict_mem parsed alt1 then dict_get parsed alt1
          else if dict_mem parsed (Normalize.lower alt1)
          then dict_get parsed (Normalize.lower alt1)
          else
            let alt2 := replace header_key (lit " ") [] in
            if dict_mem parsed alt2 then dict_get parsed alt2
            else if dict_mem parsed (Normalize.lower alt2)
            then dict_get parsed (Normalize.lower alt2)
            else scan_keys parsed lk
  end.

(** The second look at [response.body.choices[0].message.content], for a
    content that is already a mapping; [None] when the block raises. *)
Definition content_as_dict (obj : json) : option json :=
  match attr_get obj "response" with
  | None => None
  | Some r =>
  match attr_get (r ||| JObj []) "body" with
  | None => None
  | Some b =>
  match attr_get (b ||| JObj []) "choices" with
  | None => None
  | Some c =>
  match c ||| JArr [] with
  | JArr (first :: _) =>
      match attr_get first "message" with
      | None => None
      | Some m =>
          match attr_get (m ||| JObj []) "content" with
          | None => None
          | Some (JObj cont) => Some (JObj cont)
          | Some _ => Some JNull
          end
      end
  | _ => Some JNull
  end
  end end end.

(** The cell written for a value: lists and mappings serialized, booleans
    spelled out, [None] empty. *)
Definition safe_cell (v : json) : json :=
  match v with
  | JArr _ | JObj _ => JStr (json_dumps v)
  | JBool b => JStr (if b then lit "true" else lit "false")
  | JNull => JStr []
  | _ => v
  end.

Inductive log_event :=
| LogSkipNonJson (line : str)
| LogPlaceholder (line_index : nat) (custom_id : json)
| LogProgress (written total : nat)
| LogDone (total written : nat).

(** The run: the lines counted, the rows the CSV writer has written (the
    header row apart) and the log. *)
Record state := {
  total : nat;
  written : nat;
  rows : list dict;
  log : list log_event
}.

Definition count_line (s : state) : state :=
  {| total := S (total s); written := written s; rows := rows s;
     log := log s |}.

Definition row_written (row : dict) (s : state) : state :=
  {| total := total s; written := S (written s); rows := rows s ++ [row];
     log := log s |}.

Definition logger (e : log_event) (s : state) : state :=
  {| total := total s; written := written s; rows := rows s;
     log := log s ++ [e] |}.

(** The row of a parsed mapping. *)
Definition parsed_row (header : list str) (parsed : dict) : dict :=
  fold_left
    (fun row col =>
       let val := _value_for_header (Some parsed) col in
       match val with
       | JArr _ | JObj _ => dict_set row col (JStr (json_dumps val))
       | _ => dict_set row col val
       end)
    header [].

(** [cid] of the placeholder branch; [None] when it raises. *)
Definition correlation_id (obj : json) : option json :=
  match attr_get obj "custom_id" with
  | None => None
  | Some c =>
      if truthy c then Some (c ||| JNull)
      else
        match attr_get obj "response" with
        | None => None
        | Some r =>
            match attr_get (r ||| JObj []) "request_id" with
            | None => None
            | Some rid => Some (rid ||| JNull)
            end
        end
  end.

Definition placeholder_row (header : list str) (cid : json) : dict :=
  let placeholder := dict_comprehension header (fun _ => JNull) in
  if existsb (str_eqb (lit "product ID")) header && truthy cid
  then dict_set placeholder (lit "product ID") cid
  else placeholder.

(** [{k: safe(row[k]) for k in header}], after the missing columns were
    added to [row]. *)
Definition safe_row (header : list str) (row : dict) : dict :=
  let row :=
    fold_left
      (fun row k => if dict_mem row k then row else dict_set row k JNull)
      header row in
  dict_comprehension header (fun k => safe_cell (dict_get row k)).

(** The parsed object of a decoded line: the content is parsed when there
    is one, and a content that is itself a mapping is looked for when that
    gave nothing. *)
Definition parsed_object (obj : json) : outcome json :=
  let content_str := _extract_content_from_line obj in
  let parsed :=
    if truthy content_str then _extract_json_from_content content_str
    else Return JNull in
  match parsed with
  | Return JNull =>
      Return match content_as_dict obj with Some p => p | None => JNull end
  | _ => parsed
  end.

(** The row built for a decoded line: from the parsed mapping, or the
    placeholder, whose correlation id may raise. *)
Definition build_row (header : list str) (obj parsed : json)
  : M state dict :=
  match parsed with
  | JObj ((_ :: _) as d) => ret (parsed_row header d)
  | _ =>
      match correlation_id obj with
      | None => raise
      | Some cid =>
          line_index <- gets total ;;
          modify (logger (LogPlaceholder line_index cid)) ;;;
          ret (placeholder_row header cid)
      end
  end.

(** [writer.writerow(safe_row)] and [written += 1]: the line of the row is
    encoded when it is written to the CSV, opened with [encoding="utf-8"];
    a cell that cannot be encoded raises [UnicodeEncodeError], outside any
    [try], and the row is not counted. *)
Definition writerow (row : dict) : M state unit :=
  if row_encodable row then modify (row_written row) else raise.

Definition log_progress : M state unit :=
  n <- gets written ;;
  if Nat.eqb (Nat.modulo n 100) 0
  then t <- gets total ;; modify (logger (LogProgress n t))
  else ret tt.

(** The body of the loop over the lines of the batch output. *)
Definition process_line (header : list str) (line : str) : M state unit :=
  modify count_line ;;;
  match strip line with
  | [] => ret tt
  | line =>
      match json_loads line with
      | None => modify (logger (LogSkipNonJson (firstn 200 line)))
      | Some obj =>
          parsed <- (fun s => (parsed_object obj, s)) ;;
          row <- build_row header obj parsed ;;
          writerow (safe_row header row) ;;;
          log_progress
      end
  end.

Definition initial : state :=
  {| total := 0; written := 0; rows := []; log := [] |}.

(** [process_batch_jsonl_to_csv] on the lines of the batch file and the
    first row of the template.  The template is read from a file decoded
    as UTF-8, so the header has no surrogate in it and [writeheader]
    writes it; [rows] are the rows after it. *)
Definition process_batch_jsonl_to_csv (header : list str) (lines : list str)
  : M state unit :=
  for_each lines (process_line header) ;;;
  t <- gets total ;;
  n <- gets written ;;
  modify (logger (LogDone t n)).

End WithRuntime.
End ProcessBatch.

(** ** The specification's words

    Definitions that follow the text of the specification, to be compared
    with the functions above. *)

Module Spec.
Import Py Json.

Section WithRuntime.
Context {rt : Runtime}.

Local Open Scope N_scope.

(** *** Row count (section 8) *)

(** A line of the batch output that is not blank and decodes as JSON. *)
Definition is_json_line (line : str) : bool :=
  match strip line with
  | [] => false
  | l => match json_loads l with Some _ => true | None => false end
  end.

(** *** Row keys (section 3) *)

Definition same_keys (header : list str) (row : dict) : Prop :=
  forall k, In k (keys row) <-> In k header.

(** A line of the output CSV honours the Schema. *)
Definition csv_line_ok (header : list str) (line : Normalize.csv_line)
  : Prop :=
  match line with
  | Normalize.CsvHeader columns => columns = header
  | Normalize.CsvRow row => same_keys header row
  end.

Definition csv_lines (w : Normalize.world) : list Normalize.csv_line :=
  match Normalize.csv_file w with Some l => l | None => [] end.

(** *** Output Parser/Repairer (section 4.4, steps 1 to 5 and 7) *)

(** Step 2 as written: both fences present, drop the first and the last
    line. *)
Definition strip_fence_always (txt : str) : str :=
  if startswith txt ProcessBatch.fence && endswith txt ProcessBatch.fence
  then strip (join nl (drop_first_last (splitlines txt)))
  else txt.

(** Step 2 as the code has it: only a text of three lines or more loses
    its first and last line. *)
Definition strip_fence_three_lines (txt : str) : str :=
  if startswith txt ProcessBatch.fence && endswith txt ProcessBatch.fence
  then
    if Nat.leb 3 (List.length (splitlines txt))
    then strip (join nl (drop_first_last (splitlines txt)))
    else txt
  else txt.

(** Step 3: from the first opening brace to the last closing brace when
    the last follows the first, else the whole text. *)
Definition brace_candidate (txt : str) : str :=
  let first := find 123 txt in
  let last := rfind 125 txt in
  if (negb (Z.eqb first (-1)) && negb (Z.eqb last (-1))
      && Z.ltb first last)%Z
  then slice txt first (last + 1) else txt.

(** An opening brace with a closing brace somewhere after it. *)
Fixpoint has_pair (s : str) : bool :=
  match s with
  | [] => false
  | c :: r => if char_eqb c 123 then contains 125 r else has_pair r
  end.

(** What a scanner leaves of its input: nothing new and nothing longer. *)
Definition leaves (r s : str) : Prop :=
  incl r s /\ (List.length r <= List.length s)%nat.

Definition is_obj (v : json) : Prop :=
  match v with JObj _ => True | _ => False end.

(** The result of [_extract_json_from_content] on a string. *)
Definition text_result (c : str) : json :=
  match json_loads (ProcessBatch.json_candidate c) with
  | Some (JObj parsed) => JObj parsed
  | Some (JArr (JObj first :: _)) => JObj first
  | Some _ => JNull
  | None =>
      match json_loads
              (replace (ProcessBatch.json_candidate c)
                 ProcessBatch.escaped_quote ProcessBatch.quote)
      with
      | Some (JObj parsed) => JObj parsed
      | _ => JNull
      end
  end.

(** Step 4: a mapping, or the first element of a non-empty list when it is
    a mapping; any other shape and any decoding error is a failure. *)
Definition strict_parse (candidate : str) : option dict :=
  match json_loads candidate with
  | Some (JObj d) => Some d
  | Some (JArr (JObj d :: _)) => Some d
  | _ => None
  end.

(** Step 5: the repair pass. *)
Definition repair_parse (candidate : str) : option dict :=
  match json_loads
          (replace candidate ProcessBatch.escaped_quote ProcessBatch.quote)
  with
  | Some (JObj d) => Some d
  | _ => None
  end.

(** The procedure, in order, stopping at the first success; [JNull] is
    none. *)
Definition recover (strip_fence : str -> str) (content : str) : json :=
  match content with
  | [] => JNull
  | _ =>
      let candidate := brace_candidate (strip_fence (strip content)) in
      match strict_parse candidate with
      | Some d => JObj d
      | None =>
          match repair_parse candidate with
          | Some d => JObj d
          | None => JNull
          end
      end
  end.

(** *** Price and currency (section 4.1) *)

Definition is_number (v : json) : bool :=
  match v with
  | JInt _ | JFloat _ => true
  | _ => false
  end.

(** The combined string parsed: the first numeric substring after the
    commas are removed; a three-letter code, else a symbol of the map. *)
Definition parse_price_with_currency (record : dict) : json * json :=
  match getk record "priceWithCurrency"
        ||| getk record "price_with_currency" ||| JStr [] with
  | JStr p =>
      match strip p with
      | [] => (JNull, JNull)
      | _ =>
          (match Normalize.search_number (replace p (lit ",") []) with
           | Some m => Normalize.float_or_none (JStr m)
           | None => JNull
           end,
           match Normalize.search_iso false p with
           | Some code => JStr code
           | None =>
               match Normalize.search_symbol p with
               | Some sym => Normalize.symbol_map sym
               | None => JNull
               end
           end)
      end
  | _ => (JNull, JNull)
  end.

Definition separate_currency (record : dict) : json :=
  getk record "currency" ||| getk record "priceCurrency" ||| JNull.

(** As written: a numeric price is used, otherwise the combined string is
    parsed. *)
Definition price_currency_as_written (record : dict) : json * json :=
  let price := getk record "price" in
  if is_number price
  then (Normalize.float_or_none price, separate_currency record)
  else parse_price_with_currency record.

(** As the code has it: the branch is taken on a price that is not null. *)
Definition price_currency_by_presence (record : dict) : json * json :=
  match getk record "price" with
  | JNull => parse_price_with_currency record
  | price => (Normalize.float_or_none price, separate_currency record)
  end.

(** *** Schema Mapper (section 4.5) *)

(** The value of the first candidate key present in [parsed]. *)
Fixpoint first_present (parsed : dict) (candidates : list str)
  : option json :=
  match candidates with
  | [] => None
  | k :: rest =>
      match dict_lookup parsed k with
      | Some v => Some v
      | None => first_present parsed rest
      end
  end.

Definition with_lower (k : str) : list str := [k; Normalize.lower k].

(** The candidate keys as written, underscores and spaces exchanged in
    both directions. *)
Definition candidates_as_written (column : str) : list str :=
  [column; Normalize.lower column]
  ++ with_lower (replace column (lit " ") (lit "_"))
  ++ with_lower (replace column (lit "_") (lit " "))
  ++ with_lower (replace column (lit " ") []).

(** The candidate keys of the code: spaces to underscores only. *)
Definition candidates_one_way (column : str) : list str :=
  [column; Normalize.lower column]
  ++ with_lower (replace column (lit " ") (lit "_"))
  ++ with_lower (replace column (lit " ") []).

(** First match wins; then the scan of all keys; no match is null. *)
Definition resolve (candidates : str -> list str) (parsed : dict)
  (column : str) : json :=
  match first_present parsed (candidates column) with
  | Some v => v
  | None => ProcessBatch.scan_keys parsed (Normalize.lower column)
  end.

(** *** Batch Request Emitter (section 4.3) *)

Definition request_line (i : nat) (prompt : str) : json :=
  JObj
    [(lit "custom_id", JStr (lit "task-" ++ str_of_nat i));
     (lit "method", JStr (lit "POST"));
     (lit "url", JStr (lit "/chat/completions"));
     (lit "body",
      JObj
        [(lit "model", JStr (lit "o4-mini"));
         (lit "messages",
          JArr
            [JObj [(lit "role", JStr (lit "system"));
                   (lit "content",
                    JStr (lit "You are a helpful, precise data formatter."))];
             JObj [(lit "role", JStr (lit "user"));
                   (lit "content", JStr prompt)]])])].

(** The line written for one entry of [enumerate(records)]. *)
Definition emitted_line (entry : nat * (dict * dict)) : str :=
  let '(idx, (det, raw)) := entry in
  json_dumps (request_line idx (Normalize.build_prompt det raw)) ++ nl.

(** The lines of the batch file in the specification's words: the record
    at ordinal position [i], counted from 0, gives line [i]. *)
Definition request_lines (records : list (dict * dict)) : list str :=
  map emitted_line (combine (seq 0 (List.length records)) records).

(** The position of the first of [lines] that cannot be encoded. *)
Fixpoint first_unencodable (lines : list str) : option nat :=
  match lines with
  | [] => None
  | line :: rest =>
      if utf8_encodable line then option_map S (first_unencodable rest)
      else Some O
  end.

(** *** DeterministicFields (section 3) *)

Definition deterministic_keys : list str :=
  [lit "url"; lit "source"; lit "title"; lit "price"; lit "currency";
   lit "image_urls"; lit "upc"; lit "mpn"; lit "seller_name";
   lit "itemLocation"; lit "category"; lit "rating"; lit "review_count";
   lit "description"].

End WithRuntime.

(** A runtime for closed runs on ASCII inputs, where the Unicode tables
    are never looked at: no reply from the completion service, futures
    completing in submission order. *)
Definition ascii_runtime : Runtime :=
  {| lower_unicode := fun s => s;
     float_unicode := fun _ => None;
     isalnum_unicode := fun _ => false;
     urlparse_netloc := fun _ => None;
     json_dumps := fun _ => lit "null";
     PROMPT_INSTRUCTION := lit "<<<INPUT_PRODUCT_JSON>>>";
     chat_completion := fun _ _ _ => None;
     as_completed := fun n => seq 0 n |}.

(** A serializer in the manner of [json.dumps(v, ensure_ascii=False)]:
    the characters of a string are kept, the quote, the backslash and the
    control characters escaped; items are separated by ", " and a key from
    its value by ": ".  Floats are written as mantissa and exponent. *)
Local Open Scope N_scope.

Definition hex_digit (n : N) : char :=
  if N.ltb n 10 then 48 + n else 87 + n.

Definition dumps_char (c : char) : str :=
  if char_eqb c 34 then [92; 34]%N
  else if char_eqb c 92 then [92; 92]%N
  else if char_eqb c 10 then [92; 110]%N
  else if char_eqb c 13 then [92; 114]%N
  else if char_eqb c 9 then [92; 116]%N
  else if char_eqb c 8 then [92; 98]%N
  else if char_eqb c 12 then [92; 102]%N
  else if N.ltb c 32
       then [92; 117; 48; 48; hex_digit (c / 16); hex_digit (c mod 16)]%N
       else [c].

Definition dumps_str (s : str) : str :=
  [34%N] ++ flat_map dumps_char s ++ [34%N].

Definition dumps_int (n : Z) : str :=
  if Z.ltb n 0 then 45 :: str_of_nat (Z.to_nat (- n)%Z)
  else str_of_nat (Z.to_nat n).

Fixpoint dumps (v : json) : str :=
  match v with
  | JNull => lit "null"
  | JBool true => lit "true"
  | JBool false => lit "false"
  | JInt n => dumps_int n
  | JFloat (FDec m e) => dumps_int m ++ lit "e" ++ dumps_int e
  | JFloat (FInf negative) =>
      if negative then lit "-Infinity" else lit "Infinity"
  | JFloat FNan => lit "NaN"
  | JStr s => dumps_str s
  | JArr l => [91%N] ++ join (lit ", ") (map dumps l) ++ [93%N]
  | JObj d =>
      [123%N]
      ++ join (lit ", ")
           (map (fun '(k, x) => dumps_str k ++ lit ": " ++ dumps x) d)
      ++ [125%N]
  end.

(** [ascii_runtime] with that serializer. *)
Definition dumps_runtime : Runtime :=
  {| lower_unicode := fun s => s;
     float_unicode := fun _ => None;
     isalnum_unicode := fun _ => false;
     urlparse_netloc := fun _ => None;
     json_dumps := dumps;
     PROMPT_INSTRUCTION := lit "<<<INPUT_PRODUCT_JSON>>>";
     chat_completion := fun _ _ _ => None;
     as_completed := fun n => seq 0 n |}.

End Spec.

(** ** Further properties: what they are stated with *)

Module Cover.
Import Py Json.

Section WithRuntime.
Context {rt : Runtime}.

Local Open Scope N_scope.

(** A value the CSV writer prints as it is: a string or a number. *)
Definition is_scalar (v : json) : Prop :=
  match v with
  | JStr _ | JInt _ | JFloat _ => True
  | _ => False
  end.

(** The row of a decoded line whose correlation id can be read: the row
    of the parsed mapping when there is one, the placeholder when not,
    coerced. *)
Definition line_row (header : list str) (obj : json) : dict :=
  ProcessBatch.safe_row header
    match ProcessBatch.parsed_object obj with
    | Eff.Return (JObj ((_ :: _) as d)) => ProcessBatch.parsed_row header d
    | _ =>
        ProcessBatch.placeholder_row header
          match ProcessBatch.correlation_id obj with
          | Some cid => cid
          | None => JNull
          end
    end.

(** A line the batch output processor gets through: blank, undecodable,
    or an object whose content is a string or missing, whose correlation
    id can be read and whose row has no cell with a surrogate in it. *)
Definition line_is_safe (header : list str) (line : str) : bool :=
  match strip line with
  | [] => true
  | l =>
      match json_loads l with
      | None => true
      | Some obj =>
          match ProcessBatch._extract_content_from_line obj with
          | JStr _ => true
          | v => negb (truthy v)
          end
          && match ProcessBatch.correlation_id obj with
             | Some _ => true
             | None => false
             end
          && row_encodable (line_row header obj)
      end
  end.

(** The value [parsed_row] stores for a column. *)
Definition stored_value (parsed : dict) (col : str) : json :=
  match ProcessBatch._value_for_header (Some parsed) col with
  | (JArr _ | JObj _) as val => JStr (json_dumps val)
  | val => val
  end.

(** The keys the extractor reads from a raw record. *)
Definition extractor_inputs : list str :=
  map lit
    ["url"; "link"; "product_url"; "itemUrl"; "source"; "site"; "title";
     "name"; "price"; "priceWithCurrency"; "price_with_currency";
     "currency"; "priceCurrency"; "images"; "image"; "image_urls";
     "photos"; "upc"; "ean"; "mpn"; "seller"; "sellerName"; "itemLocation";
     "location"; "categories"; "category"; "rating"; "averageRating";
     "review_count"; "reviews"; "description"; "subTitle";
     "details"]%string.

(** The extracted fields whose value ends in [or None]. *)
Definition or_none_fields : list str :=
  map lit
    ["title"; "currency"; "upc"; "mpn"; "seller_name"; "itemLocation";
     "rating"; "review_count"; "description"]%string.

(** A Python [dict] has no key twice: the values in which every mapping,
    at any depth, has distinct keys. *)
Fixpoint distinct_keys (v : json) : Prop :=
  match v with
  | JArr l =>
      (fix all (l : list json) : Prop :=
         match l with
         | [] => True
         | x :: r => distinct_keys x /\ all r
         end) l
  | JObj d =>
      NoDup (keys d)
      /\ (fix all (d : list (str * json)) : Prop :=
            match d with
            | [] => True
            | (_, x) :: r => distinct_keys x /\ all r
            end) d
  | _ => True
  end.

(** What attempt [attempt] of the worker for record [idx] gets from the
    completion service: the mapping parsed from the reply, [None] when the
    call raises or the reply does not parse to a mapping. *)
Definition reply_parsed (idx attempt : nat) (prompt : str) : option dict :=
  match chat_completion idx attempt prompt with
  | Some content =>
      match Normalize.parse_and_map_output content with
      | JObj parsed => Some parsed
      | _ => None
      end
  | None => None
  end.

(** [old in s] for a non-empty [old]. *)
Fixpoint occurs (old s : str) : bool :=
  match s with
  | [] => false
  | _ :: r => startswith s old || occurs old r
  end.

Definition marker : str := lit "<<<INPUT_PRODUCT_JSON>>>".

(** [r] is what is left of [s] after a part of it was read. *)
Definition is_suffix (r s : str) : Prop := exists p, s = p ++ r.

(** The row the worker of the future for record [idx] hands to the
    writing loop, when it is not empty. *)
Definition job_row (header : list str) (max_retries : Z)
  (all_records : list (dict * dict)) (idx : nat) : option dict :=
  match nth_error all_records idx with
  | Some record =>
      match Normalize.worker_job header max_retries idx record with
      | Some ((_ :: _) as row) => Some row
      | _ => None
      end
  | None => None
  end.

(** The cell the writing loop of the synchronous stage puts in the CSV
    for a value of the worker's row: a list or a mapping serialized. *)
Definition stage_cell (v : json) : json :=
  match v with
  | JArr _ | JObj _ => JStr (json_dumps v)
  | _ => v
  end.

(** The row that loop writes for the future of record [idx]: the cells of
    the worker's row, when the worker gave one, column by column; none
    when there is no such row or when a cell of it cannot be encoded. *)
Definition stage_row (header : list str) (max_retries : Z)
  (all_records : list (dict * dict)) (idx : nat) : option dict :=
  match job_row header max_retries all_records idx with
  | Some row =>
      let cells :=
        dict_comprehension header (fun k => stage_cell (dict_get row k)) in
      if row_encodable cells then Some cells else None
  | None => None
  end.

Definition stage_rows (header : list str) (max_retries : Z)
  (all_records : list (dict * dict)) (completed : list nat) : list dict :=
  flat_map
    (fun idx =>
       match stage_row header max_retries all_records idx with
       | Some row => [row]
       | None => []
       end)
    completed.

(** What the writing loop logs for the futures [completed], in the order
    they complete: one entry per future, and after every fiftieth future
    the progress. *)
Definition stage_entries (header : list str) (max_retries : Z)
  (all_records : list (dict * dict)) (completed : list nat)
  : list Normalize.log_event :=
  flat_map
    (fun '(position, idx) =>
       match stage_row header max_retries all_records idx with
       | Some _ => Normalize.LogJobProcessed idx
       | None => Normalize.LogFutureFailed idx
       end
       :: (if Nat.eqb (Nat.modulo (S position) 50) 0
           then [Normalize.LogProgress (S position)
                   (List.length all_records)]
           else []))
    (combine (seq 0 (List.length completed)) completed).

(** Progress entries of the log of the batch output processor: the
    numbers of rows they report. *)
Definition progress_counts (log : list ProcessBatch.log_event) : list nat :=
  flat_map
    (fun e =>
       match e with
       | ProcessBatch.LogProgress n _ => [n]
       | _ => []
       end)
    log.

(** The lines reported as skipped. *)
Definition skipped_lines (log : list ProcessBatch.log_event) : list str :=
  flat_map
    (fun e =>
       match e with
       | ProcessBatch.LogSkipNonJson line => [line]
       | _ => []
       end)
    log.

End WithRuntime.

(** A runtime for closed runs with a completion service: the first call
    for a record raises, the second replies with a text that is not JSON,
    the later ones with an object. *)
Definition sample_runtime : Runtime :=
  {| lower_unicode := fun s => s;
     float_unicode := fun _ => None;
     isalnum_unicode := fun _ => false;
     urlparse_netloc := fun _ => None;
     json_dumps := fun _ => lit "{}";
     PROMPT_INSTRUCTION := lit "Input: <<<INPUT_PRODUCT_JSON>>> Output:";
     chat_completion :=
       fun _ attempt _ =>
         match attempt with
         | O => None
         | S O => Some (lit "sorry")
         | _ => Some (q "{'name': 'oil', 'brand': null}")
         end;
     as_completed := fun n => seq 0 n |}.

End Cover.

(** * Properties *)

Import Py Json Eff.

(** ** Strings and dictionaries *)

Lemma char_eqb_eq (a b : char) : char_eqb a b = true <-> a = b.
Proof. apply N.eqb_eq. Qed.

Lemma str_eqb_eq (a b : str) : str_eqb a b = true <-> a = b.
Proof.
  revert b; induction a as [|x a IH]; intros [|y b]; simpl;
    try (split; [discriminate | discriminate]); [tauto|].
  rewrite andb_true_iff, char_eqb_eq, IH.
  split; [intros [-> ->]; reflexivity | intros [= -> ->]; auto].
Qed.

Lemma str_eqb_refl (a : str) : str_eqb a a = true.
Proof. apply str_eqb_eq; reflexivity. Qed.

Lemma str_eqb_neq (a b : str) : str_eqb a b = false <-> a <> b.
Proof.
  rewrite <- str_eqb_eq. destruct (str_eqb a b); split; congruence.
Qed.

Lemma dict_mem_lookup (d : dict) (k : str) :
  dict_mem d k = match dict_lookup d k with Some _ => true | None => false end.
Proof.
  induction d as [|[k' v] d IH]; simpl; [reflexivity|].
  destruct (str_eqb k' k); simpl; auto.
Qed.

Lemma keys_dict_set (d : dict) (k : str) (v : json) (x : str) :
  In x (keys (dict_set d k v)) <-> x = k \/ In x (keys d).
Proof.
  induction d as [|[k' v'] d IH]; simpl.
  - intuition.
  - destruct (str_eqb k' k) eqn:E; simpl.
    + apply str_eqb_eq in E; subst. intuition.
    + rewrite IH. intuition.
Qed.

Lemma keys_fold_set (f : str -> json) (cols : list str) (d : dict)
  (x : str) :
  In x (keys (fold_left (fun d c => dict_set d c (f c)) cols d))
  <-> In x cols \/ In x (keys d).
Proof.
  revert d; induction cols as [|c cols IH]; intros d; simpl.
  - intuition.
  - rewrite IH, keys_dict_set. intuition.
Qed.

Lemma keys_dict_comprehension (f : str -> json) (cols : list str)
  (x : str) :
  In x (keys (dict_comprehension cols f)) <-> In x cols.
Proof.
  unfold dict_comprehension. rewrite keys_fold_set. simpl. intuition.
Qed.

Lemma dict_lookup_set_other (d : dict) (k k' : str) (v : json) :
  str_eqb k k' = false ->
  dict_lookup (dict_set d k v) k' = dict_lookup d k'.
Proof.
  intros Hk. induction d as [|[k0 v0] d IH]; simpl.
  - rewrite Hk. reflexivity.
  - destruct (str_eqb k0 k) eqn:E; simpl.
    + apply str_eqb_eq in E; subst. rewrite Hk. reflexivity.
    + destruct (str_eqb k0 k'); auto.
Qed.

Lemma dict_lookup_set_same (d : dict) (k : str) (v : json) :
  dict_lookup (dict_set d k v) k = Some v.
Proof.
  induction d as [|[k0 v0] d IH]; simpl.
  - rewrite str_eqb_refl. reflexivity.
  - destruct (str_eqb k0 k) eqn:E; simpl; rewrite E; auto.
Qed.

Lemma dict_get_set_other (d : dict) (k k' : str) (v : json) :
  str_eqb k k' = false ->
  dict_get (dict_set d k v) k' = dict_get d k'.
Proof.
  intros H. unfold dict_get. rewrite dict_lookup_set_other; auto.
Qed.

Lemma dict_get_set_same (d : dict) (k : str) (v : json) :
  dict_get (dict_set d k v) k = v.
Proof. unfold dict_get. rewrite dict_lookup_set_same. reflexivity. Qed.

Lemma dict_lookup_del_other (d : dict) (k k' : str) :
  str_eqb k k' = false ->
  dict_lookup (dict_del d k) k' = dict_lookup d k'.
Proof.
  intros Hk. induction d as [|[k0 v0] d IH]; simpl; [reflexivity|].
  destruct (str_eqb k0 k) eqn:E; simpl.
  - apply str_eqb_eq in E; subst. rewrite Hk. reflexivity.
  - destruct (str_eqb k0 k'); auto.
Qed.

(** ** The batch output processor, one line at a time *)

Section BatchLines.
Context {rt : Runtime}.
Import ProcessBatch.

Lemma extract_json_never_exits (content : json) (code : Z) :
  _extract_json_from_content content <> Exited code.
Proof.
  unfold _extract_json_from_content.
  destruct (negb (truthy content)); [discriminate|].
  destruct content; try discriminate.
  destruct (json_loads (json_candidate s)) as [[| | | | |[|[] ?]|]|];
    try discriminate;
    destruct (json_loads _) as [[]|]; discriminate.
Qed.

Lemma extract_json_as_text (c : str) :
  _extract_json_from_content (JStr c)
  = if truthy (JStr c) then Return (Spec.text_result c) else Return JNull.
Proof.
  unfold _extract_json_from_content, Spec.text_result.
  destruct (truthy (JStr c)); [|reflexivity]. simpl.
  destruct (json_loads (json_candidate c)) as [[| | | | |[|[] ?]|]|];
    try reflexivity.
  destruct (json_loads _) as [[]|]; reflexivity.
Qed.

Lemma parsed_object_never_exits (obj : json) (code : Z) :
  parsed_object obj <> Exited code.
Proof.
  unfold parsed_object.
  destruct (truthy (_extract_content_from_line obj)); [|discriminate].
  destruct (_extract_json_from_content _) as [[]| |c] eqn:E;
    try discriminate.
  exfalso. exact (extract_json_never_exits _ E).
Qed.

(** The row builder returns a row, having written nothing, or raises. *)
Lemma build_row_cases (header : list str) (obj parsed : json) (s : state) :
  let '(o, s') := build_row header obj parsed s in
  total s' = total s /\ rows s' = rows s /\ written s' = written s
  /\ (o = Raised \/ exists row, o = Return row).
Proof.
  unfold build_row.
  assert (H : let '(o, s') :=
                match correlation_id obj with
                | None => raise
                | Some cid =>
                    bind (gets total) (fun line_index =>
                    bind (modify (logger (LogPlaceholder line_index cid)))
                         (fun _ => ret (placeholder_row header cid)))
                end s in
              total s' = total s /\ rows s' = rows s
              /\ written s' = written s
              /\ (o = Raised \/ exists row : dict, o = Return row)).
  { destruct (correlation_id obj) as [cid|]; simpl; eauto 7. }
  destruct parsed as [| | | | | |[|e d]]; try exact H.
  simpl. eauto 7.
Qed.

Lemma log_progress_cases (s : state) :
  let '(o, s') := log_progress s in
  o = Return tt /\ total s' = total s /\ rows s' = rows s
  /\ written s' = written s.
Proof.
  unfold log_progress, bind, gets, modify, ret.
  destruct (Nat.eqb _ 0); simpl; auto.
Qed.

(** What one line does to the run: it is counted; a blank or undecodable
    line writes nothing; a decoded line either hands one row to the writer
    or raises before writing. *)
Lemma process_line_cases (header : list str) (line : str) (s : state) :
  let '(o, s') := process_line header line s in
  total s' = S (total s)
  /\ ((Spec.is_json_line line = false /\ o = Return tt
       /\ rows s' = rows s /\ written s' = written s)
      \/ (Spec.is_json_line line = true /\ o = Return tt
          /\ (exists row, rows s' = rows s ++ [safe_row header row])
          /\ written s' = S (written s))
      \/ (Spec.is_json_line line = true /\ o = Raised
          /\ rows s' = rows s /\ written s' = written s)).
Proof.
  unfold process_line, Spec.is_json_line.
  destruct (strip line) as [|c l] eqn:Hs.
  - simpl. split; [reflexivity|]. left. auto.
  - destruct (json_loads (c :: l)) as [obj|] eqn:Hl.
    2:{ simpl. split; [reflexivity|]. left. auto. }
    unfold bind at 1 2. unfold modify at 1.
    destruct (parsed_object obj) as [parsed| |code] eqn:Hp.
    + unfold bind at 1.
      pose proof (build_row_cases header obj parsed (count_line s)) as Hb.
      destruct (build_row header obj parsed (count_line s)) as [o1 s1].
      destruct Hb as (Ht & Hr & Hw & [-> | [row ->]]).
      * simpl in *. rewrite Ht, Hr, Hw. split; [reflexivity|].
        right; right. auto.
      * unfold bind, writerow.
        destruct (row_encodable (safe_row header row)).
        2:{ simpl in *. rewrite Ht, Hr, Hw. split; [reflexivity|].
            right; right. auto. }
        unfold modify.
        pose proof (log_progress_cases (row_written (safe_row header row) s1))
          as Hg.
        destruct (log_progress _) as [o2 s2].
        destruct Hg as (-> & Ht2 & Hr2 & Hw2).
        simpl in *. rewrite Ht2, Hr2, Hw2, Ht, Hr, Hw.
        split; [reflexivity|]. right; left. eauto 6.
    + simpl. split; [reflexivity|]. right; right. auto.
    + exfalso. exact (parsed_object_never_exits _ Hp).
Qed.

Lemma keys_safe_row (header : list str) (row : dict) (k : str) :
  In k (keys (safe_row header row)) <-> In k header.
Proof. unfold safe_row. apply keys_dict_comprehension. Qed.

(** The loop: the rows handed to the writer are appended to those already
    there, each one a [safe_row]; a loop that ends normally has counted
    every line and written one row per decodable line. *)
Lemma for_each_lines (header : list str) (lines : list str) (s : state) :
  let '(o, s') := for_each lines (process_line header) s in
  exists new,
    rows s' = rows s ++ new
    /\ written s' = written s + List.length new
    /\ Forall (fun r => exists row, r = safe_row header row) new
    /\ List.length new <= List.length (filter Spec.is_json_line lines)
    /\ (o = Raised
        \/ (o = Return tt
            /\ total s' = total s + List.length lines
            /\ List.length new
               = List.length (filter Spec.is_json_line lines))).
Proof.
  revert s; induction lines as [|line lines IH]; intros s.
  - simpl. exists []. rewrite app_nil_r. simpl.
    split; [reflexivity|]. split; [lia|]. split; [constructor|].
    split; [lia|]. right. repeat split; lia.
  - simpl. unfold bind.
    pose proof (process_line_cases header line s) as H1.
    destruct (process_line header line s) as [o1 s1].
    destruct H1 as [Ht [(Hj & -> & Hr & Hw) | [(Hj & -> & [row Hr] & Hw)
                                              | (Hj & -> & Hr & Hw)]]];
      rewrite Hj.
    + specialize (IH s1).
      destruct (for_each lines (process_line header) s1) as [o2 s2].
      destruct IH as (new & Er & Ew & Hall & Hle & Ho).
      exists new. rewrite Er, Ew, Hr, Hw. repeat split; auto.
      destruct Ho as [-> | (-> & Et & El)]; [left; auto|right].
      repeat split; auto. rewrite Et, Ht. simpl. lia.
    + specialize (IH s1).
      destruct (for_each lines (process_line header) s1) as [o2 s2].
      destruct IH as (new & Er & Ew & Hall & Hle & Ho).
      exists (safe_row header row :: new).
      rewrite Er, Ew, Hr, Hw, <- app_assoc. simpl.
      repeat split; eauto; try lia.
      destruct Ho as [-> | (-> & Et & El)]; [left; auto|right].
      repeat split; auto. rewrite Et, Ht. lia.
    + exists []. rewrite app_nil_r, Hr, Hw. simpl.
      repeat split; auto; lia.
Qed.

Lemma process_batch_run (header : list str) (lines : list str) :
  let '(o, s') := process_batch_jsonl_to_csv header lines initial in
  written s' = List.length (rows s')
  /\ Forall (fun r => exists row, r = safe_row header row) (rows s')
  /\ List.length (rows s') <= List.length (filter Spec.is_json_line lines)
  /\ (o = Raised
      \/ (o = Return tt
          /\ total s' = List.length lines
          /\ List.length (rows s')
             = List.length (filter Spec.is_json_line lines))).
Proof.
  unfold process_batch_jsonl_to_csv. unfold bind at 1.
  pose proof (for_each_lines header lines initial) as H.
  destruct (for_each lines (process_line header) initial) as [o s1].
  destruct H as (new & Er & Ew & Hall & Hle & Ho).
  simpl in Er, Ew. subst new.
  destruct Ho as [-> | (-> & Et & El)].
  - simpl. repeat split; auto.
  - unfold bind, gets, modify. simpl. repeat split; auto.
Qed.

Lemma parsed_object_returns (obj : json) :
  match _extract_content_from_line obj with
  | JStr _ => True
  | v => truthy v = false
  end ->
  exists parsed, parsed_object obj = Return parsed.
Proof.
  intros Hc. unfold parsed_object.
  destruct (_extract_content_from_line obj) as [| | | |c| |] eqn:Ec;
    try (rewrite Hc; eexists; reflexivity).
  rewrite extract_json_as_text.
  destruct (truthy (JStr c)); [|eexists; reflexivity].
  destruct (Spec.text_result c); eexists; reflexivity.
Qed.

(** A decoded line whose content is a string or missing and whose
    correlation id can be read gets as far as the writer: the line gets
    its row when the row can be encoded, and raises there when not. *)
Lemma process_line_returns (header : list str) (line : str) (obj : json)
  (s : state) :
  json_loads (strip line) = Some obj ->
  match _extract_content_from_line obj with
  | JStr _ => True
  | v => truthy v = false
  end ->
  correlation_id obj <> None ->
  let row := Cover.line_row header obj in
  exists s',
    process_line header line s
    = (if row_encodable row then Return tt else Raised, s')
    /\ rows s' = rows s ++ (if row_encodable row then [row] else []).
Proof.
  intros Hl Hc Hid row.
  destruct (parsed_object_returns obj Hc) as [parsed Hp].
  unfold process_line.
  destruct (strip line) as [|c l] eqn:Hs; [discriminate|].
  rewrite Hl. unfold bind at 1 2. unfold modify at 1. rewrite Hp.
  unfold bind at 1.
  assert (Hb : exists r s1,
             build_row header obj parsed (count_line s) = (Return r, s1)
             /\ rows s1 = rows s /\ row = safe_row header r).
  { subst row. unfold Cover.line_row, build_row. rewrite Hp.
    destruct (correlation_id obj) as [cid|]; [|contradiction].
    destruct parsed as [| | | | | |[|e d]]; simpl;
      do 2 eexists; repeat split; reflexivity. }
  destruct Hb as (r & s1 & -> & Hr & Hrow). rewrite <- Hrow.
  unfold bind, writerow.
  destruct (row_encodable row).
  2:{ exists s1. split; [reflexivity|]. rewrite app_nil_r. exact Hr. }
  unfold modify.
  pose proof (log_progress_cases (row_written row s1)) as Hg.
  destruct (log_progress _) as [o2 s2]. destruct Hg as (-> & _ & Hr2 & _).
  exists s2. split; [reflexivity|]. rewrite Hr2. simpl. rewrite Hr. auto.
Qed.

End BatchLines.

(** ** C1: rows written and input records *)

(** C1, as stated, fails: a run over one line that does not decode as JSON
    ends normally, has counted one line and has written no row. *)
Lemma C1_undecodable_line_dropped :
  let '(o, s') :=
    @ProcessBatch.process_batch_jsonl_to_csv Spec.ascii_runtime
      [lit "name"] [lit "not json at all"] ProcessBatch.initial in
  o = Return tt /\ ProcessBatch.total s' = 1
  /\ ProcessBatch.written s' = 0 /\ ProcessBatch.rows s' = [].
Proof. vm_compute. repeat split. Qed.

(** C1, amended: a run of the batch output processor that ends normally
    has written exactly one row per input line that is not blank and
    decodes as JSON (placeholder rows included); blank lines and lines
    that do not decode are counted and skipped. *)
Theorem C1_one_row_per_decodable_line :
  forall (rt : Runtime) (header : list str) (lines : list str)
         (s' : ProcessBatch.state),
    ProcessBatch.process_batch_jsonl_to_csv header lines ProcessBatch.initial
    = (Return tt, s') ->
    ProcessBatch.written s'
    = List.length (filter Spec.is_json_line lines)
    /\ List.length (ProcessBatch.rows s') = ProcessBatch.written s'
    /\ ProcessBatch.total s' = List.length lines.
Proof.
  intros rt header lines s' H.
  pose proof (process_batch_run header lines) as R. rewrite H in R.
  destruct R as (Hw & _ & _ & [Ho | (_ & Ht & Hl)]); [discriminate|].
  rewrite Hw. auto.
Qed.

Lemma C1_one_row_per_decodable_line_witness :
  let lines :=
    [lit "not json"; lit "   "; q "{'custom_id':'task-0'}";
     q "{'custom_id':'task-1','response':{'body':{'choices':[{'message':"
     ++ q "{'content':'{\'name\':\'oil\'}'}}]}}}"] in
  let s' :=
    snd (@ProcessBatch.process_batch_jsonl_to_csv Spec.ascii_runtime
           [lit "product ID"; lit "name"] lines ProcessBatch.initial) in
  ProcessBatch.written s' = 2
  /\ List.length (ProcessBatch.rows s') = ProcessBatch.written s'
  /\ ProcessBatch.total s' = 4.
Proof.
  intros lines s'.
  apply (@C1_one_row_per_decodable_line Spec.ascii_runtime
           [lit "product ID"; lit "name"] lines s').
  vm_compute. reflexivity.
Defined.

(** ** C2: the keys of a written row *)

Section Invariants.
Context {S : Type} (I : S -> Prop).

Lemma preserves_ret (A : Type) (a : A) : preserves I (ret a).
Proof. intros s H. exact H. Qed.

Lemma preserves_raise (A : Type) : preserves I (@raise S A).
Proof. intros s H. exact H. Qed.

Lemma preserves_modify (f : S -> S) :
  (forall s, I s -> I (f s)) -> preserves I (modify f).
Proof. intros Hf s H. apply Hf. exact H. Qed.

Lemma preserves_bind (A B : Type) (m : M S A) (k : A -> M S B) :
  preserves I m -> (forall a, preserves I (k a)) -> preserves I (bind m k).
Proof.
  intros Hm Hk s H. unfold bind. specialize (Hm s H).
  destruct (m s) as [[a| |c] s']; simpl in *; auto. apply Hk. exact Hm.
Qed.

Lemma preserves_try (A : Type) (m handler : M S A) :
  preserves I m -> preserves I handler -> preserves I (try_except m handler).
Proof.
  intros Hm Hh s H. unfold try_except. specialize (Hm s H).
  destruct (m s) as [[a| |c] s']; simpl in *; auto.
Qed.

Lemma preserves_for_each (X : Type) (l : list X) (body : X -> M S unit) :
  (forall x, preserves I (body x)) -> preserves I (for_each l body).
Proof.
  intros Hb. induction l as [|x l IH]; simpl.
  - apply preserves_ret.
  - apply preserves_bind; [apply Hb | intros _; exact IH].
Qed.

End Invariants.

Section SynchronousRows.
Context {rt : Runtime}.
Import Normalize.

Lemma csv_ok_write (header : list str) (line : csv_line) (w : world) :
  Spec.csv_line_ok header line ->
  Forall (Spec.csv_line_ok header) (Spec.csv_lines w) ->
  Forall (Spec.csv_line_ok header) (Spec.csv_lines (write_csv line w)).
Proof.
  intros Hl Hw. unfold Spec.csv_lines, write_csv in *. simpl.
  apply Forall_app. split; [exact Hw | constructor; [exact Hl|constructor]].
Qed.

Lemma csv_ok_writerow (header : list str) (row : dict) :
  Spec.same_keys header row ->
  preserves (fun w => Forall (Spec.csv_line_ok header) (Spec.csv_lines w))
    (writerow header row).
Proof.
  intros Hr. unfold writerow.
  destruct (forallb _ (keys row)); [|apply preserves_raise].
  destruct (row_encodable row); [|apply preserves_raise].
  apply preserves_modify. intros w. apply csv_ok_write. exact Hr.
Qed.

(** Were the synchronous stage to run, every line it adds to the CSV
    would honour the Schema. *)
Lemma synchronous_stage_rows (header : list str) (write_header : bool)
  (all_records : list (dict * dict)) (max_retries : Z) :
  preserves (fun w => Forall (Spec.csv_line_ok header) (Spec.csv_lines w))
    (synchronous_stage header write_header all_records max_retries).
Proof.
  set (I := fun w => Forall (Spec.csv_line_ok header) (Spec.csv_lines w)).
  assert (Hlog : forall e, preserves I (modify (logger e))).
  { intros e. apply preserves_modify. intros w H. exact H. }
  unfold synchronous_stage.
  apply preserves_bind.
  { apply preserves_modify. intros w H. unfold I, Spec.csv_lines in *.
    simpl. destruct (csv_file w); exact H. }
  intros _. apply preserves_bind.
  { destruct write_header; [|apply preserves_ret].
    apply preserves_modify. intros w. apply csv_ok_write. reflexivity. }
  intros _. apply preserves_bind; [|intros _; apply Hlog].
  apply preserves_for_each. intros [position idx].
  apply preserves_bind;
    [|intros _; destruct (Nat.eqb _ 0); [apply Hlog | apply preserves_ret]].
  apply preserves_try; [|apply Hlog].
  destruct (nth_error all_records idx) as [[det raw]|];
    [|apply preserves_raise].
  apply preserves_bind; [|intros _; apply Hlog].
  destruct (worker_job header max_retries idx (det, raw)) as [[|e row]|].
  - destruct (keys raw) as [|? [|? [|]]]; apply preserves_raise.
  - apply csv_ok_writerow. intros k. apply keys_dict_comprehension.
  - destruct (keys raw) as [|? [|? [|]]]; apply preserves_raise.
Qed.

End SynchronousRows.

(** C2: every row handed to the CSV writer by the batch output processor,
    normal or placeholder, whatever the parsed object held and however the
    run ends, has exactly the Schema columns as keys; so has the row a
    worker builds from a parsed object, and so would every line the
    synchronous stage adds to a new CSV. *)
Theorem C2_row_keys_are_schema_columns :
  forall (rt : Runtime) (header : list str),
    (forall lines : list str,
        Forall (Spec.same_keys header)
          (ProcessBatch.rows
             (snd (ProcessBatch.process_batch_jsonl_to_csv header lines
                     ProcessBatch.initial))))
    /\ (forall parsed deterministic : dict,
           Spec.same_keys header
             (Normalize.normalized_row header parsed deterministic))
    /\ (forall (write_header : bool) (all_records : list (dict * dict))
               (max_retries : Z) (jsonl : option (list str))
               (log : list Normalize.log_event),
           Forall (Spec.csv_line_ok header)
             (Spec.csv_lines
                (snd (Normalize.synchronous_stage header write_header
                        all_records max_retries
                        {| Normalize.jsonl_file := jsonl;
                           Normalize.csv_file := None;
                           Normalize.log := log |})))).
Proof.
  intros rt header. split; [|split].
  - intros lines.
    pose proof (process_batch_run header lines) as R.
    destruct (ProcessBatch.process_batch_jsonl_to_csv header lines
                ProcessBatch.initial) as [o s']. simpl.
    destruct R as (_ & Hall & _).
    eapply Forall_impl; [|exact Hall].
    intros r [row ->] k. apply keys_safe_row.
  - intros parsed deterministic k. unfold Normalize.normalized_row.
    set (row0 := dict_comprehension header (fun col => dict_get parsed col)).
    assert (H0 : In k (keys row0) <-> In k header)
      by apply keys_dict_comprehension.
    revert H0. generalize row0. clear row0.
    induction deterministic as [|[k0 v0] det IH]; intros row H0; simpl;
      [exact H0|].
    apply IH.
    destruct (dict_mem row k0 && _) eqn:E; [|exact H0].
    rewrite keys_dict_set. apply andb_true_iff in E. destruct E as [E _].
    rewrite dict_mem_lookup in E.
    assert (In k0 (keys row)).
    { clear -E. induction row as [|[a b] row IH]; simpl in *;
        [discriminate|].
      destruct (str_eqb a k0) eqn:Ea;
        [left; apply str_eqb_eq; exact Ea | right; auto]. }
    split; [intros [-> | ?]; tauto | tauto].
  - intros write_header all_records max_retries jsonl log.
    apply synchronous_stage_rows. constructor.
Qed.

(** ** C6: the placeholder row *)

Section Placeholder.
Context {rt : Runtime}.
Import ProcessBatch.

Lemma dict_lookup_fold_set (f : str -> json) (cols : list str) (d : dict)
  (k : str) :
  dict_lookup (fold_left (fun d c => dict_set d c (f c)) cols d) k
  = if existsb (str_eqb k) cols then Some (f k) else dict_lookup d k.
Proof.
  revert d; induction cols as [|c cols IH]; intros d; simpl; [reflexivity|].
  rewrite IH.
  destruct (existsb (str_eqb k) cols) eqn:E.
  - rewrite orb_true_r. reflexivity.
  - rewrite orb_false_r. destruct (str_eqb k c) eqn:Ec.
    + apply str_eqb_eq in Ec; subst. apply dict_lookup_set_same.
    + apply dict_lookup_set_other.
      apply str_eqb_neq. apply str_eqb_neq in Ec. congruence.
Qed.

Lemma dict_get_comprehension (f : str -> json) (cols : list str) (k : str) :
  dict_get (dict_comprehension cols f) k
  = if existsb (str_eqb k) cols then f k else JNull.
Proof.
  unfold dict_get, dict_comprehension. rewrite dict_lookup_fold_set.
  destruct (existsb _ cols); reflexivity.
Qed.

Lemma dict_get_fill_missing (header : list str) (row : dict) (k : str) :
  dict_get
    (fold_left
       (fun row k => if dict_mem row k then row else dict_set row k JNull)
       header row) k
  = dict_get row k.
Proof.
  revert row; induction header as [|c header IH]; intros row; simpl;
    [reflexivity|].
  rewrite IH. destruct (dict_mem row c) eqn:E; [reflexivity|].
  destruct (str_eqb c k) eqn:Ec.
  - apply str_eqb_eq in Ec; subst. rewrite dict_get_set_same.
    unfold dict_get. rewrite dict_mem_lookup in E.
    destruct (dict_lookup row k); [discriminate | reflexivity].
  - apply dict_get_set_other. exact Ec.
Qed.

(** The cells of the row written for a placeholder: every Schema column
    is the empty string, except ["product ID"], which holds the
    correlation id when there is one. *)
Lemma placeholder_cells (header : list str) (cid : json) (k : str) :
  existsb (str_eqb k) header = true ->
  dict_get (safe_row header (placeholder_row header cid)) k
  = if str_eqb k (lit "product ID") && truthy cid
    then safe_cell cid else JStr [].
Proof.
  intros Hk. unfold safe_row. rewrite dict_get_comprehension, Hk.
  rewrite dict_get_fill_missing. unfold placeholder_row.
  destruct (str_eqb k (lit "product ID")) eqn:Ek.
  - apply str_eqb_eq in Ek; subst k.
    assert (Hp : existsb (str_eqb (lit "product ID")) header = true)
      by exact Hk.
    rewrite Hp. simpl. destruct (truthy cid).
    + rewrite dict_get_set_same. reflexivity.
    + rewrite dict_get_comprehension, Hk. reflexivity.
  - simpl. destruct (_ && truthy cid).
    + rewrite dict_get_set_other.
      * rewrite dict_get_comprehension, Hk. reflexivity.
      * apply str_eqb_neq. apply str_eqb_neq in Ek. congruence.
    + rewrite dict_get_comprehension, Hk. reflexivity.
Qed.

(** A decoded line with no parsed object and a correlation id that can be
    read gets its placeholder row, and the warning is logged. *)
Lemma placeholder_written (header : list str) (obj parsed : json)
  (cid : json) (s : state) :
  match parsed with JObj (_ :: _) => False | _ => True end ->
  correlation_id obj = Some cid ->
  build_row header obj parsed s
  = (Return (placeholder_row header cid),
     logger (LogPlaceholder (total s) cid) s).
Proof.
  intros Hp Hc. unfold build_row. rewrite Hc.
  destruct parsed as [| | | | | |[|e d]]; try reflexivity. contradiction.
Qed.

End Placeholder.

(** C6, where the code departs from it: a decoded line without
    [custom_id] whose [response] is a string has no parsed object, and the
    placeholder branch raises while it looks for the correlation id; the
    run stops and no row is written for the line. *)
Theorem C6_placeholder_branch_raises :
  forall rt : Runtime,
    @ProcessBatch.process_batch_jsonl_to_csv rt
      [lit "product ID"; lit "name"] [q "{'response':'oops'}"]
      ProcessBatch.initial
    = (Raised,
       {| ProcessBatch.total := 1; ProcessBatch.written := 0;
          ProcessBatch.rows := []; ProcessBatch.log := [] |}).
Proof. intros rt. vm_compute. reflexivity. Qed.

(** ** C8: the keys of the deterministic fields *)

Section Extractor.
Context {rt : Runtime}.
Import Normalize.

Lemma extract_price_out (record out : dict) :
  fst (extract_price record out) = out
  \/ exists v, fst (extract_price record out) = dict_set out (lit "price") v.
Proof.
  unfold extract_price.
  destruct (dict_get record (lit "price")); try (right; eexists; reflexivity).
  destruct (_ ||| _ ||| JStr []); try (left; reflexivity).
  destruct (strip s); [left; reflexivity|].
  destruct (search_number _); [right; eexists; reflexivity|left; reflexivity].
Qed.

(** The keys of the result: the thirteen that are always set, and
    ["price"] in its place when the price step sets it. *)
Lemma extract_keys (record : dict) :
  keys (extract_deterministic_fields record)
  = filter (fun k => negb (str_eqb k (lit "price"))) Spec.deterministic_keys
  \/ keys (extract_deterministic_fields record) = Spec.deterministic_keys.
Proof.
  unfold extract_deterministic_fields.
  set (url := getk record "url" ||| _ ||| _ ||| _).
  set (out3 := dict_set (if truthy url then _ else _) (lit "title") _).
  assert (H3 : keys out3 = [lit "url"; lit "source"; lit "title"]).
  { subst out3. destruct (truthy url); reflexivity. }
  pose proof (extract_price_out record out3) as Hp.
  destruct (extract_price record out3) as [out4 currency]. simpl in Hp.
  assert (Hk : forall out, keys out = [lit "url"; lit "source"; lit "title"]
                -> exists a b c, out = [(lit "url", a); (lit "source", b);
                                         (lit "title", c)]).
  { intros [|[k1 a] [|[k2 b] [|[k3 c] [|]]]]; simpl; try discriminate.
    intros [= -> -> ->]. eauto. }
  destruct (Hk _ H3) as (a & b & c & E3).
  destruct Hp as [-> | [v ->]]; rewrite E3; [left | right]; reflexivity.
Qed.

End Extractor.

(** C8, where the code departs from it: for the empty record the result
    has thirteen keys and no ["price"] key (the price step sets the key
    only when the price field is not null or a number is found in the
    combined string). *)
Theorem C8_price_key_missing :
  forall rt : Runtime,
    keys (@Normalize.extract_deterministic_fields rt [])
    = [lit "url"; lit "source"; lit "title"; lit "currency";
       lit "image_urls"; lit "upc"; lit "mpn"; lit "seller_name";
       lit "itemLocation"; lit "category"; lit "rating";
       lit "review_count"; lit "description"]
    /\ dict_mem (@Normalize.extract_deterministic_fields rt []) (lit "price")
       = false
    /\ List.length Spec.deterministic_keys = 14.
Proof. intros rt. vm_compute. repeat split. Qed.

(** ** C7: the batch request file *)

Section Emitter.
Context {rt : Runtime}.
Import Normalize.

Lemma request_line_is_batch_line (idx : nat) (det raw : dict) :
  batch_line idx det raw = Spec.request_line idx (build_prompt det raw).
Proof. reflexivity. Qed.

Lemma enumerate_from_fst (A : Type) (l : list A) (start : nat) :
  map fst (enumerate_from start l) = seq start (List.length l).
Proof.
  revert start; induction l as [|x l IH]; intros start; simpl;
    [reflexivity | rewrite IH; reflexivity].
Qed.

(** [enumerate] pairs the element at position [i] with [start + i]. *)
Lemma enumerate_from_combine (A : Type) (l : list A) (start : nat) :
  enumerate_from start l = combine (seq start (List.length l)) l.
Proof.
  revert start; induction l as [|x l IH]; intros start; simpl;
    [reflexivity | rewrite IH; reflexivity].
Qed.

Lemma nth_error_numbered (A : Type) (l : list A) (start i : nat) (x : A) :
  nth_error l i = Some x ->
  nth_error (combine (seq start (List.length l)) l) i = Some (start + i, x).
Proof.
  revert start i; induction l as [|y l IH]; intros start [|i]; simpl;
    try discriminate.
  - intros [= ->]. rewrite Nat.add_0_r. reflexivity.
  - intros H. rewrite (IH (S start) i H). f_equal. f_equal. lia.
Qed.

Lemma request_lines_length (records : list (dict * dict)) :
  List.length (Spec.request_lines records) = List.length records.
Proof.
  unfold Spec.request_lines.
  rewrite length_map, length_combine, length_seq. lia.
Qed.

Lemma request_lines_nth (records : list (dict * dict)) (i : nat)
  (det raw : dict) :
  nth_error records i = Some (det, raw) ->
  nth_error (Spec.request_lines records) i
  = Some (json_dumps (Spec.request_line i (build_prompt det raw)) ++ nl).
Proof.
  intros H. unfold Spec.request_lines.
  rewrite nth_error_map, (nth_error_numbered records 0 i H). reflexivity.
Qed.

Lemma first_unencodable_none (lines : list str) :
  Spec.first_unencodable lines = None
  <-> forallb utf8_encodable lines = true.
Proof.
  induction lines as [|l lines IH]; simpl; [tauto|].
  destruct (utf8_encodable l); simpl.
  - destruct (Spec.first_unencodable lines); simpl.
    + split; [discriminate|]. intros H. apply IH in H. discriminate.
    + split; [|reflexivity]. intros _. apply IH. reflexivity.
  - split; discriminate.
Qed.

(** The writing loop: every line up to the first that cannot be encoded
    is appended, and the loop raises there. *)
Lemma write_lines_run (entries : list (nat * (dict * dict)))
  (l : list str) (c : option (list csv_line)) (g : list log_event) :
  for_each entries
    (fun '(idx, (det, raw)) =>
       write_jsonl (json_dumps (batch_line idx det raw) ++ nl))
    {| jsonl_file := Some l; csv_file := c; log := g |}
  = match Spec.first_unencodable (map Spec.emitted_line entries) with
    | None =>
        (Return tt,
         {| jsonl_file := Some (l ++ map Spec.emitted_line entries);
            csv_file := c; log := g |})
    | Some k =>
        (Raised,
         {| jsonl_file :=
              Some (l ++ firstn k (map Spec.emitted_line entries));
            csv_file := c; log := g |})
    end.
Proof.
  revert l; induction entries as [|[idx [det raw]] entries IH]; intros l.
  - simpl. unfold ret. rewrite app_nil_r. reflexivity.
  - cbn [for_each map Spec.first_unencodable]. unfold bind at 1.
    unfold write_jsonl.
    change (Spec.emitted_line (idx, (det, raw)))
      with (json_dumps (batch_line idx det raw) ++ nl).
    destruct (utf8_encodable (json_dumps (batch_line idx det raw) ++ nl)).
    + unfold modify, jsonl_appended. cbn [jsonl_file csv_file log].
      rewrite IH.
      destruct (Spec.first_unencodable (map Spec.emitted_line entries));
        cbn [option_map firstn]; rewrite <- app_assoc; reflexivity.
    + unfold raise. cbn [firstn]. rewrite app_nil_r. reflexivity.
Qed.

Lemma write_batch_jsonl_run (records : list (dict * dict)) (w : world) :
  write_batch_jsonl records w
  = match Spec.first_unencodable (Spec.request_lines records) with
    | None =>
        (Return (List.length records),
         {| jsonl_file := Some (Spec.request_lines records);
            csv_file := csv_file w; log := log w |})
    | Some k =>
        (Raised,
         {| jsonl_file := Some (firstn k (Spec.request_lines records));
            csv_file := csv_file w; log := log w |})
    end.
Proof.
  unfold write_batch_jsonl, bind, modify, open_jsonl_w.
  rewrite write_lines_run. unfold Spec.request_lines, enumerate.
  rewrite enumerate_from_combine.
  destruct (Spec.first_unencodable _); reflexivity.
Qed.

End Emitter.

(** C7, where the code departs from it.  The line of the record at
    position [i] is the serialized request with [custom_id] "task-i",
    method POST, url /chat/completions and a body with the model name and
    the system and user messages, followed by a newline; the emitter
    writes these lines in order, one per record, as long as they can be
    encoded.  At the first line that cannot, it raises: the lines before
    it are in the file, the record and those after it get no line, and no
    count is returned.  A second run on the same records ends the same way
    and leaves the same file.  A record loaded from the input
    [[{"title":"\ud83d"}]], a lone surrogate, is such a record: with a
    serializer that keeps the characters of a string the emitter raises
    on it and leaves an empty file. *)
Theorem C7_emitter_raises_at_unencodable_line :
  (forall (rt : Runtime) (records : list (dict * dict))
          (w : Normalize.world),
      let lines := Spec.request_lines records in
      let '(o, w') := Normalize.write_batch_jsonl records w in
      List.length lines = List.length records
      /\ (forall (i : nat) (det raw : dict),
             nth_error records i = Some (det, raw) ->
             nth_error lines i
             = Some (json_dumps
                       (Spec.request_line i (Normalize.build_prompt det raw))
                     ++ nl))
      /\ match Spec.first_unencodable lines with
         | None =>
             o = Return (List.length records)
             /\ Normalize.jsonl_file w' = Some lines
         | Some k =>
             o = Raised /\ Normalize.jsonl_file w' = Some (firstn k lines)
         end
      /\ Normalize.csv_file w' = Normalize.csv_file w
      /\ Normalize.log w' = Normalize.log w
      /\ Normalize.write_batch_jsonl records w' = (o, w'))
  /\ (let records :=
        @Normalize.collect_records Spec.dumps_runtime
          [Some (q "[{'title':'\ud83d'}]")] in
      map snd records = [[(lit "title", JStr [55357%N])]]
      /\ @Normalize.write_batch_jsonl Spec.dumps_runtime records
           {| Normalize.jsonl_file := None; Normalize.csv_file := None;
              Normalize.log := [] |}
         = (Raised,
            {| Normalize.jsonl_file := Some []; Normalize.csv_file := None;
               Normalize.log := [] |})).
Proof.
  split.
  - intros rt records w lines.
    rewrite write_batch_jsonl_run. fold lines.
    destruct (Spec.first_unencodable lines) as [k|] eqn:E;
      (split; [apply request_lines_length|]);
      (split; [intros i det raw; apply request_lines_nth|]);
      (split; [split; reflexivity|]);
      (split; [reflexivity|]); (split; [reflexivity|]);
      rewrite write_batch_jsonl_run; fold lines; rewrite E; reflexivity.
  - vm_compute. split; reflexivity.
Qed.

(** ** C9: the record handed to the extractor *)

(** C9, as stated, fails: a loaded record with a ["reviews"] key reaches
    the extractor and the prompt builder without it. *)
Lemma C9_reviews_key_deleted :
  let loaded := [(lit "title", JStr (lit "oil")); (lit "reviews", JInt 12)] in
  json_loads (q "[{'title':'oil','reviews':12}]") = Some (JArr [JObj loaded])
  /\ map snd
       (@Normalize.collect_records Spec.ascii_runtime
          [Some (q "[{'title':'oil','reviews':12}]")])
     = [[(lit "title", JStr (lit "oil"))]]
  /\ dict_lookup loaded (lit "reviews") = Some (JInt 12).
Proof. vm_compute. repeat split. Qed.

(** C9, amended: the mapping handed to the extractor and, with the
    extractor's result, to the prompt builder is the loaded mapping
    without its ["reviews"] entry; every other key has the value the
    Loader produced, and a mapping without ["reviews"] is handed on as it
    is. *)
Theorem C9_record_handed_on_without_reviews :
  forall (rt : Runtime) (it : dict) (rest : list json),
    let raw :=
      if dict_mem it (lit "reviews") then dict_del it (lit "reviews")
      else it in
    Normalize.prepare_items (JObj it :: rest)
    = (Normalize.extract_deterministic_fields raw, raw)
      :: Normalize.prepare_items rest
    /\ (forall k : str,
           k <> lit "reviews" -> dict_lookup raw k = dict_lookup it k)
    /\ (dict_mem it (lit "reviews") = false -> raw = it).
Proof.
  intros rt it rest raw. split; [reflexivity|]. split.
  - intros k Hk. subst raw. destruct (dict_mem it (lit "reviews"));
      [|reflexivity].
    apply dict_lookup_del_other. apply str_eqb_neq. congruence.
  - intros H. subst raw. rewrite H. reflexivity.
Qed.

(** ** C10: the exit after the batch file *)

(** C10, as stated, fails: an invocation whose template cannot be read
    raises before anything is written; it does not end in [sys.exit(0)]
    and there is no batch request file after it. *)
Lemma C10_unreadable_template_raises :
  let w :=
    {| Normalize.jsonl_file := None; Normalize.csv_file := None;
       Normalize.log := [] |} in
  @Normalize.normalize_records Spec.ascii_runtime None
    [Some (q "[{'title':'oil'}]")] 1 w
  = (Raised, w)
  /\ fst (@Normalize.normalize_records Spec.ascii_runtime None
            [Some (q "[{'title':'oil'}]")] 1 w)
     <> Exited 0.
Proof. vm_compute. split; [reflexivity | discriminate]. Qed.

(** C10, amended: no invocation of [normalize_records] returns, reaches
    the synchronous stage or touches the CSV.  With a readable template and
    request lines that can all be written, it writes the batch request
    file, one line per record, and ends in exit code 0 right after; without
    a readable template it raises before writing anything.  (When a line
    cannot be written, the emitter raises at that line and the exit is not
    reached either.) *)
Theorem C10_exit_before_synchronous_stage :
  forall (rt : Runtime) (template : option (list str))
         (files : list (option str)) (max_retries : Z)
         (w : Normalize.world),
    let lines := Spec.request_lines (Normalize.collect_records files) in
    let '(o, w') := Normalize.normalize_records template files max_retries w in
    Normalize.csv_file w' = Normalize.csv_file w
    /\ o <> Return tt
    /\ match template with
       | Some header =>
           Normalize.log w'
           = Normalize.log w
             ++ [Normalize.LogPrepared
                   (List.length (Normalize.collect_records files))]
           /\ match Spec.first_unencodable lines with
              | None => o = Exited 0 /\ Normalize.jsonl_file w' = Some lines
              | Some k =>
                  o = Raised
                  /\ Normalize.jsonl_file w' = Some (firstn k lines)
              end
       | None => o = Raised /\ w' = w
       end.
Proof.
  intros rt [header|] files max_retries w lines;
    unfold Normalize.normalize_records.
  - unfold bind at 1. unfold ret at 1. unfold bind at 1. unfold gets at 1.
    unfold bind at 1. unfold modify at 1. unfold bind at 1.
    rewrite write_batch_jsonl_run. fold lines.
    destruct (Spec.first_unencodable lines) as [k|].
    + simpl. repeat split; discriminate || reflexivity.
    + unfold bind at 1. unfold sys_exit.
      simpl. repeat split; discriminate || reflexivity.
  - simpl. repeat split; discriminate || reflexivity.
Qed.

(** ** C5: the precedence of the Schema Mapper *)

Section Mapper.
Context {rt : Runtime}.
Import ProcessBatch.

Lemma dict_mem_false (d : dict) (k : str) :
  dict_mem d k = false -> dict_lookup d k = None.
Proof.
  rewrite dict_mem_lookup. destruct (dict_lookup d k); [discriminate|auto].
Qed.

Lemma dict_mem_true (d : dict) (k : str) :
  dict_mem d k = true -> dict_lookup d k = Some (dict_get d k).
Proof.
  rewrite dict_mem_lookup. unfold dict_get.
  destruct (dict_lookup d k); [auto|discriminate].
Qed.

(** The chain of tests of [_value_for_header] is a first match over the
    candidate keys, then the scan. *)
Lemma value_for_header_first_match (parsed : dict) (column : str) :
  _value_for_header (Some parsed) column
  = Spec.resolve Spec.candidates_one_way parsed column.
Proof.
  unfold _value_for_header, Spec.resolve, Spec.candidates_one_way,
    Spec.with_lower.
  cbn [app Spec.first_present].
  repeat
    match goal with
    | |- context [dict_mem parsed ?k] =>
        let E := fresh "E" in
        destruct (dict_mem parsed k) eqn:E;
        [ rewrite (dict_mem_true _ _ E); reflexivity
        | rewrite (dict_mem_false _ _ E) ]
    end.
  reflexivity.
Qed.

End Mapper.

(** C5, as stated, fails: for the column "product_id" a parsed key
    "product id" is not found, though the column with its underscore
    replaced by a space is that key. *)
Lemma C5_underscore_to_space_not_tried :
  @ProcessBatch._value_for_header Spec.ascii_runtime
    (Some [(lit "product id", JInt 7)]) (lit "product_id") = JNull
  /\ @Spec.resolve Spec.ascii_runtime
       (@Spec.candidates_as_written Spec.ascii_runtime)
       [(lit "product id", JInt 7)] (lit "product_id") = JInt 7.
Proof. vm_compute. split; reflexivity. Qed.

(** C5, amended: the value of a column is that of the first key present in
    the parsed mapping among the column name, the name in lower case, the
    name with its spaces replaced by underscores (as it is, then in lower
    case) and the name with its spaces removed (as it is, then in lower
    case); when none is present, that of the first key which, stripped and
    in lower case, equals the name in lower case; null when there is none.
    Underscores of the column are never replaced by spaces.  The parsed
    keys "Product ID" and "product_id" both give the column
    "product ID" its value. *)
Theorem C5_mapper_precedence :
  forall (rt : Runtime) (parsed : dict) (column : str) (v : json),
    ProcessBatch._value_for_header (Some parsed) column
    = Spec.resolve Spec.candidates_one_way parsed column
    /\ ProcessBatch._value_for_header
         (Some [(lit "Product ID", v)]) (lit "product ID") = v
    /\ ProcessBatch._value_for_header
         (Some [(lit "product_id", v)]) (lit "product ID") = v
    /\ ProcessBatch._value_for_header
         (Some [(lit "Unrelated", v)]) (lit "product ID") = JNull.
Proof.
  intros rt parsed column v.
  split; [apply value_for_header_first_match|].
  repeat split; vm_compute; reflexivity.
Qed.

(** ** C4: price and currency *)

Section Price.
Context {rt : Runtime}.
Import Normalize.

Lemma search_iso_three (prev_word : bool) (s code : str) :
  search_iso prev_word s = Some code -> exists a b c, code = [a; b; c].
Proof.
  revert prev_word; induction s as [|a s IH]; intros prev_word; simpl;
    [discriminate|].
  destruct s as [|b [|c rest]]; simpl.
  - discriminate.
  - destruct (is_word a); simpl; discriminate.
  - destruct (negb prev_word && is_upper a && is_upper b && is_upper c && _).
    + intros [= <-]. eauto.
    + apply IH.
Qed.

Lemma symbol_map_or_null (sym : char) :
  symbol_map sym ||| JNull = symbol_map sym.
Proof.
  unfold symbol_map.
  repeat match goal with
         | |- context [char_eqb sym ?c] => destruct (char_eqb sym c)
         end; reflexivity.
Qed.

(** The price step against the words of the specification: what a lookup
    of ["price"] gives afterwards, the currency stored, and the other keys
    left as they were. *)
Lemma extract_price_by_presence (record out : dict) :
  dict_get out (lit "price") = JNull ->
  let '(out', currency) := extract_price record out in
  (dict_get out' (lit "price"), currency ||| JNull)
  = Spec.price_currency_by_presence record
  /\ forall k, str_eqb (lit "price") k = false ->
               dict_get out' k = dict_get out k.
Proof.
  intros Hout.
  unfold extract_price, Spec.price_currency_by_presence,
    Spec.parse_price_with_currency, Spec.separate_currency, getk.
  destruct (dict_get record (lit "price")) eqn:Ep;
    try (split;
         [ rewrite dict_get_set_same; reflexivity
         | intros k Hk; apply dict_get_set_other; exact Hk ]).
  destruct (_ ||| _ ||| JStr []) as [| | | |p| |];
    try (rewrite Hout; split; [reflexivity | reflexivity]).
  destruct (strip p); [rewrite Hout; split; reflexivity|].
  assert (Hc : match search_iso false p with
               | Some code => JStr code
               | None => match search_symbol p with
                         | Some sym => symbol_map sym
                         | None => JNull
                         end
               end ||| JNull
               = match search_iso false p with
                 | Some code => JStr code
                 | None => match search_symbol p with
                           | Some sym => symbol_map sym
                           | None => JNull
                           end
                 end).
  { destruct (search_iso false p) as [code|] eqn:Ei.
    - destruct (search_iso_three _ _ Ei) as (a & b & c0 & ->). reflexivity.
    - destruct (search_symbol p); [apply symbol_map_or_null|reflexivity]. }
  rewrite Hc.
  destruct (search_number _).
  - split; [rewrite dict_get_set_same; reflexivity|].
    intros k Hk; apply dict_get_set_other; exact Hk.
  - rewrite Hout. split; reflexivity.
Qed.

Lemma extract_price_currency (record : dict) :
  let out := extract_deterministic_fields record in
  (dict_get out (lit "price"), dict_get out (lit "currency"))
  = Spec.price_currency_by_presence record.
Proof.
  unfold extract_deterministic_fields.
  set (url := getk record "url" ||| _ ||| _ ||| _).
  set (out3 := dict_set (if truthy url then _ else _) (lit "title") _).
  assert (H3 : dict_get out3 (lit "price") = JNull).
  { subst out3. destruct (truthy url); reflexivity. }
  pose proof (extract_price_by_presence record out3 H3) as Hp.
  destruct (extract_price record out3) as [out4 currency].
  destruct Hp as [Hp _]. rewrite <- Hp.
  repeat (rewrite dict_get_set_other by reflexivity).
  rewrite dict_get_set_same. reflexivity.
Qed.

End Price.

(** C4, where the code departs from it: the record has a price field
    that is not a number, "N/A", and a combined string "US $24.95/ea".
    The words of the claim, and the comments of the code ("prefer numeric
    'price' else parse priceWithCurrency", "numeric price present"), have
    the combined string parsed, which gives 24.95 and USD, as the code
    itself does when the price field is missing.  The code tests whether
    the price field is null, not whether it is a number: it takes the
    branch of the numeric price, the conversion of "N/A" fails, the
    combined string is never looked at, and price and currency are both
    null. *)
Theorem C4_non_numeric_price_hides_combined_string :
  forall rt : Runtime,
    let fields (r : dict) :=
      let out := Normalize.extract_deterministic_fields r in
      (dict_get out (lit "price"), dict_get out (lit "currency")) in
    fields [(lit "price", JStr (lit "N/A"));
            (lit "priceWithCurrency", JStr (lit "US $24.95/ea"))]
    = (JNull, JNull)
    /\ fields [(lit "priceWithCurrency", JStr (lit "US $24.95/ea"))]
       = (JFloat (FDec 2495 (-2)), JStr (lit "USD"))
    /\ Spec.price_currency_as_written
         [(lit "price", JStr (lit "N/A"));
          (lit "priceWithCurrency", JStr (lit "US $24.95/ea"))]
       = (JFloat (FDec 2495 (-2)), JStr (lit "USD")).
Proof.
  intros rt fields. subst fields. destruct rt as [lo fl al up jd pi cc ac].
  repeat split; vm_compute; reflexivity.
Qed.

(** ** The JSON scanner: what it leaves and what it returns *)

Section Scanner.

Local Open Scope N_scope.

Lemma leaves_refl (s : str) : Spec.leaves s s.
Proof. split; [apply incl_refl | apply le_n]. Qed.

Lemma leaves_tl (c : char) (r s : str) :
  Spec.leaves r s -> Spec.leaves r (c :: s).
Proof.
  intros [H1 H2]. split; [apply incl_tl; exact H1 | simpl; lia].
Qed.

Lemma leaves_tran (r s t : str) :
  Spec.leaves r s -> Spec.leaves s t -> Spec.leaves r t.
Proof.
  intros [H1 H2] [H3 H4]. split; [eapply incl_tran; eauto | lia].
Qed.

Lemma skip_ws_leaves (s : str) : Spec.leaves (skip_ws s) s.
Proof.
  induction s as [|c s IH]; simpl; [apply leaves_refl|].
  destruct (is_json_ws c); [apply leaves_tl; exact IH | apply leaves_refl].
Qed.

Lemma head_is_some (c : char) (s r : str) :
  head_is c s = Some r -> s = c :: r.
Proof.
  destruct s as [|x s]; simpl; [discriminate|].
  destruct (char_eqb x c) eqn:E; [|discriminate].
  apply char_eqb_eq in E. intros [= ->]. congruence.
Qed.

Lemma head_is_leaves (c : char) (s r : str) :
  head_is c s = Some r -> Spec.leaves r s.
Proof.
  intros H. apply head_is_some in H. subst. apply leaves_tl, leaves_refl.
Qed.

Lemma skipn_leaves (n : nat) (l : str) : Spec.leaves (skipn n l) l.
Proof.
  revert l; induction n as [|n IH]; intros [|x l]; simpl;
    try apply leaves_refl.
  apply leaves_tl, IH.
Qed.

Lemma after_prefix_leaves (p s r : str) :
  after_prefix p s = Some r -> Spec.leaves r s.
Proof.
  unfold after_prefix. destruct (startswith s p); [|discriminate].
  intros [= <-]. apply skipn_leaves.
Qed.

Lemma scanstring_leaves (s : str) :
  forall wait acc t r, scanstring s wait acc = Some (t, r) -> Spec.leaves r s.
Proof.
  induction s as [|c s IH]; intros wait acc t r; simpl; [discriminate|].
  destruct wait as [|k]; [|intros H; apply leaves_tl; eapply IH; exact H].
  destruct (char_eqb c 34); [intros [= _ <-]; apply leaves_tl, leaves_refl|].
  destruct (N.ltb c 32); [discriminate|].
  destruct (char_eqb c 92); [|intros H; apply leaves_tl; eapply IH; exact H].
  destruct s as [|e r']; [discriminate|].
  destruct (char_eqb e 117).
  - destruct (unicode_escape r') as [[u n]|]; [|discriminate].
    intros H; apply leaves_tl; eapply IH; exact H.
  - destruct (simple_escape e); [|discriminate].
    intros H; apply leaves_tl; eapply IH; exact H.
Qed.

Lemma span_digits_leaves (s : str) :
  forall acc, Spec.leaves (snd (span_digits s acc)) s.
Proof.
  induction s as [|c s IH]; intros acc; simpl; [apply leaves_refl|].
  destruct (is_digit c); [apply leaves_tl, IH | apply leaves_refl].
Qed.

Lemma scan_fraction_leaves (s : str) : Spec.leaves (snd (scan_fraction s)) s.
Proof.
  unfold scan_fraction.
  destruct (head_is 46 s) as [[|d t]|] eqn:E; try apply leaves_refl.
  destruct (is_digit d); [|apply leaves_refl].
  eapply leaves_tran;
    [apply span_digits_leaves | eapply head_is_leaves; exact E].
Qed.

Lemma scan_exponent_leaves (s : str) : Spec.leaves (snd (scan_exponent s)) s.
Proof.
  unfold scan_exponent. destruct s as [|x t]; [apply leaves_refl|].
  destruct (char_eqb x 101 || char_eqb x 69); [|apply leaves_refl].
  assert (H : forall t1 eneg, Spec.leaves t1 t ->
            Spec.leaves (snd (match span_digits t1 [] with
                       | ([], _) => (None, x :: t)
                       | (ds, t2) =>
                           (Some (if eneg : bool
                                  then (- digits_value ds 0)%Z
                                  else digits_value ds 0), t2)
                       end)) (x :: t)).
  { intros t1 eneg Ht. pose proof (span_digits_leaves t1 []) as Hs.
    destruct (span_digits t1 []) as [[|d ds] t2]; simpl in *;
      [apply leaves_refl|].
    apply leaves_tl. eapply leaves_tran; eauto. }
  destruct t as [|y t']; [apply (H [] false), leaves_refl|].
  destruct (is_sign y).
  - apply (H t' (char_eqb y 45)). apply leaves_tl, leaves_refl.
  - apply (H (y :: t') false). apply leaves_refl.
Qed.

Lemma scan_number_props (s : str) (v : json) (r : str) :
  scan_number s = Some (v, r) -> Spec.leaves r s /\ ~ Spec.is_obj v.
Proof.
  unfold scan_number.
  assert (H : forall neg s1, Spec.leaves s1 s ->
    match s1 with
    | [] => None
    | c :: r0 =>
        if is_digit c
        then
          let '(ip, r1) :=
            if char_eqb c 48 then ([c], r0) else span_digits r0 [c] in
          let '(fp, r2) := scan_fraction r1 in
          let '(ex, r3) := scan_exponent r2 in
          let sgn := fun z : Z => if neg : bool then (- z)%Z else z in
          match fp with
          | [] =>
              match ex with
              | Some _ =>
                  let e := match ex with Some v0 => v0 | None => 0%Z end in
                  Some (JFloat (FDec (sgn (digits_value (ip ++ fp) 0))
                                  (e - Z.of_nat (List.length fp))), r3)
              | None => Some (JInt (sgn (digits_value ip 0)), r3)
              end
          | _ :: _ =>
              let e := match ex with Some v0 => v0 | None => 0%Z end in
              Some (JFloat (FDec (sgn (digits_value (ip ++ fp) 0))
                              (e - Z.of_nat (List.length fp))), r3)
          end
        else None
    end = Some (v, r) -> Spec.leaves r s /\ ~ Spec.is_obj v).
  { intros neg [|c r0] Hs1; [discriminate|].
    destruct (is_digit c); [|discriminate].
    assert (H1 : Spec.leaves (snd (if char_eqb c 48 then ([c], r0)
                            else span_digits r0 [c])) r0).
    { destruct (char_eqb c 48);
        [apply leaves_refl | apply span_digits_leaves]. }
    destruct (if char_eqb c 48 then _ else _) as [ip r1]. simpl in H1.
    pose proof (scan_fraction_leaves r1) as H2.
    destruct (scan_fraction r1) as [fp r2]. simpl in H2.
    pose proof (scan_exponent_leaves r2) as H3.
    destruct (scan_exponent r2) as [ex r3]. simpl in H3.
    assert (Hr : Spec.leaves r3 s).
    { eapply leaves_tran; [exact H3|]. eapply leaves_tran; [exact H2|].
      eapply leaves_tran; [exact H1|]. eapply leaves_tran; [|exact Hs1].
      apply leaves_tl, leaves_refl. }
    destruct fp; [destruct ex|]; intros [= <- <-]; simpl; auto. }
  destruct (head_is 45 s) as [r0|] eqn:E.
  - apply (H true r0). eapply head_is_leaves; exact E.
  - apply (H false s). apply leaves_refl.
Qed.

Lemma scan_constant_props (s : str) (v : json) (r : str) :
  scan_constant s = Some (v, r) -> Spec.leaves r s /\ ~ Spec.is_obj v.
Proof.
  unfold scan_constant.
  repeat match goal with
         | |- context [after_prefix ?p s] =>
             let E := fresh "E" in
             destruct (after_prefix p s) eqn:E;
             [ intros [= <- <-]; split;
               [eapply after_prefix_leaves; exact E | simpl; auto] | ]
         | |- context [scan_number s] =>
             let E := fresh "E" in
             destruct (scan_number s) as [[? ?]|] eqn:E;
             [ intros [= <- <-]; eapply scan_number_props; exact E | ]
         end.
  discriminate.
Qed.

(** What a successful scan leaves is part of its input and no longer; an
    object starts with an opening brace and has a closing brace after it;
    the members loop returns objects only, the elements loop never. *)
Lemma scan_props (fuel : nat) :
  (forall s v r, scan_once fuel s = Some (v, r) ->
     Spec.leaves r s
     /\ (Spec.is_obj v -> exists t, s = 123%N :: t /\ In 125%N t))
  /\ (forall s acc v r, scan_members fuel s acc = Some (v, r) ->
        Spec.leaves r s /\ In 125%N s /\ Spec.is_obj v)
  /\ (forall s acc v r, scan_elements fuel s acc = Some (v, r) ->
        Spec.leaves r s /\ ~ Spec.is_obj v).
Proof.
  induction fuel as [|f (IHo & IHm & IHe)].
  - repeat split; discriminate.
  - split; [|split].
    + intros [|c s] v r; simpl; [discriminate|].
      destruct (char_eqb c 34) eqn:E34.
      { destruct (scanstring s 0%nat []) as [[t r']|] eqn:Es; [|discriminate].
        intros [= <- <-]. split; [|simpl; tauto].
        apply leaves_tl. eapply scanstring_leaves; exact Es. }
      destruct (char_eqb c 123) eqn:E123.
      { apply char_eqb_eq in E123; subst c.
        destruct (head_is 125 (skip_ws s)) as [r'|] eqn:Eh.
        - intros [= <- <-].
          pose proof (head_is_leaves _ _ Eh) as Hr.
          apply head_is_some in Eh.
          pose proof (skip_ws_leaves s) as Hs. split.
          + apply leaves_tl. eapply leaves_tran; [exact Hr | exact Hs].
          + intros _. exists s. split; [reflexivity|].
            apply (proj1 Hs). rewrite Eh. left. reflexivity.
        - intros H. apply IHm in H. destruct H as (Hi & H125 & _). split.
          + apply leaves_tl.
            eapply leaves_tran; [exact Hi | apply skip_ws_leaves].
          + intros _. exists s. split; [reflexivity|].
            apply (proj1 (skip_ws_leaves s)). exact H125. }
      destruct (char_eqb c 91) eqn:E91.
      { destruct (head_is 93 (skip_ws s)) as [r'|] eqn:Eh.
        - intros [= <- <-]. split; [|simpl; tauto].
          apply leaves_tl. eapply leaves_tran;
            [eapply head_is_leaves; exact Eh | apply skip_ws_leaves].
        - intros H. apply IHe in H. destruct H as (Hi & Hn). split.
          + apply leaves_tl.
            eapply leaves_tran; [exact Hi | apply skip_ws_leaves].
          + intros Ho. contradiction. }
      intros H. apply scan_constant_props in H. destruct H as [Hi Hn].
      split; [exact Hi | intros Ho; contradiction].
    + intros s acc v r; simpl.
      destruct (head_is 34 s) as [r0|] eqn:E0; [|discriminate].
      destruct (scanstring r0 0%nat []) as [[k r1]|] eqn:E1; [|discriminate].
      destruct (head_is 58 (skip_ws r1)) as [r2|] eqn:E2; [|discriminate].
      destruct (scan_once f (skip_ws r2)) as [[v0 r3]|] eqn:E3;
        [|discriminate].
      assert (H3 : Spec.leaves (skip_ws r3) s).
      { eapply leaves_tran; [apply skip_ws_leaves|].
        eapply leaves_tran; [apply (proj1 (IHo _ _ _ E3))|].
        eapply leaves_tran; [apply skip_ws_leaves|].
        eapply leaves_tran; [eapply head_is_leaves; exact E2|].
        eapply leaves_tran; [apply skip_ws_leaves|].
        eapply leaves_tran; [eapply scanstring_leaves; exact E1|].
        eapply head_is_leaves; exact E0. }
      destruct (head_is 125 (skip_ws r3)) as [r4|] eqn:E4.
      * intros [= <- <-].
        pose proof (head_is_leaves _ _ E4) as Hr.
        apply head_is_some in E4.
        split; [eapply leaves_tran; [exact Hr | exact H3]|].
        split; [|exact I].
        apply (proj1 H3). rewrite E4. left. reflexivity.
      * destruct (head_is 44 (skip_ws r3)) as [r4|] eqn:E5; [|discriminate].
        intros H. apply IHm in H. destruct H as (Hi & H125 & Ho).
        assert (H4 : Spec.leaves (skip_ws r4) s).
        { eapply leaves_tran; [apply skip_ws_leaves|].
          eapply leaves_tran; [eapply head_is_leaves; exact E5 | exact H3]. }
        split; [eapply leaves_tran; eauto|].
        split; [apply (proj1 H4); exact H125 | exact Ho].
    + intros s acc v r; simpl.
      destruct (scan_once f s) as [[v0 r1]|] eqn:E1; [|discriminate].
      pose proof (proj1 (IHo _ _ _ E1)) as H1.
      destruct (head_is 93 (skip_ws r1)) as [r2|] eqn:E2.
      * intros [= <- <-]. split; [|simpl; tauto].
        eapply leaves_tran; [eapply head_is_leaves; exact E2|].
        eapply leaves_tran; [apply skip_ws_leaves | exact H1].
      * destruct (head_is 44 (skip_ws r1)) as [r2|] eqn:E3; [|discriminate].
        intros H. apply IHe in H. destruct H as (Hi & Hn).
        split; [|exact Hn].
        eapply leaves_tran; [exact Hi|].
        eapply leaves_tran; [apply skip_ws_leaves|].
        eapply leaves_tran; [eapply head_is_leaves; exact E3|].
        eapply leaves_tran; [apply skip_ws_leaves | exact H1].
Qed.

(** More fuel changes nothing once there is more than twice the length
    of the input: no text is refused for want of fuel. *)
Lemma scan_fuel_enough (f : nat) :
  (forall s f', (2 * List.length s < f)%nat -> (f <= f')%nat ->
     scan_once f' s = scan_once f s)
  /\ (forall s acc f', (2 * List.length s + 1 < f)%nat -> (f <= f')%nat ->
        scan_members f' s acc = scan_members f s acc)
  /\ (forall s acc f', (2 * List.length s + 1 < f)%nat -> (f <= f')%nat ->
        scan_elements f' s acc = scan_elements f s acc).
Proof.
  induction f as [|g (IHo & IHm & IHe)].
  - repeat split; intros; lia.
  - split; [|split].
    + intros s [|g'] Hs Hf; [lia|].
      destruct s as [|c r]; [reflexivity|]. simpl in Hs.
      pose proof (proj2 (skip_ws_leaves r)) as Hw.
      cbn [scan_once].
      rewrite (IHm (skip_ws r) [] g') by lia.
      rewrite (IHe (skip_ws r) [] g') by lia.
      reflexivity.
    + intros s acc [|g'] Hs Hf; [lia|].
      cbn [scan_members].
      destruct (head_is 34 s) as [r0|] eqn:E0; [|reflexivity].
      destruct (scanstring r0 0 []) as [[k r1]|] eqn:E1; [|reflexivity].
      destruct (head_is 58 (skip_ws r1)) as [r2|] eqn:E2; [|reflexivity].
      assert (H2 : (List.length (skip_ws r2) <= List.length s)%nat).
      { pose proof (proj2 (skip_ws_leaves r2)).
        pose proof (proj2 (head_is_leaves _ _ E2)).
        pose proof (proj2 (skip_ws_leaves r1)).
        pose proof (proj2 (scanstring_leaves _ _ _ E1)).
        pose proof (proj2 (head_is_leaves _ _ E0)). lia. }
      rewrite (IHo (skip_ws r2) g') by lia.
      destruct (scan_once g (skip_ws r2)) as [[v r3]|] eqn:E3;
        [|reflexivity].
      destruct (head_is 125 (skip_ws r3)) as [r4|]; [reflexivity|].
      destruct (head_is 44 (skip_ws r3)) as [r4|] eqn:E5; [|reflexivity].
      apply IHm; [|lia].
      pose proof (proj2 (skip_ws_leaves r4)).
      apply head_is_some in E5.
      assert (List.length (skip_ws r3) = S (List.length r4))
        by (rewrite E5; reflexivity).
      pose proof (proj2 (skip_ws_leaves r3)).
      pose proof (proj2 (proj1 (proj1 (scan_props g) _ _ _ E3))). lia.
    + intros s acc [|g'] Hs Hf; [lia|].
      cbn [scan_elements].
      rewrite (IHo s g') by lia.
      destruct (scan_once g s) as [[v r1]|] eqn:E1; [|reflexivity].
      destruct (head_is 93 (skip_ws r1)) as [r2|]; [reflexivity|].
      destruct (head_is 44 (skip_ws r1)) as [r2|] eqn:E3; [|reflexivity].
      apply IHe; [|lia].
      pose proof (proj2 (skip_ws_leaves r2)).
      apply head_is_some in E3.
      assert (List.length (skip_ws r1) = S (List.length r2))
        by (rewrite E3; reflexivity).
      pose proof (proj2 (skip_ws_leaves r1)).
      pose proof (proj2 (proj1 (proj1 (scan_props g) _ _ _ E1))). lia.
Qed.

(** [json.loads] with any larger amount of fuel is [json_loads]. *)
Lemma json_loads_fuel (s : str) (f : nat) :
  (2 * List.length s < f)%nat ->
  scan_once f (skip_ws s) = scan_once (S (2 * List.length s)) (skip_ws s).
Proof.
  intros Hf. pose proof (proj2 (skip_ws_leaves s)) as Hw.
  apply (proj1 (scan_fuel_enough _)); lia.
Qed.

End Scanner.

(** ** C3: the Output Parser/Repairer *)

Section Recovery.

Local Open Scope N_scope.

Lemma json_ws_not_brace (c : char) :
  is_json_ws c = true -> char_eqb c 123 = false.
Proof.
  unfold is_json_ws. intros H.
  repeat (apply orb_true_iff in H; destruct H as [H | H]);
    apply char_eqb_eq in H; subst; reflexivity.
Qed.

Lemma contains_in (c : char) (s : str) : In c s -> contains c s = true.
Proof.
  intros H. unfold contains. apply existsb_exists. exists c.
  split; [exact H | apply char_eqb_eq; reflexivity].
Qed.

Lemma has_pair_skip_ws (s t : str) :
  skip_ws s = 123 :: t -> In 125 t -> Spec.has_pair s = true.
Proof.
  induction s as [|c s IH]; simpl; [discriminate|].
  destruct (is_json_ws c) eqn:E.
  - intros H1 H2. rewrite (json_ws_not_brace c E). auto.
  - intros [= -> ->] H2. simpl. apply contains_in. exact H2.
Qed.

(** A text that decodes to a mapping has an opening brace and a closing
    brace after it. *)
Lemma json_loads_obj_has_pair (s : str) (d : dict) :
  json_loads s = Some (JObj d) -> Spec.has_pair s = true.
Proof.
  unfold json_loads. destruct (startswith s [65279]); [discriminate|].
  destruct (scan_once _ (skip_ws s)) as [[v rest]|] eqn:E; [|discriminate].
  destruct (skip_ws rest); [|discriminate]. intros [= ->].
  destruct (proj1 (scan_props _) _ _ _ E) as [_ H].
  destruct (H I) as (t & Ht & H125).
  eapply has_pair_skip_ws; eauto.
Qed.

Lemma scan_once_brace (f : nat) (t : str) :
  scan_once (S f) (123 :: t)
  = match head_is 125 (skip_ws t) with
    | Some r => Some (JObj [], r)
    | None => scan_members f (skip_ws t) []
    end.
Proof. reflexivity. Qed.

(** A text that starts with an opening brace decodes to a mapping or not
    at all. *)
Lemma json_loads_brace_is_obj (t : str) (v : json) :
  json_loads (123 :: t) = Some v -> Spec.is_obj v.
Proof.
  unfold json_loads. simpl skip_ws. simpl startswith.
  rewrite scan_once_brace.
  destruct (head_is 125 (skip_ws t)) as [r|].
  - destruct (skip_ws r); [|discriminate]. intros [= <-]. exact I.
  - destruct (scan_members _ _ _) as [[v0 rest]|] eqn:E; [|discriminate].
    destruct (skip_ws rest); [|discriminate]. intros [= ->].
    apply (proj1 (proj2 (scan_props _))) in E. tauto.
Qed.

Lemma find_from_found (c : char) (s : str) (i : Z) :
  find_from c s i = (-1)%Z
  \/ exists n t, find_from c s i = (i + Z.of_nat n)%Z /\ skipn n s = c :: t.
Proof.
  revert i; induction s as [|x s IH]; intros i; simpl; [left; reflexivity|].
  destruct (char_eqb x c) eqn:E.
  - right. exists 0%nat, s. apply char_eqb_eq in E. subst.
    split; [simpl; lia | reflexivity].
  - destruct (IH (i + 1)%Z) as [H | (n & t & H1 & H2)]; [left; exact H|].
    right. exists (S n), t. split; [rewrite H1; lia | exact H2].
Qed.

Lemma rfind_from_bounds (c : char) (s : str) (i best : Z) :
  rfind_from c s i best = best \/ (i <= rfind_from c s i best)%Z.
Proof.
  revert i best; induction s as [|x s IH]; intros i best; simpl;
    [left; reflexivity|].
  destruct (IH (i + 1)%Z (if char_eqb x c then i else best)) as [H | H].
  - rewrite H. destruct (char_eqb x c); [right; lia | left; reflexivity].
  - right. lia.
Qed.

Lemma rfind_from_contains (c : char) (s : str) (i best : Z) :
  contains c s = true -> (i <= rfind_from c s i best)%Z.
Proof.
  revert i best; induction s as [|x s IH]; intros i best; simpl;
    [discriminate|].
  unfold contains in *. simpl.
  destruct (char_eqb c x) eqn:E.
  - intros _. apply char_eqb_eq in E. subst x.
    assert (Ec : char_eqb c c = true) by (apply char_eqb_eq; reflexivity).
    rewrite Ec.
    destruct (rfind_from_bounds c s (i + 1)%Z i) as [H | H]; lia.
  - simpl. intros H. specialize (IH (i + 1)%Z
                                   (if char_eqb x c then i else best) H).
    lia.
Qed.

Lemma has_pair_find (s : str) (i best : Z) :
  Spec.has_pair s = true ->
  (i <= find_from 123%N s i < rfind_from 125%N s i best)%Z.
Proof.
  revert i best; induction s as [|x s IH]; intros i best; simpl;
    [discriminate|].
  destruct (char_eqb x 123) eqn:E.
  - intros H. apply char_eqb_eq in E. subst x. simpl.
    pose proof (rfind_from_contains 125 s (i + 1)%Z best H). lia.
  - intros H.
    specialize (IH (i + 1)%Z (if char_eqb x 125 then i else best) H). lia.
Qed.

(** Step 3 takes the whole text only when no closing brace follows an
    opening one, and otherwise a text that starts with an opening brace. *)
Lemma brace_candidate_cases (txt : str) :
  (Spec.brace_candidate txt = txt /\ Spec.has_pair txt = false)
  \/ exists t, Spec.brace_candidate txt = 123 :: t.
Proof.
  unfold Spec.brace_candidate.
  destruct (negb (Z.eqb (find 123 txt) (-1)%Z) && _ && _) eqn:E.
  - right. apply andb_true_iff in E. destruct E as [E E3].
    apply andb_true_iff in E. destruct E as [E1 E2].
    apply negb_true_iff, Z.eqb_neq in E1. apply Z.ltb_lt in E3.
    unfold find in *.
    destruct (find_from_found 123 txt 0%Z) as [H | (n & t & H1 & H2)];
      [contradiction|].
    unfold slice. rewrite H1 in *. simpl Z.add.
    rewrite Nat2Z.id, H2.
    destruct (Z.to_nat (rfind 125 txt + 1 - Z.of_nat n)) eqn:En; [lia|].
    simpl. eauto.
  - left. split; [reflexivity|].
    destruct (Spec.has_pair txt) eqn:Hp; [|reflexivity].
    pose proof (has_pair_find txt 0%Z (-1)%Z Hp) as H.
    unfold find, rfind in E.
    assert (E1 : Z.eqb (find_from 123 txt 0%Z) (-1)%Z = false)
      by (apply Z.eqb_neq; lia).
    assert (E2 : Z.eqb (rfind_from 125 txt 0%Z (-1)%Z) (-1)%Z = false)
      by (apply Z.eqb_neq; lia).
    assert (E3 : Z.ltb (find_from 123 txt 0%Z) (rfind_from 125 txt 0%Z (-1)%Z)
                 = true) by (apply Z.ltb_lt; lia).
    rewrite E1, E2, E3 in E. discriminate.
Qed.

(** The repair pass only removes backslashes: it brings no brace. *)
Lemma repair_keeps_braces (n : nat) (s : str) :
  (List.length s <= n)%nat ->
  contains 125 (replace s ProcessBatch.escaped_quote ProcessBatch.quote)
  = contains 125 s
  /\ Spec.has_pair (replace s ProcessBatch.escaped_quote ProcessBatch.quote)
     = Spec.has_pair s.
Proof.
  unfold replace, ProcessBatch.escaped_quote, ProcessBatch.quote.
  revert s; induction n as [|n IH]; intros s Hn.
  - destruct s; [split; reflexivity | simpl in Hn; lia].
  - destruct s as [|c s]; [split; reflexivity|].
    cbn [replace_aux].
    destruct (startswith (c :: s) [92; 34]) eqn:E.
    + cbn [startswith] in E.
      apply andb_true_iff in E. destruct E as [Ec E].
      destruct s as [|d s']; [discriminate|].
      cbn [startswith] in E.
      apply andb_true_iff in E. destruct E as [Ed _].
      apply char_eqb_eq in Ec, Ed. subst c d.
      assert (Hs : (List.length s' <= n)%nat) by (simpl in Hn; lia).
      destruct (IH s' Hs) as [H1 H2].
      cbn [List.length pred replace_aux app].
      cbn [Spec.has_pair]. unfold contains in *. cbn [existsb].
      rewrite H1, H2. split; reflexivity.
    + assert (Hs : (List.length s <= n)%nat) by (simpl in Hn; lia).
      destruct (IH s Hs) as [H1 H2].
      cbn [Spec.has_pair]. unfold contains in *. cbn [existsb].
      rewrite H1, H2. split; reflexivity.
Qed.

(** When the candidate decodes to something that is not a mapping, the
    repair pass cannot give a mapping either: going on to it and
    returning none at once are the same. *)
Lemma other_shape_no_repair (txt : str) (v : json) :
  json_loads (Spec.brace_candidate txt) = Some v -> ~ Spec.is_obj v ->
  Spec.repair_parse (Spec.brace_candidate txt) = None.
Proof.
  intros Hl Hv.
  destruct (brace_candidate_cases txt) as [[E Hp] | [t E]].
  - rewrite E in *. unfold Spec.repair_parse.
    destruct (json_loads (replace txt _ _)) as [[| | | | | |d]|] eqn:Er;
      try reflexivity.
    apply json_loads_obj_has_pair in Er.
    destruct (@repair_keeps_braces (List.length txt) txt (le_n _))
      as [_ H].
    rewrite H in Er. congruence.
  - rewrite E in Hl. apply json_loads_brace_is_obj in Hl. contradiction.
Qed.

Lemma extract_json_is_recover (content : str) :
  ProcessBatch._extract_json_from_content (JStr content)
  = Return (Spec.recover Spec.strip_fence_three_lines content).
Proof.
  unfold ProcessBatch._extract_json_from_content, Spec.recover.
  destruct content as [|c0 content]; [reflexivity|].
  cbn [truthy negb].
  change (ProcessBatch.json_candidate (c0 :: content))
    with (Spec.brace_candidate
            (Spec.strip_fence_three_lines (strip (c0 :: content)))).
  set (txt := Spec.strip_fence_three_lines (strip (c0 :: content))).
  unfold Spec.strict_parse.
  destruct (json_loads (Spec.brace_candidate txt)) as [v|] eqn:El.
  - pose proof (other_shape_no_repair txt El) as Hr.
    destruct v as [| | | | |[|[] l]|]; try reflexivity;
      rewrite Hr by (simpl; tauto); reflexivity.
  - unfold Spec.repair_parse.
    destruct (json_loads (replace _ _ _)) as [[]|]; reflexivity.
Qed.

End Recovery.

(** C3, as stated, fails: a text of two lines that starts and ends with a
    fence keeps both lines, and the object between the braces is
    returned, where dropping the first and the last line leaves nothing
    to parse. *)
Lemma C3_two_line_fence_not_stripped :
  let text := lit "```json" ++ nl ++ q "{'a':1}```" in
  ProcessBatch._extract_json_from_content (JStr text)
  = Return (JObj [(lit "a", JInt 1)])
  /\ Spec.recover Spec.strip_fence_always text = JNull.
Proof. vm_compute. split; reflexivity. Qed.

(** C3, amended: the parser returns none for empty or null input; it
    strips the text and, when the text starts and ends with the fence and
    has three lines or more, drops its first and last line; it takes the
    text from the first opening brace to the last closing brace when the
    last follows the first, else the whole text; a strict parse that
    gives a mapping, or a non-empty list whose first element is a
    mapping, gives the result; on any other outcome the repair pass
    (escaped quotes replaced by quotes) gives the result when it yields a
    mapping, and none otherwise.  The three test vectors hold. *)
Theorem C3_parser_follows_procedure :
  forall content : str,
    ProcessBatch._extract_json_from_content (JStr content)
    = Return (Spec.recover Spec.strip_fence_three_lines content)
    /\ ProcessBatch._extract_json_from_content JNull = Return JNull
    /\ ProcessBatch._extract_json_from_content (JStr []) = Return JNull
    /\ ProcessBatch._extract_json_from_content
         (JStr (lit "```" ++ nl ++ q "{'a':1}" ++ nl ++ lit "```"))
       = Return (JObj [(lit "a", JInt 1)])
    /\ ProcessBatch._extract_json_from_content
         (JStr (q "prefix text {'a':1,'b':[1,2]} trailing"))
       = Return (JObj [(lit "a", JInt 1); (lit "b", JArr [JInt 1; JInt 2])])
    /\ ProcessBatch._extract_json_from_content
         (JStr (lit "unparsable garble, no braces"))
       = Return JNull.
Proof.
  intros content. split; [apply extract_json_is_recover|].
  repeat split; vm_compute; reflexivity.
Qed.

(** * Further properties of the code *)

(** ** Rows of the batch output processor *)

Section Rows.
Context {rt : Runtime}.
Import ProcessBatch.

Lemma fold_left_pointwise (A B : Type) (f g : A -> B -> A) (l : list B)
  (a : A) :
  (forall x y, f x y = g x y) -> fold_left f l a = fold_left g l a.
Proof.
  intros H. revert a; induction l as [|y l IH]; intros a; simpl;
    [reflexivity | rewrite H; apply IH].
Qed.

Lemma parsed_row_comprehension (header : list str) (parsed : dict) :
  parsed_row header parsed
  = dict_comprehension header (Cover.stored_value parsed).
Proof.
  unfold parsed_row, dict_comprehension. apply fold_left_pointwise.
  intros row col. unfold Cover.stored_value.
  destruct (_value_for_header (Some parsed) col); reflexivity.
Qed.

Lemma safe_cell_stored (parsed : dict) (col : str) :
  safe_cell (Cover.stored_value parsed col)
  = safe_cell (_value_for_header (Some parsed) col).
Proof.
  unfold Cover.stored_value.
  destruct (_value_for_header (Some parsed) col); reflexivity.
Qed.

Lemma safe_cell_scalar (v : json) : Cover.is_scalar (safe_cell v).
Proof. destruct v; simpl; auto. Qed.

Lemma dict_set_values (Q : json -> Prop) (d : dict) (k : str) (v : json) :
  Forall (fun kv => Q (snd kv)) d -> Q v ->
  Forall (fun kv => Q (snd kv)) (dict_set d k v).
Proof.
  intros Hd Hv. induction d as [|[k0 v0] d IH]; simpl.
  - constructor; [exact Hv | constructor].
  - inversion Hd; subst. destruct (str_eqb k0 k); constructor; auto.
Qed.

Lemma dict_comprehension_values (Q : json -> Prop) (f : str -> json)
  (cols : list str) :
  (forall c, Q (f c)) ->
  Forall (fun kv => Q (snd kv)) (dict_comprehension cols f).
Proof.
  intros Hf. unfold dict_comprehension.
  assert (H : forall d, Forall (fun kv => Q (snd kv)) d ->
            Forall (fun kv => Q (snd kv))
              (fold_left (fun d c => dict_set d c (f c)) cols d)).
  { induction cols as [|c cols IH]; intros d Hd; simpl; [exact Hd|].
    apply IH. apply dict_set_values; auto. }
  apply H. constructor.
Qed.

Lemma keys_dict_set_new (d : dict) (k : str) (v : json) :
  ~ In k (keys d) -> keys (dict_set d k v) = keys d ++ [k].
Proof.
  induction d as [|[k0 v0] d IH]; simpl; intros H; [reflexivity|].
  destruct (str_eqb k0 k) eqn:E.
  - apply str_eqb_eq in E. subst. exfalso. apply H. left. reflexivity.
  - simpl. rewrite IH; [reflexivity|]. intros Hin. apply H. right. exact Hin.
Qed.

Lemma keys_fold_set_nodup (f : str -> json) (cols : list str) (d : dict) :
  NoDup (keys d ++ cols) ->
  keys (fold_left (fun d c => dict_set d c (f c)) cols d) = keys d ++ cols.
Proof.
  revert d; induction cols as [|c cols IH]; intros d H; simpl.
  - rewrite app_nil_r. reflexivity.
  - assert (Hc : ~ In c (keys d)).
    { intros Hin. apply NoDup_remove_2 in H. apply H.
      apply in_or_app. left. exact Hin. }
    rewrite IH; rewrite keys_dict_set_new by exact Hc.
    + rewrite <- app_assoc. reflexivity.
    + rewrite <- app_assoc. exact H.
Qed.

Lemma for_each_safe_lines (header : list str) (lines : list str) :
  forallb (Cover.line_is_safe header) lines = true ->
  forall s, fst (for_each lines (process_line header) s) = Return tt.
Proof.
  induction lines as [|line lines IH]; intros Hs s; [reflexivity|].
  simpl in Hs. apply andb_true_iff in Hs. destruct Hs as [Hl Hs].
  simpl. unfold bind.
  assert (H1 : fst (process_line header line s) = Return tt).
  { pose proof (process_line_cases header line s) as Hc.
    unfold Cover.line_is_safe in Hl.
    destruct (strip line) as [|c l] eqn:Es.
    - destruct (process_line header line s) as [o s1].
      destruct Hc as [_ [(_ & -> & _) | [(Hj & _) | (Hj & _)]]];
        try reflexivity;
        unfold Spec.is_json_line in Hj; rewrite Es in Hj; discriminate.
    - destruct (json_loads (c :: l)) as [obj|] eqn:El.
      + apply andb_true_iff in Hl. destruct Hl as [Hl Hc3].
        apply andb_true_iff in Hl. destruct Hl as [Hc1 Hc2].
        assert (Hid : correlation_id obj <> None)
          by (destruct (correlation_id obj); [discriminate|discriminate]).
        assert (Hct : match _extract_content_from_line obj with
                      | JStr _ => True
                      | v => truthy v = false
                      end).
        { destruct (_extract_content_from_line obj); try exact I;
            apply negb_true_iff in Hc1; exact Hc1. }
        rewrite <- Es in El.
        destruct (process_line_returns header line s El Hct Hid)
          as (s' & -> & _). rewrite Hc3. reflexivity.
      + destruct (process_line header line s) as [o s1].
        destruct Hc as [_ [(_ & -> & _) | [(Hj & _) | (Hj & _)]]];
          try reflexivity;
          unfold Spec.is_json_line in Hj; rewrite Es, El in Hj;
          discriminate. }
  destruct (process_line header line s) as [o s1]. simpl in H1. subst o.
  apply IH. exact Hs.
Qed.

End Rows.

(** X1: in the row of a parsed mapping, the cell of every Schema column
    is the coerced value the mapper resolves for the column: a list or a
    mapping serialized once, a boolean as "true" or "false", null as the
    empty string, anything else as it is. *)
Theorem X1_normal_row_cells :
  forall (rt : Runtime) (header : list str) (parsed : dict) (col : str),
    existsb (str_eqb col) header = true ->
    dict_get
      (ProcessBatch.safe_row header (ProcessBatch.parsed_row header parsed))
      col
    = ProcessBatch.safe_cell
        (ProcessBatch._value_for_header (Some parsed) col).
Proof.
  intros rt header parsed col Hc. unfold ProcessBatch.safe_row.
  rewrite dict_get_comprehension, Hc, dict_get_fill_missing.
  rewrite parsed_row_comprehension, dict_get_comprehension, Hc.
  apply safe_cell_stored.
Qed.

Lemma X1_normal_row_cells_witness :
  dict_get
    (@ProcessBatch.safe_row Spec.ascii_runtime [lit "name"; lit "claims"]
       (@ProcessBatch.parsed_row Spec.ascii_runtime
          [lit "name"; lit "claims"]
          [(lit "Name", JStr (lit "oil")); (lit "claims", JArr [])]))
    (lit "claims")
  = @ProcessBatch.safe_cell Spec.ascii_runtime
      (@ProcessBatch._value_for_header Spec.ascii_runtime
         (Some [(lit "Name", JStr (lit "oil")); (lit "claims", JArr [])])
         (lit "claims")).
Proof.
  apply (@X1_normal_row_cells Spec.ascii_runtime). vm_compute. reflexivity.
Defined.

(** X2: whatever the batch file holds and however the run ends, no cell
    handed to the CSV writer is null, a boolean, a list or a mapping:
    every cell is a string or a number. *)
Theorem X2_written_cells_are_scalars :
  forall (rt : Runtime) (header : list str) (lines : list str),
    Forall
      (fun row : dict => Forall (fun kv => Cover.is_scalar (snd kv)) row)
      (ProcessBatch.rows
         (snd (ProcessBatch.process_batch_jsonl_to_csv header lines
                 ProcessBatch.initial))).
Proof.
  intros rt header lines.
  pose proof (process_batch_run header lines) as R.
  destruct (ProcessBatch.process_batch_jsonl_to_csv header lines
              ProcessBatch.initial) as [o s']. simpl.
  destruct R as (_ & Hall & _).
  eapply Forall_impl; [|exact Hall].
  intros r [row ->]. unfold ProcessBatch.safe_row.
  apply dict_comprehension_values. intros c. apply safe_cell_scalar.
Qed.

(** X3: when the template header has no repeated column, the keys of every
    written row are the header's columns in the header's order. *)
Theorem X3_row_columns_in_header_order :
  forall (rt : Runtime) (header : list str) (row : dict),
    NoDup header -> keys (ProcessBatch.safe_row header row) = header.
Proof.
  intros rt header row H. unfold ProcessBatch.safe_row, dict_comprehension.
  rewrite keys_fold_set_nodup; [reflexivity | exact H].
Qed.

Lemma X3_row_columns_in_header_order_witness :
  keys (@ProcessBatch.safe_row Spec.ascii_runtime
          [lit "product ID"; lit "name"] [(lit "name", JNull)])
  = [lit "product ID"; lit "name"].
Proof.
  apply (@X3_row_columns_in_header_order Spec.ascii_runtime).
  constructor; [|constructor; [|constructor]]; simpl;
    intuition discriminate.
Defined.

(** X4: in the row written for a placeholder, every Schema column is the
    empty string, except "product ID", which holds the coerced
    correlation id when the id is not empty. *)
Theorem X4_placeholder_row_cells :
  forall (rt : Runtime) (header : list str) (cid : json) (col : str),
    existsb (str_eqb col) header = true ->
    dict_get
      (ProcessBatch.safe_row header (ProcessBatch.placeholder_row header cid))
      col
    = if str_eqb col (lit "product ID") && truthy cid
      then ProcessBatch.safe_cell cid else JStr [].
Proof. intros rt header cid col H. apply placeholder_cells. exact H. Qed.

Lemma X4_placeholder_row_cells_witness :
  dict_get
    (@ProcessBatch.safe_row Spec.ascii_runtime
       [lit "product ID"; lit "name"]
       (ProcessBatch.placeholder_row [lit "product ID"; lit "name"]
          (JStr (lit "task-7"))))
    (lit "product ID")
  = if str_eqb (lit "product ID") (lit "product ID")
       && truthy (JStr (lit "task-7"))
    then @ProcessBatch.safe_cell Spec.ascii_runtime (JStr (lit "task-7"))
    else JStr [].
Proof.
  apply (@X4_placeholder_row_cells Spec.ascii_runtime).
  vm_compute. reflexivity.
Defined.

(** X5: a batch file in which every line is blank, undecodable, or an
    object whose content is a string or missing, whose correlation id can
    be read and whose row, normal or placeholder, has no cell with a
    surrogate in it, is processed to the end: the run does not raise. *)
Theorem X5_safe_lines_run_to_the_end :
  forall (rt : Runtime) (header : list str) (lines : list str),
    forallb (Cover.line_is_safe header) lines = true ->
    fst (ProcessBatch.process_batch_jsonl_to_csv header lines
           ProcessBatch.initial)
    = Return tt.
Proof.
  intros rt header lines H. unfold ProcessBatch.process_batch_jsonl_to_csv.
  unfold bind at 1.
  pose proof (for_each_safe_lines header lines H ProcessBatch.initial) as Hf.
  destruct (for_each lines (ProcessBatch.process_line header)
              ProcessBatch.initial) as [o s1].
  simpl in Hf. subst o. reflexivity.
Qed.

Lemma X5_safe_lines_run_to_the_end_witness :
  fst (@ProcessBatch.process_batch_jsonl_to_csv Spec.ascii_runtime
         [lit "product ID"; lit "name"]
         [lit "not json"; lit "   "; q "{'custom_id':'task-0'}";
          q "{'custom_id':'t1','content':'{\'name\':\'oil\'}'}"]
         ProcessBatch.initial)
  = Return tt.
Proof.
  apply (@X5_safe_lines_run_to_the_end Spec.ascii_runtime).
  vm_compute. reflexivity.
Defined.

Section MappingContent.
Context {rt : Runtime}.
Import ProcessBatch.

Lemma content_as_dict_is_content (obj : json) (e : str * json) (d : dict) :
  content_as_dict obj = Some (JObj (e :: d)) ->
  _extract_content_from_line obj = JObj (e :: d).
Proof.
  unfold content_as_dict, _extract_content_from_line, content_from_line_body.
  destruct (attr_get obj "response") as [r|]; [|discriminate].
  destruct (attr_get (r ||| JObj []) "body") as [b|]; [|discriminate].
  destruct (attr_get (b ||| JObj []) "choices") as [c|]; [|discriminate].
  destruct (c ||| JArr []) as [| | | | |[|first l]|]; try discriminate.
  destruct (attr_get first "message") as [m|]; [|discriminate].
  destruct (attr_get (m ||| JObj []) "content") as [[| | | | | |cont]|];
    try discriminate.
  intros [= ->]. reflexivity.
Qed.

End MappingContent.

(** X6: a decoded line whose message content is already a mapping (not
    empty) stops the run: the content is handed to the text parser, whose
    [strip] raises, before the branch written for such a content is
    reached; the line is counted and nothing is written. *)
Theorem X6_mapping_content_raises :
  forall (rt : Runtime) (header : list str) (line : str) (obj : json)
         (e : str * json) (d : dict) (s : ProcessBatch.state),
    json_loads (strip line) = Some obj ->
    ProcessBatch.content_as_dict obj = Some (JObj (e :: d)) ->
    ProcessBatch.process_line header line s
    = (Raised, ProcessBatch.count_line s).
Proof.
  intros rt header line obj e d s Hl Hc.
  apply content_as_dict_is_content in Hc.
  unfold ProcessBatch.process_line.
  destruct (strip line) as [|c l]; [discriminate|].
  rewrite Hl. unfold bind at 1 2. unfold modify at 1.
  unfold ProcessBatch.parsed_object. rewrite Hc. reflexivity.
Qed.

Lemma X6_mapping_content_raises_witness :
  @ProcessBatch.process_line Spec.ascii_runtime [lit "name"]
    (q "{'response':{'body':{'choices':[{'message':{'content':{'a':1}}}]}}}")
    ProcessBatch.initial
  = (Raised, ProcessBatch.count_line ProcessBatch.initial).
Proof.
  eapply (@X6_mapping_content_raises Spec.ascii_runtime);
    vm_compute; reflexivity.
Defined.

(** ** The loader *)

Section DistinctKeys.
Local Open Scope N_scope.

Lemma distinct_keys_arr (l : list json) :
  Cover.distinct_keys (JArr l) <-> Forall Cover.distinct_keys l.
Proof.
  induction l as [|x l IH]; simpl.
  - split; [constructor | trivial].
  - simpl in IH. split.
    + intros [Hx Hl]. constructor; [exact Hx | apply IH; exact Hl].
    + intros H. inversion H; subst. split; [assumption | apply IH; assumption].
Qed.

Lemma distinct_keys_values (d : dict) :
  (fix all (d : list (str * json)) : Prop :=
     match d with
     | [] => True
     | (_, x) :: r => Cover.distinct_keys x /\ all r
     end) d
  <-> Forall (fun kv => Cover.distinct_keys (snd kv)) d.
Proof.
  induction d as [|[k x] d IH].
  - split; [constructor | trivial].
  - split.
    + intros [Hx Hl]. constructor; [exact Hx | apply IH; exact Hl].
    + intros H. inversion H; subst. split; [assumption | apply IH; assumption].
Qed.

Lemma distinct_keys_obj (d : dict) :
  Cover.distinct_keys (JObj d)
  <-> NoDup (keys d) /\ Forall (fun kv => Cover.distinct_keys (snd kv)) d.
Proof.
  simpl. rewrite distinct_keys_values. reflexivity.
Qed.

Lemma dict_mem_in (d : dict) (k : str) :
  dict_mem d k = true <-> In k (keys d).
Proof.
  induction d as [|[k' v] d IH]; simpl.
  - split; [discriminate | tauto].
  - rewrite Bool.orb_true_iff, IH, str_eqb_eq. tauto.
Qed.

Lemma keys_dict_set_old (d : dict) (k : str) (v : json) :
  In k (keys d) -> keys (dict_set d k v) = keys d.
Proof.
  induction d as [|[k' v'] d IH]; simpl; [tauto|].
  intros H. destruct (str_eqb k' k) eqn:E; [reflexivity|].
  simpl. f_equal. apply IH. destruct H as [H|H]; [|exact H].
  subst k'. rewrite str_eqb_refl in E. discriminate.
Qed.

Lemma dict_set_nodup (d : dict) (k : str) (v : json) :
  NoDup (keys d) -> NoDup (keys (dict_set d k v)).
Proof.
  intros H. destruct (dict_mem d k) eqn:E.
  - rewrite keys_dict_set_old; [exact H | apply dict_mem_in; exact E].
  - assert (Hn : ~ In k (keys d)).
    { intros Hi. apply dict_mem_in in Hi. congruence. }
    induction d as [|[k' v'] d IH]; simpl.
    + constructor; [tauto | constructor].
    + simpl in *. apply Bool.orb_false_iff in E. destruct E as [E1 E2].
      rewrite E1. simpl. inversion H; subst. constructor.
      * rewrite keys_dict_set. intros [->|Hi]; [|contradiction].
        rewrite str_eqb_refl in E1. discriminate.
      * apply IH; [assumption | exact E2 | tauto].
Qed.

Lemma dict_set_distinct (d : dict) (k : str) (v : json) :
  Cover.distinct_keys (JObj d) -> Cover.distinct_keys v ->
  Cover.distinct_keys (JObj (dict_set d k v)).
Proof.
  rewrite !distinct_keys_obj. intros [Hn Hv] Hx. split.
  - apply dict_set_nodup; exact Hn.
  - induction d as [|[k' v'] d IH]; simpl.
    + constructor; [exact Hx | constructor].
    + inversion Hv; subst. inversion Hn; subst.
      destruct (str_eqb k' k); constructor; simpl; auto.
Qed.

Lemma scan_number_distinct (s : str) (v : json) (r : str) :
  scan_number s = Some (v, r) -> Cover.distinct_keys v.
Proof.
  unfold scan_number.
  destruct (match head_is _ s with Some r0 => _ | None => _ end)
    as [neg [|c r1]]; [discriminate|].
  destruct (is_digit c); [|discriminate].
  destruct (if char_eqb c _ then _ else _) as [ip r2].
  destruct (scan_fraction r2) as [fp r3].
  destruct (scan_exponent r3) as [ex r4].
  destruct fp, ex; intros [= <- <-]; exact I.
Qed.

Lemma scan_constant_distinct (s : str) (v : json) (r : str) :
  scan_constant s = Some (v, r) -> Cover.distinct_keys v.
Proof.
  unfold scan_constant.
  pose proof (scan_number_distinct s) as Hn.
  destruct (scan_number s) as [[v0 r0]|].
  - repeat match goal with
           | |- context [after_prefix ?p s] => destruct (after_prefix p s)
           end;
      intros [= <- <-]; try exact I. eapply Hn. reflexivity.
  - repeat match goal with
           | |- context [after_prefix ?p s] => destruct (after_prefix p s)
           end;
      try discriminate; intros [= <- <-]; exact I.
Qed.

Lemma scan_distinct (fuel : nat) :
  (forall s v r, scan_once fuel s = Some (v, r) -> Cover.distinct_keys v)
  /\ (forall s acc v r,
         scan_members fuel s acc = Some (v, r) ->
         Cover.distinct_keys (JObj acc) -> Cover.distinct_keys v)
  /\ (forall s acc v r,
         scan_elements fuel s acc = Some (v, r) ->
         Forall Cover.distinct_keys acc -> Cover.distinct_keys v).
Proof.
  induction fuel as [|f (IHo & IHm & IHe)].
  - repeat split; discriminate.
  - split; [|split].
    + intros [|c s] v r; simpl; [discriminate|].
      destruct (char_eqb c 34).
      { destruct (scanstring s 0%nat []) as [[t r']|]; [|discriminate].
        intros [= <- <-]. exact I. }
      destruct (char_eqb c 123).
      { destruct (head_is 125%N (skip_ws s)) as [r'|].
        - intros [= <- <-]. simpl. split; [constructor | exact I].
        - intros H. eapply IHm; [exact H|].
          simpl. split; [constructor | exact I]. }
      destruct (char_eqb c 91).
      { destruct (head_is 93%N (skip_ws s)) as [r'|].
        - intros [= <- <-]. exact I.
        - intros H. eapply IHe; [exact H | constructor]. }
      apply scan_constant_distinct.
    + intros s acc v r; simpl.
      destruct (head_is 34%N s) as [r0|]; [|discriminate].
      destruct (scanstring r0 0%nat []) as [[k r1]|]; [|discriminate].
      destruct (head_is 58%N (skip_ws r1)) as [r2|]; [|discriminate].
      destruct (scan_once f (skip_ws r2)) as [[v0 r3]|] eqn:E3;
        [|discriminate].
      intros H Hacc.
      assert (Hs : Cover.distinct_keys (JObj (dict_set acc k v0))).
      { apply dict_set_distinct; [exact Hacc | eapply IHo; exact E3]. }
      destruct (head_is 125%N (skip_ws r3)) as [r4|].
      * injection H as <- <-. exact Hs.
      * destruct (head_is 44%N (skip_ws r3)) as [r4|]; [|discriminate].
        eapply IHm; [exact H | exact Hs].
    + intros s acc v r; simpl.
      destruct (scan_once f s) as [[v0 r1]|] eqn:E1; [|discriminate].
      intros H Hacc.
      assert (Hs : Forall Cover.distinct_keys (v0 :: acc)).
      { constructor; [eapply IHo; exact E1 | exact Hacc]. }
      destruct (head_is 93%N (skip_ws r1)) as [r2|].
      * injection H as <- <-. apply distinct_keys_arr.
        apply (Forall_rev Hs).
      * destruct (head_is 44%N (skip_ws r1)) as [r2|]; [|discriminate].
        eapply IHe; [exact H | exact Hs].
Qed.

(** A decoded value has no mapping with a key twice: the decoder stores
    each member with [dict_set]. *)
Lemma json_loads_distinct (s : str) (v : json) :
  json_loads s = Some v -> Cover.distinct_keys v.
Proof.
  unfold json_loads. destruct (startswith s [65279%N]); [discriminate|].
  destruct (scan_once _ _) as [[v0 rest]|] eqn:E; [|discriminate].
  destruct (skip_ws rest); [|discriminate].
  intros [= <-]. eapply (proj1 (scan_distinct _)); exact E.
Qed.

Lemma dict_del_absent (d : dict) (k : str) :
  NoDup (keys d) -> dict_mem (dict_del d k) k = false.
Proof.
  induction d as [|[k' v] d IH]; simpl; [reflexivity|].
  intros H. inversion H; subst.
  destruct (str_eqb k' k) eqn:E.
  - apply str_eqb_eq in E; subst k'.
    destruct (dict_mem d k) eqn:Em; [|reflexivity].
    apply dict_mem_in in Em. contradiction.
  - simpl. rewrite E. apply IH. assumption.
Qed.

End DistinctKeys.

Section Loader.
Context {rt : Runtime}.
Import Normalize.
Local Open Scope N_scope.

Lemma prepare_items_mappings (ds : list dict) (tail : list json) :
  prepare_items (map JObj ds ++ tail)
  = prepare_items (map JObj ds) ++ prepare_items tail.
Proof.
  induction ds as [|d ds IH]; simpl; [reflexivity|].
  rewrite IH. reflexivity.
Qed.

Lemma prepare_items_length (ds : list dict) :
  List.length (prepare_items (map JObj ds)) = List.length ds.
Proof.
  induction ds as [|d ds IH]; simpl; [reflexivity|].
  rewrite IH. reflexivity.
Qed.

Lemma safe_load_distinct (text : str) :
  Forall Cover.distinct_keys (safe_load_json_file text).
Proof.
  unfold safe_load_json_file.
  destruct (json_loads text) as [v|] eqn:E.
  - apply json_loads_distinct in E.
    destruct v; try constructor.
    + apply distinct_keys_arr. exact E.
    + exact E.
    + constructor.
  - induction (splitlines text) as [|ln lns IH]; simpl; [constructor|].
    apply Forall_app. split; [|exact IH].
    destruct (strip ln) as [|c l] eqn:Es; [constructor|].
    destruct (json_loads (c :: l)) as [o|] eqn:Eo; [|constructor].
    constructor; [|constructor]. eapply json_loads_distinct; exact Eo.
Qed.

Lemma extract_review_count (record : dict) :
  dict_get (extract_deterministic_fields record) (lit "review_count")
  = getk record "review_count" ||| getk record "reviews" ||| JNull.
Proof.
  unfold extract_deterministic_fields.
  destruct (extract_price record _) as [out4 currency].
  repeat (rewrite dict_get_set_other by reflexivity).
  apply dict_get_set_same.
Qed.

Lemma prepare_items_no_reviews (items : list json) :
  Forall Cover.distinct_keys items ->
  Forall
    (fun '(det, raw) =>
       dict_mem raw (lit "reviews") = false
       /\ det = extract_deterministic_fields raw
       /\ dict_get det (lit "review_count")
          = getk raw "review_count" ||| JNull)
    (prepare_items items).
Proof.
  induction items as [|it items IH]; simpl; [constructor|].
  intros H. inversion H as [|? ? Hit Hitems]; subst.
  destruct it; try constructor; [|apply IH; exact Hitems].
  apply distinct_keys_obj in Hit. destruct Hit as [Hn _].
  set (raw := if dict_mem d (lit "reviews")
              then dict_del d (lit "reviews") else d).
  assert (Hm : dict_mem raw (lit "reviews") = false).
  { subst raw. destruct (dict_mem d (lit "reviews")) eqn:E;
      [apply dict_del_absent; exact Hn | exact E]. }
  split; [exact Hm|]. split; [reflexivity|].
  rewrite extract_review_count.
  assert (Hr : getk raw "reviews" = JNull).
  { unfold getk, dict_get. rewrite (dict_mem_false _ _ Hm). reflexivity. }
  rewrite Hr. unfold py_or.
  destruct (truthy (getk raw "review_count")) eqn:E; simpl; rewrite ?E;
    reflexivity.
Qed.

End Loader.

(** X7: when the text of a file decodes to a list, the items before the
    first one that is not a mapping give one record each and the rest of
    the file is dropped, whatever it holds. *)
Theorem X7_rest_of_file_dropped_after_bad_item :
  forall (rt : Runtime) (text : str) (ds : list dict) (bad : json)
         (rest : list json),
    json_loads text = Some (JArr (map JObj ds ++ bad :: rest)) ->
    (forall d, bad <> JObj d) ->
    Normalize.collect_records [Some text]
    = Normalize.prepare_items (map JObj ds)
    /\ List.length (Normalize.collect_records [Some text]) = List.length ds.
Proof.
  intros rt text ds bad rest Ht Hbad.
  assert (E : Normalize.collect_records [Some text]
              = Normalize.prepare_items (map JObj ds)).
  { unfold Normalize.collect_records, Normalize.safe_load_json_file.
    simpl. rewrite Ht, app_nil_r, prepare_items_mappings.
    destruct bad; simpl; try apply app_nil_r.
    exfalso. eapply Hbad. reflexivity. }
  split; [exact E|]. rewrite E. apply prepare_items_length.
Qed.

Lemma X7_rest_of_file_dropped_after_bad_item_witness :
  @Normalize.collect_records Spec.ascii_runtime
    [Some (q "[{'title':'oil'},5,{'title':'soap'}]")]
  = @Normalize.prepare_items Spec.ascii_runtime
      (map JObj [[(lit "title", JStr (lit "oil"))]])
  /\ List.length
       (@Normalize.collect_records Spec.ascii_runtime
          [Some (q "[{'title':'oil'},5,{'title':'soap'}]")])
     = List.length [[(lit "title", JStr (lit "oil"))]].
Proof.
  apply (@X7_rest_of_file_dropped_after_bad_item Spec.ascii_runtime
           (q "[{'title':'oil'},5,{'title':'soap'}]")
           [[(lit "title", JStr (lit "oil"))]] (JInt 5)
           [JObj [(lit "title", JStr (lit "soap"))]]).
  - vm_compute. reflexivity.
  - intros d. discriminate.
Defined.

(** X8: no record the loader hands on has a "reviews" key, its first
    component is the extraction of its second, and so its review count is
    the record's own "review_count" or null: the fallback to "reviews" in
    the extractor never applies to a loaded record. *)
Theorem X8_loaded_records_have_no_reviews :
  forall (rt : Runtime) (files : list (option str)),
    Forall
      (fun '(det, raw) =>
         dict_mem raw (lit "reviews") = false
         /\ det = Normalize.extract_deterministic_fields raw
         /\ dict_get det (lit "review_count")
            = getk raw "review_count" ||| JNull)
      (Normalize.collect_records files).
Proof.
  intros rt files. unfold Normalize.collect_records.
  induction files as [|[text|] files IH]; simpl.
  - constructor.
  - apply Forall_app. split; [|exact IH].
    apply prepare_items_no_reviews. apply safe_load_distinct.
  - exact IH.
Qed.

(** ** The extractor *)

Ltac in_inputs :=
  unfold Cover.extractor_inputs; cbn [map In];
  repeat (first [left; reflexivity | right]).

Section ExtractorFields.
Context {rt : Runtime}.
Import Normalize.
Local Open Scope N_scope.

Lemma or_null_truthy (a : json) :
  a ||| JNull = JNull \/ truthy (a ||| JNull) = true.
Proof.
  unfold py_or. destruct (truthy a) eqn:E; [right; exact E | left; reflexivity].
Qed.

(** The price step inside the extractor: it starts from a dictionary
    without ["price"], and the two fields are read off its result. *)
Lemma extract_price_fields (record : dict) :
  exists out3 : dict,
    dict_lookup out3 (lit "price") = None
    /\ dict_lookup (extract_deterministic_fields record) (lit "price")
       = dict_lookup (fst (extract_price record out3)) (lit "price")
    /\ dict_get (extract_deterministic_fields record) (lit "currency")
       = snd (extract_price record out3) ||| JNull.
Proof.
  unfold extract_deterministic_fields.
  set (url := getk record "url" ||| _ ||| _ ||| _).
  set (out3 := dict_set (if truthy url then _ else _) (lit "title") _).
  exists out3. split; [subst out3; destruct (truthy url); reflexivity|].
  destruct (extract_price record out3) as [out4 currency]. simpl. split.
  - repeat (rewrite dict_lookup_set_other by reflexivity). reflexivity.
  - repeat (rewrite dict_get_set_other by reflexivity).
    apply dict_get_set_same.
Qed.

Lemma search_iso_upper (prev_word : bool) (s code : str) :
  search_iso prev_word s = Some code ->
  exists a b c,
    code = [a; b; c] /\ is_upper a && is_upper b && is_upper c = true.
Proof.
  revert prev_word; induction s as [|a s IH]; intros prev_word; simpl;
    [discriminate|].
  destruct s as [|b [|c rest]]; simpl.
  - discriminate.
  - destruct (is_word a); simpl; discriminate.
  - destruct (negb prev_word && is_upper a && is_upper b && is_upper c && _)
      eqn:E.
    + intros [= <-]. exists a, b, c. split; [reflexivity|].
      apply Bool.andb_true_iff in E. destruct E as [E _].
      apply Bool.andb_true_iff in E. destruct E as [E Hc].
      apply Bool.andb_true_iff in E. destruct E as [E Hb].
      apply Bool.andb_true_iff in E. destruct E as [_ Ha].
      rewrite Ha, Hb, Hc. reflexivity.
    + apply IH.
Qed.

Lemma symbol_map_upper (sym : char) :
  symbol_map sym = JNull
  \/ exists a b c,
       symbol_map sym = JStr [a; b; c]
       /\ is_upper a && is_upper b && is_upper c = true.
Proof.
  unfold symbol_map.
  repeat match goal with
         | |- context [char_eqb sym ?c] => destruct (char_eqb sym c)
         end;
    try (right; do 3 eexists; split; reflexivity).
  left. reflexivity.
Qed.

(** *** The number matched in a string without commas is read by [float] *)

Lemma replace_no_comma (s : str) : ~ In 44 (replace s (lit ",") []).
Proof.
  unfold replace. change (lit ",") with [44].
  induction s as [|c r IH]; [simpl; tauto|].
  cbn [replace_aux List.length pred].
  assert (Er : startswith (c :: r) [44] = char_eqb 44 c).
  { simpl. destruct r; apply Bool.andb_true_r. }
  rewrite Er.
  destruct (char_eqb 44 c) eqn:E; [exact IH|].
  intros [H|H]; [|contradiction].
  subst c. discriminate.
Qed.

Lemma digit_props (d : char) :
  is_digit d = true ->
  is_c_space d = false /\ is_sign d = false /\ is_ascii d = true
  /\ char_eqb d 95 = false /\ char_eqb d 46 = false
  /\ char_eqb (ascii_lower d) 105 = false
  /\ char_eqb (ascii_lower d) 110 = false.
Proof.
  unfold is_digit, is_c_space, is_sign, is_ascii, ascii_lower, is_upper,
    in_range, char_eqb.
  intros H. apply Bool.andb_true_iff in H. destruct H as [H1 H2].
  apply N.leb_le in H1. apply N.leb_le in H2.
  assert (E : (65 <=? d) = false) by (apply N.leb_gt; lia).
  rewrite E. simpl.
  repeat split;
    try (apply N.eqb_neq; lia); try (apply N.ltb_lt; lia).
  - apply Bool.orb_false_iff. split.
    + apply Bool.andb_false_iff. right. apply N.leb_gt. lia.
    + apply N.eqb_neq. lia.
  - apply Bool.orb_false_iff. split; apply N.eqb_neq; lia.
Qed.

Lemma span_digits_commas_digits (s acc : str) :
  ~ In 44 s -> forallb is_digit acc = true ->
  exists ds,
    span_digits_commas s acc = (rev acc ++ ds, skipn (List.length ds) s)
    /\ forallb is_digit ds = true
    /\ match skipn (List.length ds) s with
       | [] => True
       | x :: _ => is_digit x = false
       end.
Proof.
  revert acc. induction s as [|c r IH]; intros acc Hc Ha; simpl.
  - exists []. rewrite app_nil_r. repeat split.
  - assert (E44 : char_eqb c 44 = false).
    { apply N.eqb_neq. intros ->. apply Hc. left. reflexivity. }
    rewrite E44, Bool.orb_false_r.
    destruct (is_digit c) eqn:Ed.
    + destruct (IH (c :: acc)) as (ds & E & Hd & Hn).
      * intros H. apply Hc. right. exact H.
      * simpl. rewrite Ed. exact Ha.
      * exists (c :: ds). rewrite E. simpl. rewrite <- app_assoc. simpl.
        rewrite Ed. repeat split; assumption.
    + exists []. rewrite app_nil_r. simpl. repeat split. exact Ed.
Qed.

Lemma span_digits_digits (s acc : str) :
  exists ds,
    span_digits s acc = (rev acc ++ ds, skipn (List.length ds) s)
    /\ forallb is_digit ds = true.
Proof.
  revert acc. induction s as [|c r IH]; intros acc; simpl.
  - exists []. rewrite app_nil_r. split; reflexivity.
  - destruct (is_digit c) eqn:Ed.
    + destruct (IH (c :: acc)) as (ds & E & Hd).
      exists (c :: ds). rewrite E. simpl. rewrite <- app_assoc. simpl.
      rewrite Ed. split; [reflexivity | exact Hd].
    + exists []. rewrite app_nil_r. split; reflexivity.
Qed.

(** The part of a text [float] reads as digits, when the digits are
    followed by the end or by a dot. *)
Lemma digitpart_tail_digits (ds acc tail : str) :
  forallb is_digit ds = true ->
  match tail with
  | [] => True
  | x :: _ => is_digit x = false /\ char_eqb x 95 = false
  end ->
  digitpart_tail (ds ++ tail) acc = (rev acc ++ ds, tail).
Proof.
  revert acc. induction ds as [|d ds IH]; intros acc Hd Ht; simpl.
  - rewrite app_nil_r. destruct tail as [|x t]; [reflexivity|].
    simpl. destruct Ht as [-> ->]. reflexivity.
  - simpl in Hd. apply Bool.andb_true_iff in Hd. destruct Hd as [H1 H2].
    rewrite H1, IH by assumption. simpl. rewrite <- app_assoc. reflexivity.
Qed.

Lemma digitpart_digits (d : char) (ds tail : str) :
  is_digit d = true -> forallb is_digit ds = true ->
  match tail with
  | [] => True
  | x :: _ => is_digit x = false /\ char_eqb x 95 = false
  end ->
  digitpart (d :: ds ++ tail) = Some (d :: ds, tail).
Proof.
  intros Hd Hds Ht. simpl. rewrite Hd.
  rewrite (digitpart_tail_digits ds [d] tail Hds Ht). reflexivity.
Qed.

Lemma float_number_digits (ip fr : str) :
  ip <> [] -> forallb is_digit ip = true ->
  (fr = []
   \/ exists fp, fr = 46 :: fp /\ fp <> [] /\ forallb is_digit fp = true) ->
  exists m e, float_number (ip ++ fr) = Some (m, e).
Proof.
  intros Hne Hip Hfr. destruct ip as [|d ip]; [congruence|].
  simpl in Hip. apply Bool.andb_true_iff in Hip. destruct Hip as [Hd Hip].
  unfold float_number. cbn [app].
  destruct Hfr as [-> | (fp & -> & Hfp & Hdp)].
  - rewrite (digitpart_digits d ip [] Hd Hip I). cbv beta iota zeta.
    do 2 eexists. reflexivity.
  - destruct fp as [|x fp]; [congruence|].
    simpl in Hdp. apply Bool.andb_true_iff in Hdp. destruct Hdp as [Hx Hdp].
    pose proof (digitpart_digits d ip (46 :: x :: fp) Hd Hip
                  (conj eq_refl eq_refl)) as E1.
    pose proof (digitpart_digits x fp [] Hx Hdp I) as E2.
    rewrite app_nil_r in E2. unfold str, char in *.
    rewrite E1. cbv beta iota zeta.
    do 2 eexists. rewrite E2. reflexivity.
Qed.

Lemma drop_c_space_digit_end (l : str) (d : char) :
  is_digit d = true ->
  rev (drop_c_space (rev (l ++ [d]))) = l ++ [d].
Proof.
  intros Hd. rewrite rev_app_distr. simpl.
  rewrite (proj1 (digit_props d Hd)). simpl. rewrite rev_involutive.
  reflexivity.
Qed.

Lemma digits_end (ds : str) :
  ds <> [] -> forallb is_digit ds = true ->
  exists l d, ds = l ++ [d] /\ is_digit d = true.
Proof.
  intros Hne Hd. destruct (exists_last Hne) as (l & d & ->).
  exists l, d. split; [reflexivity|].
  rewrite forallb_app in Hd. apply Bool.andb_true_iff in Hd.
  destruct Hd as [_ Hd]. simpl in Hd. rewrite Bool.andb_true_r in Hd.
  exact Hd.
Qed.

Lemma float_of_number_text (sg ip fr : str) :
  (sg = [] \/ sg = [43] \/ sg = [45]) ->
  ip <> [] -> forallb is_digit ip = true ->
  (fr = []
   \/ exists fp, fr = 46 :: fp /\ fp <> [] /\ forallb is_digit fp = true) ->
  forallb is_ascii (sg ++ ip ++ fr) = true
  /\ exists f, float_of_ascii (sg ++ ip ++ fr) = Some f.
Proof.
  intros Hsg Hne Hip Hfr. split.
  - rewrite !forallb_app. 
    assert (Hall : forall ds, forallb is_digit ds = true ->
                              forallb is_ascii ds = true).
    { induction ds as [|x ds IH]; simpl; [reflexivity|].
      intros H. apply Bool.andb_true_iff in H. destruct H as [H1 H2].
      rewrite (proj1 (proj2 (proj2 (digit_props x H1)))), IH by assumption.
      reflexivity. }
    rewrite (Hall ip Hip).
    assert (Hs : forallb is_ascii sg = true)
      by (destruct Hsg as [-> | [-> | ->]]; reflexivity).
    rewrite Hs.
    destruct Hfr as [-> | (fp & -> & _ & Hdp)]; [reflexivity|].
    simpl. rewrite (Hall fp Hdp). reflexivity.
  - assert (Hend : exists l d, ip ++ fr = l ++ [d] /\ is_digit d = true).
    { destruct Hfr as [-> | (fp & -> & Hfp & Hdp)].
      - rewrite app_nil_r. apply digits_end; assumption.
      - destruct (digits_end Hfp Hdp) as (l & d & -> & Hd).
        exists (ip ++ 46 :: l), d. split; [|exact Hd].
        rewrite <- app_assoc. reflexivity. }
    destruct Hend as (l & d & El & Hd).
    destruct (float_number_digits Hne Hip Hfr) as (m & e & Ef).
    destruct ip as [|d0 ip0]; [congruence|].
    assert (Hd0 : is_digit d0 = true).
    { simpl in Hip. apply Bool.andb_true_iff in Hip. tauto. }
    destruct (digit_props d0 Hd0) as (Hc0 & Hs0 & _ & _ & _ & Hi & Hn).
    unfold float_of_ascii.
    assert (Et : rev (drop_c_space
                        (rev (drop_c_space (sg ++ (d0 :: ip0) ++ fr))))
                 = sg ++ (d0 :: ip0) ++ fr).
    { assert (E1 : drop_c_space (sg ++ (d0 :: ip0) ++ fr)
                   = sg ++ (d0 :: ip0) ++ fr).
      { destruct Hsg as [-> | [-> | ->]]; simpl; [|reflexivity..].
        rewrite Hc0. reflexivity. }
      rewrite E1, El, app_assoc. apply drop_c_space_digit_end. exact Hd. }
    rewrite Et.
    assert (Eb : forall neg,
               (if str_eqb (map ascii_lower ((d0 :: ip0) ++ fr)) (lit "inf")
                   || str_eqb (map ascii_lower ((d0 :: ip0) ++ fr))
                        (lit "infinity")
                then Some (FInf neg)
                else if str_eqb (map ascii_lower ((d0 :: ip0) ++ fr))
                          (lit "nan")
                then Some FNan
                else match float_number ((d0 :: ip0) ++ fr) with
                     | Some (m, e) =>
                         Some (FDec (if neg then (- m)%Z else m) e)
                     | None => None
                     end)
               = Some (FDec (if neg then (- m)%Z else m) e)).
    { intros neg. rewrite Ef. cbn [app map].
      change (lit "inf") with [105; 110; 102].
      change (lit "infinity")
        with [105; 110; 102; 105; 110; 105; 116; 121].
      change (lit "nan") with [110; 97; 110].
      cbn [str_eqb]. rewrite Hi, Hn. reflexivity. }
    destruct Hsg as [-> | [-> | ->]]; cbn [app]; cbv beta iota zeta.
    + rewrite Hs0. eexists. exact (Eb false).
    + eexists. exact (Eb false).
    + eexists. exact (Eb true).
Qed.

Lemma frac_shape (r2 : str) :
  let frac :=
    match r2 with
    | 46 :: ((x :: _) as t) =>
        if is_digit x then 46 :: fst (span_digits t []) else []
    | _ => []
    end in
  frac = []
  \/ exists fp, frac = 46 :: fp /\ fp <> [] /\ forallb is_digit fp = true.
Proof.
  destruct r2 as [|c l]; [left; reflexivity|].
  destruct c as [|p]; [left; reflexivity|].
  repeat (destruct p as [p|p|]; try (left; reflexivity)).
  destruct l as [|y t]; [left; reflexivity|].
  cbv zeta. destruct (is_digit y) eqn:Ey; [|left; reflexivity].
  right. destruct (span_digits_digits t [y]) as (fp & Ef & Hfp).
  exists (y :: fp). cbn [span_digits]. rewrite Ey, Ef.
  split; [reflexivity|]. split; [discriminate|].
  simpl. rewrite Ey. exact Hfp.
Qed.

Lemma number_at_float (sg r m : str) :
  (sg = [] \/ sg = [43] \/ sg = [45]) -> ~ In 44 r ->
  match r with
  | d :: r1 =>
      if is_digit d then
        let '(run, r2) := span_digits_commas r1 [d] in
        let frac :=
          match r2 with
          | 46 :: ((x :: _) as t) =>
              if is_digit x then 46 :: fst (span_digits t []) else []
          | _ => []
          end in
        Some (sg ++ run ++ frac)
      else None
  | [] => None
  end = Some m ->
  forallb is_ascii m = true /\ exists f, float_of_ascii m = Some f.
Proof.
  intros Hsg Hr. destruct r as [|d r1]; [discriminate|].
  destruct (is_digit d) eqn:Ed; [|discriminate].
  destruct (span_digits_commas_digits r1 [d]) as (ds & E & Hds & _).
  { intros H. apply Hr. right. exact H. }
  { simpl. rewrite Ed. reflexivity. }
  rewrite E. intros [= <-].
  apply (@float_of_number_text sg (d :: ds)).
  - exact Hsg.
  - simpl. discriminate.
  - simpl. rewrite Ed. exact Hds.
  - apply frac_shape.
Qed.

Lemma match_number_float (s m : str) :
  ~ In 44 s -> match_number_at s = Some m ->
  forallb is_ascii m = true /\ exists f, float_of_ascii m = Some f.
Proof.
  intros Hc. unfold match_number_at.
  destruct s as [|c [|d r]]; [discriminate | |].
  - intros H. eapply (@number_at_float [] [c]); [tauto | exact Hc | exact H].
  - destruct (is_sign c && is_digit d) eqn:E.
    + intros H. apply Bool.andb_true_iff in E. destruct E as [E _].
      unfold is_sign, char_eqb in E. apply Bool.orb_true_iff in E.
      eapply (@number_at_float [c] (d :: r)); [| | exact H].
      * destruct E as [E|E]; apply N.eqb_eq in E; subst c; tauto.
      * intros Hi. apply Hc. right. exact Hi.
    + intros H.
      eapply (@number_at_float [] (c :: d :: r)); [tauto | exact Hc | exact H].
Qed.

Lemma search_number_float (s m : str) :
  ~ In 44 s -> search_number s = Some m ->
  forallb is_ascii m = true /\ exists f, float_of_ascii m = Some f.
Proof.
  induction s as [|c r IH]; [discriminate|].
  intros Hc. cbn [search_number].
  destruct (match_number_at (c :: r)) as [m'|] eqn:E.
  - intros [= <-]. eapply match_number_float; [exact Hc | exact E].
  - apply IH. intros H. apply Hc. right. exact H.
Qed.

(** The price step when the record has no price of its own. *)
Lemma extract_price_absent (record out : dict) :
  dict_get record (lit "price") = JNull ->
  (fst (extract_price record out) = out
   \/ exists f,
        fst (extract_price record out) = dict_set out (lit "price") (JFloat f))
  /\ (snd (extract_price record out) ||| JNull = JNull
      \/ exists a b c,
           snd (extract_price record out) ||| JNull = JStr [a; b; c]
           /\ is_upper a && is_upper b && is_upper c = true).
Proof.
  intros Hp. unfold extract_price. rewrite Hp.
  destruct (_ ||| _ ||| JStr []) as [| | | |p| |];
    try (split; left; reflexivity).
  destruct (strip p); [split; left; reflexivity|]. split.
  - destruct (search_number _) as [m|] eqn:E; [|left; reflexivity].
    right. apply search_number_float in E; [|apply replace_no_comma].
    destruct E as (Ha & f & Ef). exists f. simpl.
    unfold float_or_none, py_float. rewrite Ha, Ef. reflexivity.
  - simpl. destruct (search_iso false p) as [code|] eqn:Ei.
    + destruct (search_iso_upper _ _ Ei) as (a & b & c0 & -> & Hu).
      right. exists a, b, c0. split; [reflexivity | exact Hu].
    + destruct (search_symbol p) as [sym|]; [|left; reflexivity].
      destruct (symbol_map_upper sym) as [-> | (a & b & c0 & -> & Hu)];
        [left; reflexivity|].
      right. exists a, b, c0. split; [reflexivity | exact Hu].
Qed.

End ExtractorFields.

(** X9: the extracted fields depend only on the thirty-three keys the
    extractor reads: two records that agree on them ([get] gives the same
    value) have the same extraction. *)
Theorem X9_extraction_depends_on_its_inputs_only :
  forall (rt : Runtime) (r1 r2 : dict),
    Forall (fun k => dict_get r1 k = dict_get r2 k) Cover.extractor_inputs ->
    Normalize.extract_deterministic_fields r1
    = Normalize.extract_deterministic_fields r2.
Proof.
  intros rt r1 r2 H. rewrite Forall_forall in H.
  unfold Normalize.extract_deterministic_fields, Normalize.extract_price,
    getk.
  repeat match goal with
         | |- context [dict_get r1 ?k] => rewrite (H k) by in_inputs
         end.
  reflexivity.
Qed.

Lemma X9_extraction_depends_on_its_inputs_only_witness :
  @Normalize.extract_deterministic_fields Spec.ascii_runtime
    [(lit "title", JStr (lit "oil")); (lit "colour", JStr (lit "red"))]
  = @Normalize.extract_deterministic_fields Spec.ascii_runtime
      [(lit "brand", JInt 3); (lit "title", JStr (lit "oil"))].
Proof.
  apply (@X9_extraction_depends_on_its_inputs_only Spec.ascii_runtime).
  unfold Cover.extractor_inputs. cbn [map].
  repeat (apply Forall_cons; [reflexivity|]). apply Forall_nil.
Defined.

(** X10: in the extracted fields "image_urls" is always a list, and each
    of title, currency, upc, mpn, seller_name, itemLocation, rating,
    review_count and description is null or a value that counts as true:
    an empty string, a zero, false or an empty list found in the record is
    turned into null. *)
Theorem X10_extracted_field_shapes :
  forall (rt : Runtime) (record : dict),
    (exists l,
        dict_get (Normalize.extract_deterministic_fields record)
          (lit "image_urls") = JArr l)
    /\ Forall
         (fun k =>
            dict_get (Normalize.extract_deterministic_fields record) k = JNull
            \/ truthy
                 (dict_get (Normalize.extract_deterministic_fields record) k)
               = true)
         Cover.or_none_fields.
Proof.
  intros rt record. unfold Normalize.extract_deterministic_fields.
  set (out3 := dict_set (if truthy _ then _ else _) (lit "title") _).
  pose proof (extract_price_out record out3) as Hp.
  destruct (Normalize.extract_price record out3) as [out4 currency].
  simpl in Hp. split.
  - repeat (rewrite dict_get_set_other by reflexivity).
    rewrite dict_get_set_same.
    destruct (getk record "images" ||| _ ||| _ ||| _); eexists; reflexivity.
  - unfold Cover.or_none_fields. cbn [map].
    destruct Hp as [-> | [v ->]]; subst out3;
      repeat (apply Forall_cons; [|]); try apply Forall_nil;
      repeat (rewrite dict_get_set_other by reflexivity);
      rewrite dict_get_set_same; apply or_null_truthy.
Qed.

(** X11: when the record has no price of its own, the extraction either
    has no "price" key or holds a float under it; the value is never
    null: the number matched in the combined string, commas removed, is
    always accepted by [float], so the handler that would store null is
    not reached. *)
Theorem X11_price_from_combined_string_is_float :
  forall (rt : Runtime) (record : dict),
    dict_get record (lit "price") = JNull ->
    dict_lookup (Normalize.extract_deterministic_fields record) (lit "price")
    = None
    \/ exists f,
         dict_lookup (Normalize.extract_deterministic_fields record)
           (lit "price")
         = Some (JFloat f).
Proof.
  intros rt record Hp.
  destruct (extract_price_fields record) as (out3 & H3 & -> & _).
  destruct (proj1 (extract_price_absent record out3 Hp)) as [-> | [f ->]].
  - left. exact H3.
  - right. exists f. apply dict_lookup_set_same.
Qed.

Lemma X11_price_from_combined_string_is_float_witness :
  dict_lookup
    (@Normalize.extract_deterministic_fields Spec.ascii_runtime
       [(lit "priceWithCurrency", JStr (lit "US $1,234.50/ea"))])
    (lit "price")
  = None
  \/ exists f,
       dict_lookup
         (@Normalize.extract_deterministic_fields Spec.ascii_runtime
            [(lit "priceWithCurrency", JStr (lit "US $1,234.50/ea"))])
         (lit "price")
       = Some (JFloat f).
Proof.
  apply (@X11_price_from_combined_string_is_float Spec.ascii_runtime).
  vm_compute. reflexivity.
Defined.

(** X12: when the record has no price of its own, the extracted currency
    is null or a string of exactly three capital letters A to Z (a token
    of the combined string, or the code the symbol map gives). *)
Theorem X12_currency_from_combined_string :
  forall (rt : Runtime) (record : dict),
    dict_get record (lit "price") = JNull ->
    dict_get (Normalize.extract_deterministic_fields record) (lit "currency")
    = JNull
    \/ exists a b c,
         dict_get (Normalize.extract_deterministic_fields record)
           (lit "currency")
         = JStr [a; b; c]
         /\ is_upper a && is_upper b && is_upper c = true.
Proof.
  intros rt record Hp.
  destruct (extract_price_fields record) as (out3 & _ & _ & ->).
  exact (proj2 (extract_price_absent record out3 Hp)).
Qed.

Lemma X12_currency_from_combined_string_witness :
  dict_get
    (@Normalize.extract_deterministic_fields Spec.ascii_runtime
       [(lit "priceWithCurrency", JStr (lit "EUR 12,00"))])
    (lit "currency")
  = JNull
  \/ exists a b c,
       dict_get
         (@Normalize.extract_deterministic_fields Spec.ascii_runtime
            [(lit "priceWithCurrency", JStr (lit "EUR 12,00"))])
         (lit "currency")
       = JStr [a; b; c]
       /\ is_upper a && is_upper b && is_upper c = true.
Proof.
  apply (@X12_currency_from_combined_string Spec.ascii_runtime).
  vm_compute. reflexivity.
Defined.

(** ** The lines of a batch file, one after the other *)

Section Lines.
Context {rt : Runtime}.
Import ProcessBatch.

Lemma process_line_run (header : list str) (line : str) (s : state) :
  process_line header line s
  = match strip line with
    | [] => (Return tt, count_line s)
    | l =>
        match json_loads l with
        | None => (Return tt, logger (LogSkipNonJson (firstn 200 l))
                                (count_line s))
        | Some obj =>
            match parsed_object obj with
            | Return parsed =>
                match build_row header obj parsed (count_line s) with
                | (Return row, s2) =>
                    if row_encodable (safe_row header row)
                    then log_progress (row_written (safe_row header row) s2)
                    else (Raised, s2)
                | (Raised, s2) => (Raised, s2)
                | (Exited c, s2) => (Exited c, s2)
                end
            | Raised => (Raised, count_line s)
            | Exited c => (Exited c, count_line s)
            end
        end
    end.
Proof.
  unfold process_line, bind at 1, modify at 1.
  destruct (strip line) as [|c l]; [reflexivity|].
  destruct (json_loads (c :: l)) as [obj|]; [|reflexivity].
  unfold bind at 1. destruct (parsed_object obj); try reflexivity.
  unfold bind at 1.
  destruct (build_row header obj a (count_line s)) as [[row| |code] s2];
    try reflexivity.
  unfold bind, writerow, modify.
  destruct (row_encodable (safe_row header row)); reflexivity.
Qed.

Lemma build_row_run (header : list str) (obj parsed : json) (s : state) :
  build_row header obj parsed s
  = match parsed with
    | JObj ((_ :: _) as d) => (Return (parsed_row header d), s)
    | _ =>
        match correlation_id obj with
        | None => (Raised, s)
        | Some cid =>
            (Return (placeholder_row header cid),
             logger (LogPlaceholder (total s) cid) s)
        end
    end.
Proof.
  unfold build_row.
  destruct parsed as [| | | | | |[|e d]]; try reflexivity;
    destruct (correlation_id obj); reflexivity.
Qed.

Lemma log_progress_run (s : state) :
  fst (log_progress s) = Return tt
  /\ rows (snd (log_progress s)) = rows s
  /\ total (snd (log_progress s)) = total s.
Proof.
  unfold log_progress, bind, gets.
  destruct (Nat.eqb _ 0); simpl; auto.
Qed.

(** What a line does to the run does not depend on the lines before it:
    the outcome and the rows it adds are those it gives on a fresh run. *)
Lemma process_line_frame (header : list str) (line : str) (s : state) :
  fst (process_line header line s) = fst (process_line header line initial)
  /\ rows (snd (process_line header line s))
     = rows s ++ rows (snd (process_line header line initial))
  /\ total (snd (process_line header line s)) = S (total s).
Proof.
  rewrite !process_line_run.
  destruct (strip line) as [|c l].
  { simpl. rewrite app_nil_r. auto. }
  cbv zeta.
  destruct (json_loads (c :: l)) as [obj|].
  2:{ cbn [fst snd rows total logger count_line initial].
      rewrite app_nil_r. auto. }
  destruct (parsed_object obj) as [parsed| |];
    try (simpl; rewrite app_nil_r; auto).
  rewrite !build_row_run.
  assert (Hw : forall row s1 s2,
             rows s1 = rows s ++ rows s2 -> total s1 = S (total s) ->
             let run s0 :=
               if row_encodable row then log_progress (row_written row s0)
               else (Raised, s0) in
             fst (run s1) = fst (run s2)
             /\ rows (snd (run s1)) = rows s ++ rows (snd (run s2))
             /\ total (snd (run s1)) = S (total s)).
  { intros row s1 s2 Hr Ht run. subst run. cbv beta.
    destruct (row_encodable row); [|simpl; auto].
    destruct (log_progress_run (row_written row s1)) as (-> & -> & ->).
    destruct (log_progress_run (row_written row s2)) as (-> & -> & _).
    simpl. rewrite Hr, app_assoc. auto. }
  destruct parsed as [| | | | | |[|e d]];
    try (destruct (correlation_id obj);
         [ apply Hw; simpl; rewrite ?app_nil_r; auto
         | simpl; rewrite app_nil_r; auto ]).
  apply Hw; simpl; rewrite ?app_nil_r; auto.
Qed.

Lemma for_each_rows (header : list str) (lines : list str) (s : state) :
  fst (for_each lines (process_line header) s) = Return tt ->
  rows (snd (for_each lines (process_line header) s))
  = rows s
    ++ flat_map (fun line => rows (snd (process_line header line initial)))
         lines.
Proof.
  revert s. induction lines as [|line lines IH]; intros s; simpl.
  - intros _. rewrite app_nil_r. reflexivity.
  - unfold bind.
    destruct (process_line_frame header line s) as (Ho & Hr & _).
    destruct (process_line header line s) as [[[]| |] s1]; simpl in *;
      try discriminate.
    intros H. rewrite (IH s1 H), Hr, app_assoc. reflexivity.
Qed.

Lemma for_each_app (lines1 lines2 : list str) (header : list str)
  (s : state) :
  for_each (lines1 ++ lines2) (process_line header) s
  = match for_each lines1 (process_line header) s with
    | (Return _, s1) => for_each lines2 (process_line header) s1
    | r => r
    end.
Proof.
  revert s. induction lines1 as [|line lines1 IH]; intros s; simpl.
  - reflexivity.
  - unfold bind. destruct (process_line header line s) as [[[]| |] s1];
      [apply IH | reflexivity..].
Qed.

Lemma for_each_total (header : list str) (lines : list str) (s : state) :
  fst (for_each lines (process_line header) s) = Return tt ->
  total (snd (for_each lines (process_line header) s))
  = total s + List.length lines.
Proof.
  revert s. induction lines as [|line lines IH]; intros s; simpl.
  - intros _. lia.
  - unfold bind.
    destruct (process_line_frame header line s) as (_ & _ & Ht).
    destruct (process_line header line s) as [[[]| |] s1]; simpl in *;
      try discriminate.
    intros H. rewrite (IH s1 H), Ht. lia.
Qed.

Lemma run_of_for_each (header : list str) (lines : list str) :
  fst (process_batch_jsonl_to_csv header lines initial)
  = fst (for_each lines (process_line header) initial)
  /\ rows (snd (process_batch_jsonl_to_csv header lines initial))
     = rows (snd (for_each lines (process_line header) initial))
  /\ total (snd (process_batch_jsonl_to_csv header lines initial))
     = total (snd (for_each lines (process_line header) initial)).
Proof.
  unfold process_batch_jsonl_to_csv. unfold bind at 1 4 7.
  destruct (for_each lines (process_line header) initial) as [[[]| |] s1];
    simpl; auto.
Qed.

End Lines.

(** X13: a run that ends normally has written, in the order of the lines,
    the rows each line gives on its own: the row of a line does not depend
    on its position or on the other lines of the file. *)
Theorem X13_rows_follow_the_lines :
  forall (rt : Runtime) (header : list str) (lines : list str),
    fst (ProcessBatch.process_batch_jsonl_to_csv header lines
           ProcessBatch.initial) = Return tt ->
    ProcessBatch.rows
      (snd (ProcessBatch.process_batch_jsonl_to_csv header lines
              ProcessBatch.initial))
    = flat_map
        (fun line =>
           ProcessBatch.rows
             (snd (ProcessBatch.process_line header line
                     ProcessBatch.initial)))
        lines.
Proof.
  intros rt header lines H.
  destruct (run_of_for_each header lines) as (Ho & Hr & _).
  rewrite Hr. rewrite Ho in H. apply (for_each_rows _ _ _ H).
Qed.

Lemma X13_rows_follow_the_lines_witness :
  let header := [lit "product ID"; lit "name"] in
  let lines :=
    [q "{'custom_id':'task-0'}"; lit "not json";
     q "{'custom_id':'t1','content':'{\'name\':\'oil\'}'}"] in
  ProcessBatch.rows
    (snd (@ProcessBatch.process_batch_jsonl_to_csv Spec.ascii_runtime
            header lines ProcessBatch.initial))
  = flat_map
      (fun line =>
         ProcessBatch.rows
           (snd (@ProcessBatch.process_line Spec.ascii_runtime header line
                   ProcessBatch.initial)))
      lines.
Proof.
  intros header lines.
  apply (@X13_rows_follow_the_lines Spec.ascii_runtime header lines).
  vm_compute. reflexivity.
Defined.

(** X14: the run stops at the first line that raises: the rows written
    are those of the lines before it, that line is the last one counted,
    and the run itself raises, whatever follows in the file. *)
Theorem X14_run_stops_at_first_raising_line :
  forall (rt : Runtime) (header : list str) (before : list str)
         (line : str) (after : list str),
    fst (ProcessBatch.process_batch_jsonl_to_csv header before
           ProcessBatch.initial) = Return tt ->
    fst (ProcessBatch.process_line header line ProcessBatch.initial)
    = Raised ->
    let s' :=
      snd (ProcessBatch.process_batch_jsonl_to_csv header
             (before ++ line :: after) ProcessBatch.initial) in
    fst (ProcessBatch.process_batch_jsonl_to_csv header
           (before ++ line :: after) ProcessBatch.initial) = Raised
    /\ ProcessBatch.rows s'
       = ProcessBatch.rows
           (snd (ProcessBatch.process_batch_jsonl_to_csv header before
                   ProcessBatch.initial))
    /\ ProcessBatch.total s' = S (List.length before).
Proof.
  intros rt header before line after Hb Hl s'. subst s'.
  destruct (run_of_for_each header before) as (Ho & Hr & _).
  destruct (run_of_for_each header (before ++ line :: after))
    as (Ho' & Hr' & Ht').
  rewrite Ho', Hr', Ht', Hr. rewrite Ho in Hb. clear Ho Hr Ho' Hr' Ht'.
  rewrite for_each_app.
  pose proof (for_each_total header before ProcessBatch.initial Hb) as Ht.
  destruct (for_each before (ProcessBatch.process_line header)
              ProcessBatch.initial) as [o s1].
  simpl in Hb, Ht. subst o. simpl for_each. unfold bind.
  destruct (process_line_frame header line s1) as (Ho & Hr & Htl).
  rewrite Hl in Ho.
  assert (Hn : ProcessBatch.rows
                 (snd (ProcessBatch.process_line header line
                         ProcessBatch.initial)) = []).
  { pose proof (process_line_cases header line ProcessBatch.initial) as Hc.
    destruct (ProcessBatch.process_line header line ProcessBatch.initial)
      as [o s2].
    simpl in Hl. subst o.
    destruct Hc as [_ [(_ & Hx & _) | [(_ & Hx & _) | (_ & _ & Hx & _)]]];
      try discriminate.
    exact Hx. }
  rewrite Hn, app_nil_r in Hr.
  destruct (ProcessBatch.process_line header line s1) as [o s2].
  simpl in Ho, Hr, Htl. subst o. simpl.
  rewrite Hr, Htl, Ht. auto.
Qed.

Lemma X14_run_stops_at_first_raising_line_witness :
  let header := [lit "product ID"; lit "name"] in
  let before := [q "{'custom_id':'task-0'}"] in
  let line := q "[1, 2]" in
  let after := [q "{'custom_id':'task-2'}"] in
  let s' :=
    snd (@ProcessBatch.process_batch_jsonl_to_csv Spec.ascii_runtime header
           (before ++ line :: after) ProcessBatch.initial) in
  fst (@ProcessBatch.process_batch_jsonl_to_csv Spec.ascii_runtime header
         (before ++ line :: after) ProcessBatch.initial) = Raised
  /\ ProcessBatch.rows s'
     = ProcessBatch.rows
         (snd (@ProcessBatch.process_batch_jsonl_to_csv Spec.ascii_runtime
                 header before ProcessBatch.initial))
  /\ ProcessBatch.total s' = S (List.length before).
Proof.
  intros header before line after.
  apply (@X14_run_stops_at_first_raising_line Spec.ascii_runtime header
           before line after);
    vm_compute; reflexivity.
Defined.

(** X15: a line that decodes to a JSON value other than an object (a
    number, a string, a list, true, false or null) stops the run: no
    content is found, and the lookup of the correlation id for the
    placeholder raises outside any handler. *)
Theorem X15_non_object_line_raises :
  forall (rt : Runtime) (header : list str) (line : str) (obj : json)
         (s : ProcessBatch.state),
    json_loads (strip line) = Some obj ->
    (forall d, obj <> JObj d) ->
    ProcessBatch.process_line header line s
    = (Raised, ProcessBatch.count_line s).
Proof.
  intros rt header line obj s Hl Hn.
  unfold ProcessBatch.process_line.
  destruct (strip line) as [|c l]; [discriminate|].
  rewrite Hl.
  destruct obj; try reflexivity.
  exfalso. eapply Hn. reflexivity.
Qed.

Lemma X15_non_object_line_raises_witness :
  @ProcessBatch.process_line Spec.ascii_runtime [lit "name"]
    (q "['a', 'b']") ProcessBatch.initial
  = (Raised, ProcessBatch.count_line ProcessBatch.initial).
Proof.
  apply (@X15_non_object_line_raises Spec.ascii_runtime [lit "name"]
           (q "['a', 'b']") (JArr [JStr (lit "a"); JStr (lit "b")])).
  - vm_compute. reflexivity.
  - intros d. discriminate.
Defined.

(** ** The worker of the synchronous stage *)

Section Worker.
Context {rt : Runtime}.
Import Normalize.

Lemma fill_untouched (det row : dict) (col : str) :
  ~ In col (keys det) ->
  dict_lookup
    (fold_left
       (fun row '(k, v) =>
          if dict_mem row k
             && match dict_get row k with JNull => true | _ => false end
          then dict_set row k v else row)
       det row) col
  = dict_lookup row col.
Proof.
  revert row. induction det as [|[k v] det IH]; intros row Hn; simpl;
    [reflexivity|].
  simpl in Hn. rewrite IH by tauto.
  assert (E : str_eqb k col = false).
  { apply str_eqb_neq. intros ->. apply Hn. left. reflexivity. }
  destruct (dict_mem row k && _); [|reflexivity].
  apply dict_lookup_set_other. exact E.
Qed.

Lemma fill_value (det row : dict) (col : str) (p : json) :
  NoDup (keys det) -> dict_lookup row col = Some p ->
  dict_get
    (fold_left
       (fun row '(k, v) =>
          if dict_mem row k
             && match dict_get row k with JNull => true | _ => false end
          then dict_set row k v else row)
       det row) col
  = match p with JNull => dict_get det col | v => v end.
Proof.
  revert row. induction det as [|[k v] det IH]; intros row Hn Hp.
  - simpl. unfold dict_get. rewrite Hp. destruct p; reflexivity.
  - simpl in Hn. inversion Hn as [|? ? Hk Hd]; subst.
    cbn [fold_left].
    destruct (str_eqb k col) eqn:E.
    + apply str_eqb_eq in E. subst k.
      unfold dict_get at 1. rewrite fill_untouched by exact Hk.
      rewrite dict_mem_lookup. unfold dict_get at 1. rewrite Hp.
      unfold dict_get at 1. cbn [dict_lookup]. rewrite str_eqb_refl.
      destruct p; cbn [andb]; rewrite ?dict_lookup_set_same, ?Hp;
        reflexivity.
    + rewrite IH; [| exact Hd |].
      * unfold dict_get at 2. cbn [dict_lookup]. rewrite E. reflexivity.
      * destruct (dict_mem row k && _); [|exact Hp].
        rewrite dict_lookup_set_other; [exact Hp | exact E].
Qed.

Lemma worker_attempts_step (header : list str) (idx : nat) (prompt : str)
  (det : dict) (attempt n : nat) :
  worker_attempts header idx prompt det attempt (S n)
  = match Cover.reply_parsed idx attempt prompt with
    | Some parsed => Some (normalized_row header parsed det)
    | None => worker_attempts header idx prompt det (S attempt) n
    end.
Proof.
  simpl. unfold Cover.reply_parsed.
  destruct (chat_completion idx attempt prompt) as [content|];
    [|reflexivity].
  destruct (parse_and_map_output content); reflexivity.
Qed.

Lemma worker_attempts_first (header : list str) (idx : nat) (prompt : str)
  (det parsed : dict) (n : nat) :
  forall attempt k,
    (k < n)%nat ->
    (forall a, (a < k)%nat ->
               Cover.reply_parsed idx (attempt + a) prompt = None) ->
    Cover.reply_parsed idx (attempt + k) prompt = Some parsed ->
    worker_attempts header idx prompt det attempt n
    = Some (normalized_row header parsed det).
Proof.
  induction n as [|n IH]; intros attempt k Hk Hnone Hsome; [lia|].
  rewrite worker_attempts_step. destruct k as [|k].
  - rewrite Nat.add_0_r in Hsome. rewrite Hsome. reflexivity.
  - pose proof (Hnone 0%nat ltac:(lia)) as H0.
    rewrite Nat.add_0_r in H0. rewrite H0.
    apply (IH (S attempt) k); [lia | |].
    + intros a Ha. replace (S attempt + a)%nat with (attempt + S a)%nat
        by lia.
      apply Hnone. lia.
    + replace (S attempt + k)%nat with (attempt + S k)%nat by lia.
      exact Hsome.
Qed.

Lemma worker_attempts_none (header : list str) (idx : nat) (prompt : str)
  (det : dict) (n : nat) :
  forall attempt,
    (forall a, (a < n)%nat ->
               Cover.reply_parsed idx (attempt + a) prompt = None) ->
    worker_attempts header idx prompt det attempt n = None.
Proof.
  induction n as [|n IH]; intros attempt Hnone; [reflexivity|].
  rewrite worker_attempts_step.
  pose proof (Hnone 0%nat ltac:(lia)) as H0.
  rewrite Nat.add_0_r in H0. rewrite H0.
  apply IH. intros a Ha.
  replace (S attempt + a)%nat with (attempt + S a)%nat by lia.
  apply Hnone. lia.
Qed.

End Worker.

(** X16: in the row a worker builds, a header column holds the value the
    parsed reply has under exactly that key, unless that value is missing
    or null: then it holds the deterministic field of that name (null when
    there is none). *)
Theorem X16_normalized_row_values :
  forall (rt : Runtime) (header : list str) (parsed deterministic : dict)
         (col : str),
    NoDup (keys deterministic) ->
    existsb (str_eqb col) header = true ->
    dict_get (Normalize.normalized_row header parsed deterministic) col
    = match dict_get parsed col with
      | JNull => dict_get deterministic col
      | v => v
      end.
Proof.
  intros rt header parsed deterministic col Hn Hc.
  unfold Normalize.normalized_row.
  rewrite (@fill_value deterministic _ col (dict_get parsed col) Hn);
    [destruct (dict_get parsed col); reflexivity|].
  unfold dict_comprehension. rewrite dict_lookup_fold_set, Hc. reflexivity.
Qed.

Lemma X16_normalized_row_values_witness :
  dict_get
    (Normalize.normalized_row [lit "title"; lit "brand"]
       [(lit "brand", JStr (lit "acme")); (lit "title", JNull)]
       [(lit "url", JNull); (lit "title", JStr (lit "oil"))])
    (lit "title")
  = match
      dict_get [(lit "brand", JStr (lit "acme")); (lit "title", JNull)]
        (lit "title")
    with
    | JNull =>
        dict_get [(lit "url", JNull); (lit "title", JStr (lit "oil"))]
          (lit "title")
    | v => v
    end.
Proof.
  apply (@X16_normalized_row_values Spec.ascii_runtime).
  - constructor; [|constructor; [|constructor]]; simpl;
      intuition discriminate.
  - vm_compute. reflexivity.
Defined.

(** X17: the worker returns the row of the first reply that parses to a
    mapping, provided that reply comes within [max_retries + 1] calls: a
    call that raises and a reply that does not parse are both followed by
    the next attempt. *)
Theorem X17_worker_returns_first_parsable_reply :
  forall (rt : Runtime) (header : list str) (max_retries : Z) (idx : nat)
         (det raw : dict) (k : nat) (parsed : dict),
    (Z.of_nat k <= max_retries)%Z ->
    (forall a, (a < k)%nat ->
               Cover.reply_parsed idx a (Normalize.build_prompt det raw)
               = None) ->
    Cover.reply_parsed idx k (Normalize.build_prompt det raw) = Some parsed ->
    Normalize.worker_job header max_retries idx (det, raw)
    = Some (Normalize.normalized_row header parsed det).
Proof.
  intros rt header max_retries idx det raw k parsed Hk Hnone Hsome.
  unfold Normalize.worker_job.
  apply (@worker_attempts_first rt header idx _ det parsed _ 0%nat k).
  - lia.
  - exact Hnone.
  - exact Hsome.
Qed.

Lemma X17_worker_returns_first_parsable_reply_witness :
  @Normalize.worker_job Cover.sample_runtime [lit "name"; lit "title"] 2 7
    ([(lit "title", JStr (lit "Olive oil"))], [])
  = Some
      (Normalize.normalized_row [lit "name"; lit "title"]
         [(lit "name", JStr (lit "oil")); (lit "brand", JNull)]
         [(lit "title", JStr (lit "Olive oil"))]).
Proof.
  apply (@X17_worker_returns_first_parsable_reply Cover.sample_runtime
           [lit "name"; lit "title"] 2 7
           [(lit "title", JStr (lit "Olive oil"))] [] 2
           [(lit "name", JStr (lit "oil")); (lit "brand", JNull)]).
  - lia.
  - intros a Ha. destruct a as [|[|a]]; [reflexivity | reflexivity | lia].
  - vm_compute. reflexivity.
Defined.

(** X18: when none of the [max_retries + 1] calls gives a reply that
    parses to a mapping, the worker returns none; with a negative
    [max_retries] it makes no call at all. *)
Theorem X18_worker_gives_up_after_retries :
  forall (rt : Runtime) (header : list str) (max_retries : Z) (idx : nat)
         (det raw : dict),
    (forall a, (Z.of_nat a <= max_retries)%Z ->
               Cover.reply_parsed idx a (Normalize.build_prompt det raw)
               = None) ->
    Normalize.worker_job header max_retries idx (det, raw) = None.
Proof.
  intros rt header max_retries idx det raw Hnone.
  unfold Normalize.worker_job. apply worker_attempts_none.
  intros a Ha. apply Hnone. simpl. lia.
Qed.

Lemma X18_worker_gives_up_after_retries_witness :
  @Normalize.worker_job Cover.sample_runtime [lit "name"] 1 0
    ([(lit "title", JStr (lit "Olive oil"))], [])
  = None.
Proof.
  apply (@X18_worker_gives_up_after_retries Cover.sample_runtime).
  intros a Ha. destruct a as [|[|a]]; [reflexivity | reflexivity | lia].
Defined.

(** ** The prompt and the correlation id of a request *)

Section Prompt.
Context {rt : Runtime}.
Import Normalize.
Local Open Scope N_scope.

Lemma startswith_nil (s : str) : startswith s [] = true.
Proof. destruct s; reflexivity. Qed.

Lemma startswith_app_long (p x y : str) :
  (List.length p <= List.length x)%nat ->
  startswith (x ++ y) p = startswith x p.
Proof.
  revert x. induction p as [|c p IH]; intros x Hl.
  - rewrite !startswith_nil. reflexivity.
  - destruct x as [|d x]; simpl in Hl; [lia|].
    simpl. rewrite IH by lia. reflexivity.
Qed.

Lemma startswith_self (p b : str) : startswith (p ++ b) p = true.
Proof.
  induction p as [|c p IH]; simpl; [apply startswith_nil|].
  unfold char_eqb. rewrite N.eqb_refl. exact IH.
Qed.

Lemma replace_skip (old new x b : str) :
  replace_aux old new (List.length x) (x ++ b) = replace_aux old new 0%nat b.
Proof.
  induction x as [|c x IH]; simpl; [destruct b; reflexivity | exact IH].
Qed.

Lemma replace_match (old new b : str) :
  old <> [] ->
  replace_aux old new 0%nat (old ++ b) = new ++ replace_aux old new 0%nat b.
Proof.
  intros Hne. destruct old as [|c o]; [congruence|].
  change ((c :: o) ++ b) with (c :: (o ++ b)).
  cbn [replace_aux].
  change (c :: (o ++ b)) with ((c :: o) ++ b).
  rewrite startswith_self. cbn [List.length pred].
  rewrite replace_skip. reflexivity.
Qed.

Lemma replace_none (old new s : str) :
  Cover.occurs old s = false -> replace_aux old new 0%nat s = s.
Proof.
  induction s as [|c s IH]; [reflexivity|].
  cbn [Cover.occurs replace_aux]. intros H.
  apply Bool.orb_false_iff in H. destruct H as [H1 H2].
  rewrite H1, IH by exact H2. reflexivity.
Qed.

Lemma replace_prefix (old new a b : str) :
  old <> [] ->
  Cover.occurs old (a ++ removelast old) = false ->
  replace_aux old new 0%nat (a ++ old ++ b)
  = a ++ replace_aux old new 0%nat (old ++ b).
Proof.
  intros Hne. induction a as [|c a IH]; [reflexivity|].
  change ((c :: a) ++ removelast old) with (c :: (a ++ removelast old)).
  cbn [Cover.occurs]. intros H.
  apply Bool.orb_false_iff in H. destruct H as [H1 H2].
  change ((c :: a) ++ old ++ b) with (c :: (a ++ old ++ b)).
  cbn [replace_aux].
  assert (E : startswith (c :: a ++ old ++ b) old = false).
  { pose proof (app_removelast_last 0%N Hne) as Eo.
    pose proof (f_equal (@List.length char) Eo) as El.
    rewrite length_app in El. simpl in El.
    rewrite Eo at 1. rewrite <- app_assoc.
    change (c :: a ++ removelast old ++ [last old 0%N] ++ b)
      with ((c :: a) ++ removelast old ++ [last old 0%N] ++ b).
    rewrite app_assoc.
    rewrite startswith_app_long; [exact H1|].
    rewrite length_app. simpl. unfold str, char in *. lia. }
  rewrite E, IH by exact H2. reflexivity.
Qed.

Lemma marker_not_empty : Cover.marker <> [].
Proof. discriminate. Qed.

(** *** [str(n)] *)

Lemma digits_aux_acc (f : nat) :
  forall n acc, digits_aux f n acc = digits_aux f n [] ++ acc.
Proof.
  induction f as [|f IH]; intros n acc; simpl; [reflexivity|].
  destruct (N.ltb n 10); [reflexivity|].
  rewrite IH. rewrite (IH _ [_]). rewrite <- app_assoc. reflexivity.
Qed.

Lemma digits_value_app (ds : str) (d : char) :
  forall z,
    digits_value (ds ++ [d]) z
    = (10 * digits_value ds z + Z.of_N (d - 48))%Z.
Proof.
  induction ds as [|c ds IH]; intros z; simpl; [reflexivity | apply IH].
Qed.

Lemma digits_aux_value (f : nat) :
  forall n,
    (N.to_nat n < f)%nat ->
    digits_value (digits_aux f n []) 0 = Z.of_N n
    /\ forallb is_digit (digits_aux f n []) = true.
Proof.
  induction f as [|f IH]; intros n Hn; [lia|].
  cbn [digits_aux].
  pose proof (N.mod_lt n 10 ltac:(discriminate)) as Hm.
  pose proof (N.div_mod' n 10) as Hdm.
  assert (Hq : 10 <= n -> (N.to_nat (n / 10) < f)%nat).
  { intros H10. assert (n / 10 < n) by (apply N.div_lt; lia). lia. }
  revert Hm Hdm Hq IH.
  generalize (n mod 10) as m. generalize (n / 10) as d0.
  intros d0 m Hm Hdm Hq IH.
  assert (Hd : is_digit (48 + m) = true).
  { unfold is_digit, in_range. apply Bool.andb_true_iff.
    split; apply N.leb_le; lia. }
  destruct (N.ltb n 10) eqn:E.
  - apply N.ltb_lt in E.
    cbn [digits_value forallb]. rewrite Hd.
    split; [|reflexivity]. lia.
  - apply N.ltb_ge in E.
    destruct (IH _ (Hq E)) as [Hv Ha].
    rewrite digits_aux_acc. split.
    + rewrite digits_value_app, Hv. lia.
    + rewrite forallb_app, Ha. cbn [forallb]. rewrite Hd. reflexivity.
Qed.

End Prompt.

(** X19: when the template is a text, the marker, and a text, with no
    other place at which the marker could be read, the prompt is the
    first text, the serialized context (the deterministic fields under
    "deterministic", the record under "raw") and the second text; the
    serialized context is not searched for the marker. *)
Theorem X19_prompt_is_template_around_context :
  forall (rt : Runtime) (det raw : dict) (a b : str),
    PROMPT_INSTRUCTION = a ++ Cover.marker ++ b ->
    Cover.occurs Cover.marker (a ++ removelast Cover.marker) = false ->
    Cover.occurs Cover.marker b = false ->
    Normalize.build_prompt det raw
    = a
      ++ json_dumps
           (JObj [(lit "deterministic", JObj det); (lit "raw", JObj raw)])
      ++ b.
Proof.
  intros rt det raw a b Ht Ha Hb.
  unfold Normalize.build_prompt, replace.
  change (lit "<<<INPUT_PRODUCT_JSON>>>") with Cover.marker.
  rewrite Ht.
  rewrite (replace_prefix _ _ b marker_not_empty Ha).
  rewrite (replace_match _ b marker_not_empty).
  rewrite (replace_none _ _ _ Hb). reflexivity.
Qed.

Lemma X19_prompt_is_template_around_context_witness :
  @Normalize.build_prompt Cover.sample_runtime
    [(lit "title", JNull)] [(lit "name", JStr (lit "oil"))]
  = lit "Input: "
    ++ @json_dumps Cover.sample_runtime
         (JObj [(lit "deterministic", JObj [(lit "title", JNull)]);
                (lit "raw", JObj [(lit "name", JStr (lit "oil"))])])
    ++ lit " Output:".
Proof.
  apply (@X19_prompt_is_template_around_context Cover.sample_runtime);
    vm_compute; reflexivity.
Defined.

(** X20: the correlation id of the request for the record at position
    [i] is "task-" followed by decimal digits that read back as [i]:
    requests of different records have different ids. *)
Theorem X20_custom_id_reads_back :
  forall (rt : Runtime) (i : nat) (det raw : dict),
    (exists rest,
        Normalize.batch_line i det raw
        = JObj ((lit "custom_id", JStr (lit "task-" ++ str_of_nat i))
                  :: rest))
    /\ forallb is_digit (str_of_nat i) = true
    /\ digits_value (str_of_nat i) 0 = Z.of_nat i.
Proof.
  intros rt i det raw. split; [eexists; reflexivity|].
  unfold str_of_nat.
  destruct (@digits_aux_value (S i) (N.of_nat i) ltac:(lia)) as [Hv Hd].
  split; [exact Hd|]. rewrite Hv. lia.
Qed.

(** ** The two parsers of a reply *)

Section Suffix.

Local Open Scope N_scope.

Lemma suffix_refl (s : str) : Cover.is_suffix s s.
Proof. exists []. reflexivity. Qed.

Lemma suffix_tl (c : char) (r s : str) :
  Cover.is_suffix r s -> Cover.is_suffix r (c :: s).
Proof. intros [p ->]. exists (c :: p). reflexivity. Qed.

Lemma suffix_tran (r s t : str) :
  Cover.is_suffix r s -> Cover.is_suffix s t -> Cover.is_suffix r t.
Proof.
  intros [p ->] [p' ->]. exists (p' ++ p). rewrite app_assoc. reflexivity.
Qed.

Lemma skip_ws_suffix (s : str) : Cover.is_suffix (skip_ws s) s.
Proof.
  induction s as [|c s IH]; simpl; [apply suffix_refl|].
  destruct (is_json_ws c); [apply suffix_tl; exact IH | apply suffix_refl].
Qed.

Lemma head_is_suffix (c : char) (s r : str) :
  head_is c s = Some r -> Cover.is_suffix r s.
Proof.
  intros H. apply head_is_some in H. subst. apply suffix_tl, suffix_refl.
Qed.

Lemma skipn_suffix (n : nat) (l : str) : Cover.is_suffix (skipn n l) l.
Proof.
  exists (firstn n l). symmetry. apply firstn_skipn.
Qed.

Lemma after_prefix_suffix (p s r : str) :
  after_prefix p s = Some r -> Cover.is_suffix r s.
Proof.
  unfold after_prefix. destruct (startswith s p); [|discriminate].
  intros [= <-]. apply skipn_suffix.
Qed.

Lemma scanstring_suffix (s : str) :
  forall wait acc t r,
    scanstring s wait acc = Some (t, r) -> Cover.is_suffix r s.
Proof.
  induction s as [|c s IH]; intros wait acc t r; simpl; [discriminate|].
  destruct wait as [|k]; [|intros H; apply suffix_tl; eapply IH; exact H].
  destruct (char_eqb c 34); [intros [= _ <-]; apply suffix_tl, suffix_refl|].
  destruct (N.ltb c 32); [discriminate|].
  destruct (char_eqb c 92); [|intros H; apply suffix_tl; eapply IH; exact H].
  destruct s as [|e r']; [discriminate|].
  destruct (char_eqb e 117).
  - destruct (unicode_escape r') as [[u n]|]; [|discriminate].
    intros H; apply suffix_tl; eapply IH; exact H.
  - destruct (simple_escape e); [|discriminate].
    intros H; apply suffix_tl; eapply IH; exact H.
Qed.

Lemma span_digits_suffix (s : str) :
  forall acc, Cover.is_suffix (snd (span_digits s acc)) s.
Proof.
  induction s as [|c s IH]; intros acc; simpl; [apply suffix_refl|].
  destruct (is_digit c); [apply suffix_tl, IH | apply suffix_refl].
Qed.

Lemma scan_fraction_suffix (s : str) :
  Cover.is_suffix (snd (scan_fraction s)) s.
Proof.
  unfold scan_fraction.
  destruct (head_is 46 s) as [[|d t]|] eqn:E; try apply suffix_refl.
  destruct (is_digit d); [|apply suffix_refl].
  eapply suffix_tran;
    [apply span_digits_suffix | eapply head_is_suffix; exact E].
Qed.

Lemma scan_exponent_suffix (s : str) :
  Cover.is_suffix (snd (scan_exponent s)) s.
Proof.
  unfold scan_exponent. destruct s as [|x t]; [apply suffix_refl|].
  destruct (char_eqb x 101 || char_eqb x 69); [|apply suffix_refl].
  destruct (match t with
            | [] => (false, t)
            | y :: t' => if is_sign y then (char_eqb y 45, t') else (false, t)
            end) as [eneg t1] eqn:Et.
  assert (Ht : Cover.is_suffix t1 t).
  { destruct t as [|y t']; [injection Et as _ <-; apply suffix_refl|].
    destruct (is_sign y); injection Et as _ <-;
      [apply suffix_tl, suffix_refl | apply suffix_refl]. }
  pose proof (span_digits_suffix t1 []) as Hs.
  destruct (span_digits t1 []) as [[|d ds] t2]; simpl in *;
    [apply suffix_refl|].
  apply suffix_tl. eapply suffix_tran; eauto.
Qed.

Lemma scan_number_suffix (s : str) (v : json) (r : str) :
  scan_number s = Some (v, r) -> Cover.is_suffix r s.
Proof.
  unfold scan_number.
  destruct (match head_is 45 s with
            | Some r0 => (true, r0)
            | None => (false, s)
            end) as [neg s1] eqn:En.
  assert (Hs1 : Cover.is_suffix s1 s).
  { destruct (head_is 45 s) as [r0|] eqn:E; injection En as _ <-;
      [eapply head_is_suffix; exact E | apply suffix_refl]. }
  destruct s1 as [|c r0]; [discriminate|].
  destruct (is_digit c); [|discriminate].
  assert (H1 : Cover.is_suffix
                 (snd (if char_eqb c 48 then ([c], r0)
                       else span_digits r0 [c])) r0).
  { destruct (char_eqb c 48);
      [apply suffix_refl | apply span_digits_suffix]. }
  destruct (if char_eqb c 48 then _ else _) as [ip r1]. simpl in H1.
  pose proof (scan_fraction_suffix r1) as H2.
  destruct (scan_fraction r1) as [fp r2]. simpl in H2.
  pose proof (scan_exponent_suffix r2) as H3.
  destruct (scan_exponent r2) as [ex r3]. simpl in H3.
  assert (Hr : Cover.is_suffix r3 s).
  { eapply suffix_tran; [exact H3|]. eapply suffix_tran; [exact H2|].
    eapply suffix_tran; [exact H1|]. eapply suffix_tran; [|exact Hs1].
    apply suffix_tl, suffix_refl. }
  destruct fp; [destruct ex|]; intros [= _ <-]; exact Hr.
Qed.

Lemma scan_constant_suffix (s : str) (v : json) (r : str) :
  scan_constant s = Some (v, r) -> Cover.is_suffix r s.
Proof.
  unfold scan_constant.
  repeat match goal with
         | |- context [after_prefix ?p s] =>
             let E := fresh "E" in
             destruct (after_prefix p s) eqn:E;
             [ intros [= _ <-]; eapply after_prefix_suffix; exact E | ]
         | |- context [scan_number s] =>
             let E := fresh "E" in
             destruct (scan_number s) as [[? ?]|] eqn:E;
             [ intros [= _ <-]; eapply scan_number_suffix; exact E | ]
         end.
  discriminate.
Qed.

(** What a scan leaves is the end of its input, and an object ends at
    its closing brace: the text read for it ends with that brace. *)
Lemma scan_suffix (fuel : nat) :
  (forall s v r, scan_once fuel s = Some (v, r) ->
     Cover.is_suffix r s
     /\ (Spec.is_obj v -> exists p, s = p ++ 125 :: r))
  /\ (forall s acc v r, scan_members fuel s acc = Some (v, r) ->
        exists p, s = p ++ 125 :: r)
  /\ (forall s acc v r, scan_elements fuel s acc = Some (v, r) ->
        Cover.is_suffix r s /\ ~ Spec.is_obj v).
Proof.
  assert (Hcl : forall (p r s : str),
             s = p ++ 125 :: r -> Cover.is_suffix r s).
  { intros p r s ->. exists (p ++ [125]). rewrite <- app_assoc.
    reflexivity. }
  induction fuel as [|f (IHo & IHm & IHe)].
  - repeat split; discriminate.
  - split; [|split].
    + intros [|c s] v r; simpl; [discriminate|].
      destruct (char_eqb c 34) eqn:E34.
      { destruct (scanstring s 0%nat []) as [[t r']|] eqn:Es; [|discriminate].
        intros [= <- <-]. split; [|simpl; tauto].
        apply suffix_tl. eapply scanstring_suffix; exact Es. }
      destruct (char_eqb c 123) eqn:E123.
      { assert (Hb : forall p, skip_ws s = p ++ 125 :: r ->
                       exists p', c :: s = p' ++ 125 :: r).
        { intros p Hp. destruct (skip_ws_suffix s) as [w Hw].
          exists (c :: w ++ p). rewrite Hw at 1. rewrite Hp.
          simpl. rewrite <- app_assoc. reflexivity. }
        destruct (head_is 125 (skip_ws s)) as [r'|] eqn:Eh.
        - intros [= <- <-]. apply head_is_some in Eh.
          destruct (Hb [] Eh) as [p' Hp'].
          split; [eapply Hcl; exact Hp' | intros _; exists p'; exact Hp'].
        - intros H. apply IHm in H. destruct H as [p Hp].
          destruct (Hb p Hp) as [p' Hp'].
          split; [eapply Hcl; exact Hp' | intros _; exists p'; exact Hp']. }
      destruct (char_eqb c 91) eqn:E91.
      { destruct (head_is 93 (skip_ws s)) as [r'|] eqn:Eh.
        - intros [= <- <-]. split; [|simpl; tauto].
          apply suffix_tl. eapply suffix_tran;
            [eapply head_is_suffix; exact Eh | apply skip_ws_suffix].
        - intros H. apply IHe in H. destruct H as (Hi & Hn). split.
          + apply suffix_tl.
            eapply suffix_tran; [exact Hi | apply skip_ws_suffix].
          + intros Ho. exfalso. exact (Hn Ho). }
      intros H. split; [eapply scan_constant_suffix; exact H|].
      apply scan_constant_props in H. tauto.
    + intros s acc v r; simpl.
      destruct (head_is 34 s) as [r0|] eqn:E0; [|discriminate].
      destruct (scanstring r0 0%nat []) as [[k r1]|] eqn:E1; [|discriminate].
      destruct (head_is 58 (skip_ws r1)) as [r2|] eqn:E2; [|discriminate].
      destruct (scan_once f (skip_ws r2)) as [[v0 r3]|] eqn:E3;
        [|discriminate].
      assert (H3 : Cover.is_suffix (skip_ws r3) s).
      { eapply suffix_tran; [apply skip_ws_suffix|].
        eapply suffix_tran; [apply (proj1 (IHo _ _ _ E3))|].
        eapply suffix_tran; [apply skip_ws_suffix|].
        eapply suffix_tran; [eapply head_is_suffix; exact E2|].
        eapply suffix_tran; [apply skip_ws_suffix|].
        eapply suffix_tran; [eapply scanstring_suffix; exact E1|].
        eapply head_is_suffix; exact E0. }
      destruct H3 as [q3 H3].
      destruct (head_is 125 (skip_ws r3)) as [r4|] eqn:E4.
      * intros [= _ <-]. apply head_is_some in E4.
        exists q3. rewrite H3, E4. reflexivity.
      * destruct (head_is 44 (skip_ws r3)) as [r4|] eqn:E5; [|discriminate].
        intros H. apply IHm in H. destruct H as [p Hp].
        apply head_is_some in E5.
        destruct (skip_ws_suffix r4) as [w Hw].
        exists (q3 ++ 44 :: w ++ p).
        rewrite H3, E5. rewrite Hw at 1. rewrite Hp.
        repeat (rewrite <- app_assoc || rewrite <- app_comm_cons).
        reflexivity.
    + intros s acc v r; simpl.
      destruct (scan_once f s) as [[v0 r1]|] eqn:E1; [|discriminate].
      pose proof (proj1 (IHo _ _ _ E1)) as H1.
      destruct (head_is 93 (skip_ws r1)) as [r2|] eqn:E2.
      * intros [= <- <-]. split; [|simpl; tauto].
        eapply suffix_tran; [eapply head_is_suffix; exact E2|].
        eapply suffix_tran; [apply skip_ws_suffix | exact H1].
      * destruct (head_is 44 (skip_ws r1)) as [r2|] eqn:E3; [|discriminate].
        intros H. apply IHe in H. destruct H as (Hi & Hn).
        split; [|exact Hn].
        eapply suffix_tran; [exact Hi|].
        eapply suffix_tran; [apply skip_ws_suffix|].
        eapply suffix_tran; [eapply head_is_suffix; exact E3|].
        eapply suffix_tran; [apply skip_ws_suffix | exact H1].
Qed.

(** *** The ends of a stripped text *)

Lemma lstrip_head (s : str) :
  match lstrip s with [] => True | x :: _ => is_space x = false end.
Proof.
  induction s as [|c s IH]; simpl; [exact I|].
  destruct (is_space c) eqn:E; [exact IH | exact E].
Qed.

Lemma lstrip_app_nonspace (l : str) (x : char) :
  is_space x = false -> lstrip (l ++ [x]) = lstrip l ++ [x].
Proof.
  intros Hx. induction l as [|c l IH]; simpl; [rewrite Hx; reflexivity|].
  destruct (is_space c); [exact IH | reflexivity].
Qed.

Lemma strip_first (s : str) :
  match strip s with [] => True | x :: _ => is_space x = false end.
Proof.
  unfold strip, rstrip. pose proof (lstrip_head s) as H.
  destruct (lstrip s) as [|x u]; [exact I|].
  simpl rev. rewrite lstrip_app_nonspace by exact H.
  rewrite rev_app_distr. simpl. exact H.
Qed.

Lemma strip_last (s l : str) (y : char) :
  strip s = l ++ [y] -> is_space y = false.
Proof.
  unfold strip, rstrip. intros H.
  apply (f_equal (@rev char)) in H.
  rewrite rev_involutive, rev_app_distr in H. simpl in H.
  pose proof (lstrip_head (rev (lstrip s))) as Hh.
  rewrite H in Hh. exact Hh.
Qed.

Lemma json_ws_is_space (c : char) : is_json_ws c = true -> is_space c = true.
Proof.
  unfold is_json_ws, char_eqb. intros H.
  repeat (apply Bool.orb_true_iff in H; destruct H as [H|H]);
    apply N.eqb_eq in H; subst c; reflexivity.
Qed.

Lemma skip_ws_nil (r : str) :
  skip_ws r = [] -> forall y, In y r -> is_json_ws y = true.
Proof.
  induction r as [|c r IH]; simpl; [tauto|].
  destruct (is_json_ws c) eqn:E; [|discriminate].
  intros H y [<-|Hy]; [exact E | apply IH; assumption].
Qed.

Lemma rfind_from_last (c : char) (p : str) :
  forall i best,
    rfind_from c (p ++ [c]) i best = (i + Z.of_nat (List.length p))%Z.
Proof.
  induction p as [|x p IH]; intros i best; simpl.
  - unfold char_eqb. rewrite N.eqb_refl. lia.
  - rewrite IH. lia.
Qed.

(** A stripped text that decodes to an object starts with its opening
    brace and ends with its closing brace. *)
Lemma object_text_ends (txt : str) (d : dict) :
  (match txt with [] => True | x :: _ => is_space x = false end) ->
  (forall l y, txt = l ++ [y] -> is_space y = false) ->
  json_loads txt = Some (JObj d) ->
  exists t, txt = 123 :: t ++ [125].
Proof.
  intros Hfirst Hlast. unfold json_loads.
  destruct (startswith txt [65279]); [discriminate|].
  destruct (scan_once _ (skip_ws txt)) as [[v rest]|] eqn:E; [|discriminate].
  destruct (skip_ws rest) eqn:Er; [|discriminate].
  intros [= ->].
  assert (Ews : skip_ws txt = txt).
  { destruct txt as [|x t]; [reflexivity|]. simpl.
    destruct (is_json_ws x) eqn:Ex; [|reflexivity].
    apply json_ws_is_space in Ex. congruence. }
  rewrite Ews in E.
  destruct (proj1 (scan_suffix _) _ _ _ E) as [[q Hq] Hobj].
  assert (Hrest : rest = []).
  { destruct rest as [|c0 rest0]; [reflexivity|]. exfalso.
    destruct (@exists_last _ (c0 :: rest0) ltac:(discriminate))
      as (l0 & y & El).
    rewrite El in Hq, Er.
    assert (Hy : is_space y = true).
    { apply json_ws_is_space. apply (skip_ws_nil _ Er).
      apply in_or_app. right. left. reflexivity. }
    rewrite app_assoc in Hq.
    rewrite (Hlast _ _ Hq) in Hy. discriminate. }
  subst rest.
  destruct (Hobj I) as [p Hp].
  destruct (proj2 (proj1 (scan_props _) _ _ _ E) I) as (t & Ht & _).
  rewrite Ht in Hp. destruct p as [|x p]; [discriminate|].
  injection Hp as <- ->. exists p. rewrite Ht. reflexivity.
Qed.

Lemma candidate_of_object_text (t : str) :
  let txt := 123 :: t ++ [125] in
  (negb (Z.eqb (find 123 txt) (-1)) && negb (Z.eqb (rfind 125 txt) (-1))
   && Z.ltb (find 123 txt) (rfind 125 txt))%bool = true
  /\ slice txt (find 123 txt) (rfind 125 txt + 1) = txt.
Proof.
  intros txt. subst txt.
  assert (Ef : find 123 (123 :: t ++ [125]) = 0%Z) by reflexivity.
  assert (El : rfind 125 (123 :: t ++ [125])
               = Z.of_nat (S (List.length t))).
  { unfold rfind.
    change (123 :: t ++ [125]) with ((123 :: t) ++ [125]).
    rewrite rfind_from_last. simpl List.length. lia. }
  rewrite Ef, El. split.
  - apply Bool.andb_true_iff. split; [apply Bool.andb_true_iff; split|].
    + reflexivity.
    + apply Bool.negb_true_iff. apply Z.eqb_neq. lia.
    + apply Z.ltb_lt. lia.
  - unfold slice. rewrite Z.sub_0_r. simpl skipn.
    replace (Z.to_nat (Z.of_nat (S (List.length t)) + 1))
      with (List.length (123 :: t ++ [125])).
    + apply firstn_all.
    + simpl. rewrite length_app. simpl. lia.
Qed.

End Suffix.

(** X21: a reply whose text, stripped of surrounding whitespace, is a JSON
    object is parsed to that object by both parsers, the one of the batch
    output processor and the one of the synchronous stage. *)
Theorem X21_object_text_is_parsed_to_the_object :
  forall (content : str) (d : dict),
    json_loads (strip content) = Some (JObj d) ->
    ProcessBatch._extract_json_from_content (JStr content)
    = Return (JObj d)
    /\ Normalize.parse_and_map_output content = JObj d.
Proof.
  intros content d H.
  destruct (@object_text_ends (strip content) d (strip_first content)
              (@strip_last content) H) as [t Ht].
  destruct (candidate_of_object_text t) as [Hc Hs].
  assert (Hne : content <> []).
  { intros ->. discriminate. }
  split.
  - unfold ProcessBatch._extract_json_from_content.
    destruct content as [|c0 content0]; [congruence|].
    cbn [truthy negb].
    unfold ProcessBatch.json_candidate. rewrite Ht.
    change (startswith (123%N :: t ++ [125%N]) ProcessBatch.fence)
      with false.
    cbn [andb]. cbv zeta. unfold str, char in *.
    rewrite Hc, Hs. rewrite <- Ht, H. reflexivity.
  - unfold Normalize.parse_and_map_output.
    destruct content as [|c0 content0]; [congruence|].
    rewrite Ht.
    change (startswith (123%N :: t ++ [125%N]) (lit "```")) with false.
    cbv zeta. unfold str, char in *.
    rewrite Hc, Hs. rewrite <- Ht, H. reflexivity.
Qed.

Lemma X21_object_text_is_parsed_to_the_object_witness :
  ProcessBatch._extract_json_from_content
    (JStr (q "  {'name': 'oil', 'tags': ['a', 'b']}  "))
  = Return
      (JObj [(lit "name", JStr (lit "oil"));
             (lit "tags", JArr [JStr (lit "a"); JStr (lit "b")])])
  /\ Normalize.parse_and_map_output
       (q "  {'name': 'oil', 'tags': ['a', 'b']}  ")
     = JObj [(lit "name", JStr (lit "oil"));
             (lit "tags", JArr [JStr (lit "a"); JStr (lit "b")])].
Proof.
  apply X21_object_text_is_parsed_to_the_object.
  vm_compute. reflexivity.
Defined.

(** X22: on a reply that does not start with a code fence, every mapping
    the parser of the synchronous stage returns is also what the parser
    of the batch output processor returns. *)
Theorem X22_parsers_agree_without_fence :
  forall (content : str) (d : dict),
    startswith (strip content) (lit "```") = false ->
    Normalize.parse_and_map_output content = JObj d ->
    ProcessBatch._extract_json_from_content (JStr content)
    = Return (JObj d).
Proof.
  intros content d Hf.
  unfold Normalize.parse_and_map_output,
    ProcessBatch._extract_json_from_content, ProcessBatch.json_candidate,
    ProcessBatch.fence.
  destruct content as [|c0 content0]; [discriminate|].
  cbn [truthy negb]. rewrite Hf. cbn [andb]. cbv zeta.
  destruct (json_loads _) as [[| | | | | |d']|]; try discriminate.
  intros [= ->]. reflexivity.
Qed.

Lemma X22_parsers_agree_without_fence_witness :
  ProcessBatch._extract_json_from_content
    (JStr (q "Here it is: {'name': 'oil'} (done)"))
  = Return (JObj [(lit "name", JStr (lit "oil"))]).
Proof.
  apply X22_parsers_agree_without_fence; vm_compute; reflexivity.
Defined.

Section AroundTheObject.

Local Open Scope N_scope.

Lemma lstrip_app_core (pre rest : str) (x : char) :
  is_space x = false -> lstrip (pre ++ x :: rest) = lstrip pre ++ x :: rest.
Proof.
  intros Hx. induction pre as [|c pre IH]; simpl; [rewrite Hx; reflexivity|].
  destruct (is_space c); [exact IH | reflexivity].
Qed.

Lemma rstrip_app_core (a post : str) (y : char) :
  is_space y = false -> rstrip (a ++ y :: post) = a ++ y :: rstrip post.
Proof.
  intros Hy. unfold rstrip.
  rewrite rev_app_distr. cbn [rev]. rewrite <- app_assoc. cbn [app].
  rewrite lstrip_app_core by exact Hy.
  rewrite rev_app_distr. cbn [rev]. rewrite rev_involutive.
  rewrite <- app_assoc. reflexivity.
Qed.

Lemma lstrip_contains (c : char) (s : str) :
  contains c s = false -> contains c (lstrip s) = false.
Proof.
  unfold contains. induction s as [|x s IH]; simpl; [reflexivity|].
  intros H. apply Bool.orb_false_iff in H. destruct H as [H1 H2].
  destruct (is_space x); [apply IH; exact H2|].
  simpl. rewrite H1, H2. reflexivity.
Qed.

Lemma rstrip_contains (c : char) (s : str) :
  contains c s = false -> contains c (rstrip s) = false.
Proof.
  unfold rstrip, contains. intros H.
  assert (Hr : forall l, existsb (char_eqb c) (rev l) = existsb (char_eqb c) l).
  { induction l as [|x l IH]; simpl; [reflexivity|].
    rewrite existsb_app, IH. simpl. rewrite Bool.orb_false_r.
    apply Bool.orb_comm. }
  rewrite Hr. apply lstrip_contains. unfold contains. rewrite Hr. exact H.
Qed.

Lemma find_from_skip (c : char) (pre rest : str) :
  contains c pre = false ->
  forall i,
    find_from c (pre ++ c :: rest) i = (i + Z.of_nat (List.length pre))%Z.
Proof.
  unfold contains. induction pre as [|x pre IH]; intros H i; simpl.
  - unfold char_eqb. rewrite N.eqb_refl. lia.
  - simpl in H. apply Bool.orb_false_iff in H. destruct H as [H1 H2].
    unfold char_eqb in *. rewrite N.eqb_sym, H1, IH by exact H2. lia.
Qed.

Lemma rfind_from_none (c : char) (post : str) :
  contains c post = false ->
  forall i best, rfind_from c post i best = best.
Proof.
  unfold contains. induction post as [|x post IH]; intros H i best; simpl;
    [reflexivity|].
  simpl in H. apply Bool.orb_false_iff in H. destruct H as [H1 H2].
  unfold char_eqb in *. rewrite N.eqb_sym, H1. apply IH. exact H2.
Qed.

Lemma rfind_from_app (c : char) (a b : str) :
  forall i best,
    rfind_from c (a ++ b) i best
    = rfind_from c b (i + Z.of_nat (List.length a))%Z (rfind_from c a i best).
Proof.
  induction a as [|x a IH]; intros i best; simpl.
  - rewrite Z.add_0_r. reflexivity.
  - rewrite IH. f_equal. lia.
Qed.

(** The candidate cut from a text that has an opening brace first in
    [mid] and a closing brace last in it. *)
Lemma candidate_between_braces (pre t post : str) :
  contains 123 pre = false -> contains 125 post = false ->
  let txt := pre ++ (123 :: t ++ [125]) ++ post in
  (negb (Z.eqb (find 123 txt) (-1)) && negb (Z.eqb (rfind 125 txt) (-1))
   && Z.ltb (find 123 txt) (rfind 125 txt))%bool = true
  /\ slice txt (find 123 txt) (rfind 125 txt + 1) = 123 :: t ++ [125].
Proof.
  intros Hpre Hpost txt.
  assert (Ef : find 123 txt = Z.of_nat (List.length pre)).
  { subst txt. unfold find. cbn [app].
    rewrite find_from_skip by exact Hpre. lia. }
  assert (El : rfind 125 txt
               = Z.of_nat (List.length pre + S (List.length t))).
  { subst txt. unfold rfind.
    rewrite rfind_from_app.
    change (123 :: t ++ [125]) with ((123 :: t) ++ [125]).
    rewrite <- app_assoc. rewrite rfind_from_app.
    cbn [app rfind_from]. unfold char_eqb at 1. rewrite N.eqb_refl.
    rewrite rfind_from_none by exact Hpost. simpl List.length. lia. }
  rewrite Ef, El. split.
  - apply Bool.andb_true_iff. split; [apply Bool.andb_true_iff; split|].
    + apply Bool.negb_true_iff. apply Z.eqb_neq. lia.
    + apply Bool.negb_true_iff. apply Z.eqb_neq. lia.
    + apply Z.ltb_lt. lia.
  - unfold slice. subst txt.
    rewrite Nat2Z.id.
    rewrite skipn_app, skipn_all, Nat.sub_diag.
    change ([] ++ skipn 0 ((123 :: t ++ [125]) ++ post))
      with ((123 :: t ++ [125]) ++ post).
    replace (Z.to_nat (Z.of_nat (List.length pre + S (List.length t)) + 1
                       - Z.of_nat (List.length pre)))
      with (Nat.add (List.length (123 :: t ++ [125])) 0).
    + rewrite firstn_app_2. cbn [firstn]. apply app_nil_r.
    + cbn [List.length]. rewrite length_app. cbn [List.length]. lia.
Qed.

Lemma strip_around_braces (pre t post : str) :
  strip (pre ++ 123 :: t ++ 125 :: post)
  = lstrip pre ++ (123 :: t ++ [125]) ++ rstrip post.
Proof.
  unfold strip. rewrite lstrip_app_core by reflexivity.
  assert (E : lstrip pre ++ 123 :: t ++ 125 :: post
              = (lstrip pre ++ 123 :: t) ++ 125 :: post)
    by (rewrite <- app_assoc; reflexivity).
  pose proof (@rstrip_app_core (lstrip pre ++ 123 :: t) post 125 eq_refl)
    as R.
  unfold str, char in *. rewrite E, R.
  repeat (rewrite <- app_assoc || rewrite <- app_comm_cons).
  reflexivity.
Qed.

End AroundTheObject.

(** X23: text around the object is ignored.  When a reply has a JSON
    object between its first opening brace and its last closing brace,
    and does not start with a code fence, both parsers return that
    object, whatever precedes the first brace and follows the last. *)
Theorem X23_text_around_the_object_is_ignored :
  forall (pre t post : str) (d : dict),
    contains 123%N pre = false ->
    contains 125%N post = false ->
    startswith (strip (pre ++ 123%N :: t ++ 125%N :: post)) (lit "```")
    = false ->
    json_loads (123%N :: t ++ [125%N]) = Some (JObj d) ->
    ProcessBatch._extract_json_from_content
      (JStr (pre ++ 123%N :: t ++ 125%N :: post))
    = Return (JObj d)
    /\ Normalize.parse_and_map_output (pre ++ 123%N :: t ++ 125%N :: post)
       = JObj d.
Proof.
  intros pre t post d Hpre Hpost Hf H.
  pose proof (@candidate_between_braces (lstrip pre) t (rstrip post)
                (lstrip_contains _ _ Hpre) (rstrip_contains _ _ Hpost))
    as [Hc Hs].
  rewrite <- strip_around_braces in Hc, Hs.
  set (content := pre ++ 123%N :: t ++ 125%N :: post) in *.
  assert (Hne : exists c0 content0, content = c0 :: content0).
  { subst content. destruct pre; simpl; eauto. }
  destruct Hne as (c0 & content0 & Ec).
  split.
  - unfold ProcessBatch._extract_json_from_content,
      ProcessBatch.json_candidate, ProcessBatch.fence.
    rewrite Ec at 1. cbn [truthy negb].
    rewrite Hf. cbn [andb]. cbv zeta. unfold str, char in *.
    rewrite Hc, Hs, H. reflexivity.
  - unfold Normalize.parse_and_map_output. rewrite Ec at 1.
    rewrite Hf. cbv zeta. unfold str, char in *.
    rewrite Hc, Hs, H. reflexivity.
Qed.

Lemma X23_text_around_the_object_is_ignored_witness :
  ProcessBatch._extract_json_from_content
    (JStr (lit "Result: " ++ 123%N :: q "'name': 'oil'"
             ++ 125%N :: lit " -- end"))
  = Return (JObj [(lit "name", JStr (lit "oil"))])
  /\ Normalize.parse_and_map_output
       (lit "Result: " ++ 123%N :: q "'name': 'oil'"
          ++ 125%N :: lit " -- end")
     = JObj [(lit "name", JStr (lit "oil"))].
Proof.
  apply X23_text_around_the_object_is_ignored; vm_compute; reflexivity.
Defined.

Section NoBrace.

Local Open Scope N_scope.

Lemma scan_elements_acc (fuel : nat) :
  forall s acc v r,
    scan_elements fuel s acc = Some (v, r) ->
    exists more, v = JArr (rev acc ++ more).
Proof.
  induction fuel as [|f IH]; intros s acc v r; simpl; [discriminate|].
  destruct (scan_once f s) as [[v0 r1]|]; [|discriminate].
  destruct (head_is 93 (skip_ws r1)) as [r2|].
  - intros [= <- _]. exists [v0]. reflexivity.
  - destruct (head_is 44 (skip_ws r1)) as [r2|]; [|discriminate].
    intros H. apply IH in H. destruct H as [more ->].
    exists (v0 :: more). simpl. rewrite <- app_assoc. reflexivity.
Qed.

Lemma scan_elements_first (fuel : nat) (s : str) (v : json) (r : str) :
  scan_elements fuel s [] = Some (v, r) ->
  exists f0 v0 r1 more,
    scan_once f0 s = Some (v0, r1) /\ v = JArr (v0 :: more).
Proof.
  destruct fuel as [|f]; [discriminate|]. simpl.
  destruct (scan_once f s) as [[v0 r1]|] eqn:E1; [|discriminate].
  destruct (head_is 93 (skip_ws r1)) as [r2|].
  - intros [= <- _]. exists f, v0, r1, []. split; [exact E1 | reflexivity].
  - destruct (head_is 44 (skip_ws r1)) as [r2|]; [|discriminate].
    intros H. apply scan_elements_acc in H. destruct H as [more ->].
    exists f, v0, r1, more. split; [exact E1 | reflexivity].
Qed.

Lemma scan_number_scalar (s : str) (v : json) (r : str) :
  scan_number s = Some (v, r) ->
  match v with JStr _ | JArr _ | JObj _ => False | _ => True end.
Proof.
  unfold scan_number.
  destruct (match head_is _ s with Some r0 => _ | None => _ end)
    as [neg [|c r1]]; [discriminate|].
  destruct (is_digit c); [|discriminate].
  destruct (if char_eqb c _ then _ else _) as [ip r2].
  destruct (scan_fraction r2) as [fp r3].
  destruct (scan_exponent r3) as [ex r4].
  destruct fp, ex; intros [= <- <-]; exact I.
Qed.

Lemma scan_constant_scalar (s : str) (v : json) (r : str) :
  scan_constant s = Some (v, r) ->
  match v with JStr _ | JArr _ | JObj _ => False | _ => True end.
Proof.
  unfold scan_constant.
  pose proof (scan_number_scalar s) as Hn.
  destruct (scan_number s) as [[v0 r0]|].
  - repeat match goal with
           | |- context [after_prefix ?p s] => destruct (after_prefix p s)
           end;
      intros [= <- <-]; try exact I. eapply Hn. reflexivity.
  - repeat match goal with
           | |- context [after_prefix ?p s] => destruct (after_prefix p s)
           end;
      try discriminate; intros [= <- <-]; exact I.
Qed.

Lemma scan_once_needs_brace (fuel : nat) (s : str) (v : json) (r : str) :
  scan_once fuel s = Some (v, r) ->
  match v with
  | JObj _ | JArr (JObj _ :: _) => True
  | _ => False
  end ->
  In 123 s.
Proof.
  destruct fuel as [|f]; [discriminate|].
  destruct s as [|c t]; [discriminate|]. cbn [scan_once].
  destruct (char_eqb c 34).
  { destruct (scanstring t 0%nat []) as [[? ?]|]; [|discriminate].
    intros [= <- _] Hv. contradiction. }
  destruct (char_eqb c 123) eqn:E123.
  { intros _ _. left. apply char_eqb_eq in E123. exact E123. }
  destruct (char_eqb c 91).
  { destruct (head_is 93 (skip_ws t)); [intros [= <- _] Hv; contradiction|].
    intros H Hv. apply scan_elements_first in H.
    destruct H as (f0 & v0 & r1 & more & E1 & ->).
    destruct v0; try contradiction.
    destruct (proj2 (proj1 (scan_props _) _ _ _ E1) I) as (t' & Et & _).
    right. apply (proj1 (skip_ws_leaves t)). rewrite Et. left. reflexivity. }
  intros H Hv. apply scan_constant_scalar in H.
  destruct v as [| | | | |[|[| | | | | |first] l]|d]; contradiction.
Qed.

(** A text that decodes to an object, or to a list whose first element
    is one, has an opening brace. *)
Lemma json_loads_needs_brace (s : str) (v : json) :
  json_loads s = Some v ->
  match v with
  | JObj _ | JArr (JObj _ :: _) => True
  | _ => False
  end ->
  contains 123 s = true.
Proof.
  unfold json_loads. destruct (startswith s [65279]); [discriminate|].
  destruct (scan_once _ (skip_ws s)) as [[v0 rest]|] eqn:E; [|discriminate].
  destruct (skip_ws rest); [|discriminate].
  intros [= ->] Hv.
  apply contains_in. apply (proj1 (skip_ws_leaves s)).
  eapply scan_once_needs_brace; [exact E | exact Hv].
Qed.

Lemma find_from_none (c : char) (s : str) :
  contains c s = false -> forall i, find_from c s i = (-1)%Z.
Proof.
  unfold contains. induction s as [|x s IH]; intros H i; simpl;
    [reflexivity|].
  simpl in H. apply Bool.orb_false_iff in H. destruct H as [H1 H2].
  unfold char_eqb in *. rewrite N.eqb_sym, H1. apply IH. exact H2.
Qed.

Lemma contains_app (c : char) (a b : str) :
  contains c (a ++ b) = contains c a || contains c b.
Proof. unfold contains. apply existsb_app. Qed.

Lemma contains_rev (c : char) (l : str) : contains c (rev l) = contains c l.
Proof.
  unfold contains. induction l as [|x l IH]; simpl; [reflexivity|].
  rewrite existsb_app, IH. simpl. rewrite Bool.orb_false_r.
  apply Bool.orb_comm.
Qed.

Lemma strip_contains (c : char) (s : str) :
  contains c s = false -> contains c (strip s) = false.
Proof.
  intros H. unfold strip. apply rstrip_contains, lstrip_contains. exact H.
Qed.

Lemma splitlines_contains (c : char) (n : nat) :
  forall s cur,
    (List.length s <= n)%nat ->
    contains c s = false -> contains c cur = false ->
    Forall (fun ln => contains c ln = false) (splitlines_aux s cur).
Proof.
  induction n as [|n IH]; intros s cur Hl Hs Hc.
  - destruct s; [|simpl in Hl; lia].
    simpl. destruct cur; [constructor|].
    constructor; [rewrite contains_rev; exact Hc | constructor].
  - destruct s as [|x s].
    { simpl. destruct cur; [constructor|].
      constructor; [rewrite contains_rev; exact Hc | constructor]. }
    simpl in Hl. unfold contains in Hs. simpl in Hs.
    apply Bool.orb_false_iff in Hs. destruct Hs as [Hx Hs].
    assert (Hr : contains c (rev cur) = false)
      by (rewrite contains_rev; exact Hc).
    assert (Hn : contains c [] = false) by reflexivity.
    cbn [splitlines_aux].
    destruct (char_eqb x 13).
    + destruct s as [|d s'].
      * constructor; [exact Hr | constructor].
      * simpl in Hl. simpl in Hs.
        apply Bool.orb_false_iff in Hs. destruct Hs as [Hd Hs'].
        destruct (char_eqb d 10).
        -- constructor; [exact Hr|]. apply IH; [lia | exact Hs' | exact Hn].
        -- constructor; [exact Hr|].
           apply IH; [simpl; lia | | exact Hn].
           unfold contains. simpl. rewrite Hd. exact Hs'.
    + destruct (is_linebreak x).
      * constructor; [exact Hr|]. apply IH; [lia | exact Hs | exact Hn].
      * apply IH; [lia | exact Hs|]. unfold contains. simpl.
        rewrite Hx. exact Hc.
Qed.

Lemma join_contains (c : char) (parts : list str) :
  contains c nl = false ->
  Forall (fun ln => contains c ln = false) parts ->
  contains c (join nl parts) = false.
Proof.
  intros Hnl H. induction H as [|p parts Hp Hparts IH]; [reflexivity|].
  cbn [join]. destruct parts as [|p' parts']; [exact Hp|].
  rewrite !contains_app, Hp, Hnl, IH. reflexivity.
Qed.

Lemma drop_first_last_forall (A : Type) (P : A -> Prop) (l : list A) :
  Forall P l -> Forall P (drop_first_last l).
Proof.
  unfold drop_first_last. intros H.
  assert (Ht : Forall P (tl l)) by (destruct H; [constructor | assumption]).
  induction Ht as [|x t Hx Ht' IH]; [constructor|].
  simpl. destruct t; [constructor|]. constructor; [exact Hx | exact IH].
Qed.

Lemma replace_contains (c : char) (old new s : str) :
  contains c new = false -> contains c s = false ->
  forall k, contains c (replace_aux old new k s) = false.
Proof.
  intros Hn. induction s as [|x s IH]; intros Hs k; [reflexivity|].
  unfold contains in Hs. simpl in Hs.
  apply Bool.orb_false_iff in Hs. destruct Hs as [Hx Hs].
  cbn [replace_aux]. destruct k as [|k]; [|apply IH; exact Hs].
  destruct (startswith (x :: s) old).
  - rewrite contains_app, Hn, IH by exact Hs. reflexivity.
  - unfold contains. simpl. rewrite Hx. apply IH. exact Hs.
Qed.

Lemma no_brace_no_mapping (s : str) :
  contains 123 s = false ->
  match json_loads s with
  | Some (JObj _) | Some (JArr (JObj _ :: _)) => False
  | _ => True
  end.
Proof.
  intros H. destruct (json_loads s) as [v|] eqn:E; [|exact I].
  pose proof (json_loads_needs_brace s E) as Hb.
  destruct v as [| | | | |[|[| | | | | |first] l]|d]; try exact I;
    rewrite Hb in H; try discriminate; exact I.
Qed.

Lemma candidate_no_brace (content : str) :
  contains 123 content = false ->
  contains 123 (ProcessBatch.json_candidate content) = false.
Proof.
  intros H. unfold ProcessBatch.json_candidate.
  pose proof (strip_contains _ _ H) as Hs.
  set (txt := if _ && _ then _ else strip content).
  assert (Ht : contains 123 txt = false).
  { subst txt. destruct (_ && _); [|exact Hs].
    destruct (Nat.leb 3 _); [|exact Hs].
    apply strip_contains, join_contains; [reflexivity|].
    apply drop_first_last_forall.
    apply (@splitlines_contains _ _ _ [] (le_n _)); [exact Hs | reflexivity]. }
  unfold find. rewrite (find_from_none _ _ Ht). exact Ht.
Qed.

End NoBrace.

(** X24: a reply without an opening brace gives no mapping: both parsers
    return none, with or without a code fence around the text. *)
Theorem X24_no_brace_no_mapping :
  forall (content : str),
    contains 123%N content = false ->
    ProcessBatch._extract_json_from_content (JStr content) = Return JNull
    /\ Normalize.parse_and_map_output content = JNull.
Proof.
  intros content H. split.
  - unfold ProcessBatch._extract_json_from_content.
    destruct (negb (truthy (JStr content))); [reflexivity|].
    pose proof (candidate_no_brace _ H) as Hc.
    pose proof (no_brace_no_mapping _ Hc) as H1.
    pose proof (no_brace_no_mapping _
                  (@replace_contains 123%N ProcessBatch.escaped_quote
                     ProcessBatch.quote _ eq_refl Hc 0%nat)) as H2.
    fold (replace (ProcessBatch.json_candidate content)
            ProcessBatch.escaped_quote ProcessBatch.quote) in H2.
    destruct (json_loads (ProcessBatch.json_candidate content))
      as [[| | | | |[|[| | | | | |first] l]|d]|];
      try reflexivity; try contradiction.
    destruct (json_loads (replace _ _ _)) as [[| | | | | |d]|];
      try reflexivity; contradiction.
  - unfold Normalize.parse_and_map_output.
    destruct content as [|c0 content0]; [reflexivity|].
    pose proof (strip_contains _ _ H) as Hs.
    set (txt := if startswith _ _ then _ else strip (c0 :: content0)).
    assert (Ht : contains 123%N txt = false).
    { subst txt. destruct (startswith _ _); [|exact Hs].
      apply join_contains; [reflexivity|].
      apply drop_first_last_forall.
      apply (@splitlines_contains _ _ _ [] (le_n _)); [exact Hs | reflexivity]. }
    cbv zeta. unfold find. rewrite (find_from_none _ _ Ht).
    rewrite Z.eqb_refl. cbn [negb andb].
    pose proof (no_brace_no_mapping _ Ht) as H1.
    destruct (json_loads txt) as [[| | | | | |d]|];
      try reflexivity; contradiction.
Qed.

Lemma X24_no_brace_no_mapping_witness :
  ProcessBatch._extract_json_from_content
    (JStr (q "[1, 2, 'three']"))
  = Return JNull
  /\ Normalize.parse_and_map_output (q "[1, 2, 'three']") = JNull.
Proof.
  apply X24_no_brace_no_mapping. vm_compute. reflexivity.
Defined.

(** ** The deep search for a content *)

Section DeepSearch.
Context {rt : Runtime}.
Import ProcessBatch.

Lemma json_nested_ind (P : json -> Prop) :
  P JNull -> (forall b, P (JBool b)) -> (forall n, P (JInt n)) ->
  (forall f, P (JFloat f)) -> (forall s, P (JStr s)) ->
  (forall l, Forall P l -> P (JArr l)) ->
  (forall d, Forall (fun kv => P (snd kv)) d -> P (JObj d)) ->
  forall v, P v.
Proof.
  intros Hnull Hbool Hint Hfloat Hstr Harr Hobj.
  fix IH 1. intros [| b | n | f | s | l | d].
  - exact Hnull.
  - apply Hbool.
  - apply Hint.
  - apply Hfloat.
  - apply Hstr.
  - apply Harr. induction l as [|x l IHl]; constructor; [apply IH | exact IHl].
  - apply Hobj. induction d as [|[k x] d IHd]; constructor;
      [apply IH | exact IHd].
Qed.

Lemma search_list_shape (l : list json) :
  Forall (fun x => search_for_content x = JNull
                   \/ is_content_string (search_for_content x) = true) l ->
  let found :=
    (fix over_list (l' : list json) : json :=
       match l' with
       | [] => JNull
       | item :: r =>
           let found := search_for_content item in
           if truthy found then found else over_list r
       end) l in
  found = JNull \/ is_content_string found = true.
Proof.
  induction 1 as [|y l Hy Hl IH]; [left; reflexivity|].
  cbv zeta in *.
  destruct (truthy (search_for_content y)); [exact Hy | exact IH].
Qed.

Lemma search_for_content_shape (v : json) :
  (search_for_content v = JNull
   \/ is_content_string (search_for_content v) = true)
  /\ (forall l, v = JArr l ->
        Forall (fun x => search_for_content x = JNull
                         \/ is_content_string (search_for_content x) = true)
          l).
Proof.
  induction v as [| b | n | f | s | l IHl | d IHd] using json_nested_ind;
    try (split; [left; reflexivity | intros l0; discriminate]).
  - split; [left; reflexivity|].
    intros l0 [= <-]. eapply Forall_impl; [|exact IHl].
    intros x Hx. exact (proj1 Hx).
  - split; [|intros l0; discriminate].
    induction IHd as [|[k x] d [Hx Hxl] Hd IH]; [left; reflexivity|].
    cbn [search_for_content] in *.
    destruct (str_eqb k (lit "content") && is_content_string x) eqn:E.
    + right. apply Bool.andb_true_iff in E. apply E.
    + simpl snd in *.
      destruct x as [| b | n | f | s | l | d']; try exact IH.
      * pose proof (search_list_shape (Hxl l eq_refl)) as Ho.
        cbv zeta in Ho |- *.
        match goal with
        | |- context [if truthy ?o then _ else _] => destruct (truthy o)
        end; [exact Ho | exact IH].
      * cbv zeta.
        match goal with
        | |- context [if truthy ?o then _ else _] => destruct (truthy o)
        end; [exact Hx | exact IH].
Qed.

End DeepSearch.

(** X25: the deep search for a content returns none or a string that has
    an opening brace, a closing bracket or a double quote in it; it never
    returns a number, a boolean, a list or a mapping. *)
Theorem X25_deep_search_returns_json_like_string :
  forall (d : json),
    ProcessBatch.search_for_content d = JNull
    \/ exists s,
         ProcessBatch.search_for_content d = JStr s
         /\ (contains 123%N s || contains 93%N s || contains 34%N s) = true.
Proof.
  intros d. destruct (proj1 (search_for_content_shape d)) as [H|H];
    [left; exact H|].
  right. destruct (ProcessBatch.search_for_content d); try discriminate.
  eexists. split; [reflexivity | exact H].
Qed.

(** ** The writing loop of the synchronous stage *)

Section Stage.
Context {rt : Runtime}.
Import Normalize.

Lemma writerow_header_row (header : list str) (f : str -> json) (w : world) :
  writerow header (dict_comprehension header f) w
  = if row_encodable (dict_comprehension header f)
    then (Return tt, write_csv (CsvRow (dict_comprehension header f)) w)
    else (Raised, w).
Proof.
  unfold writerow.
  assert (H : forallb (fun k => existsb (str_eqb k) header)
                (keys (dict_comprehension header f)) = true).
  { apply forallb_forall. intros k Hk. apply keys_dict_comprehension in Hk.
    apply existsb_exists. exists k. split; [exact Hk | apply str_eqb_refl]. }
  rewrite H. destruct (row_encodable _); reflexivity.
Qed.

Lemma stage_cell_idem (v : json) :
  Cover.stage_cell (Cover.stage_cell v) = Cover.stage_cell v.
Proof. destruct v; reflexivity. Qed.

(** The conversion of one column of the row, seen through a lookup. *)
Lemma convert_get (row : dict) (a k : str) :
  dict_get
    match dict_get row a with
    | (JArr _ | JObj _) as v => dict_set row a (JStr (json_dumps v))
    | _ => row
    end k
  = if str_eqb a k then Cover.stage_cell (dict_get row k) else dict_get row k.
Proof.
  destruct (str_eqb a k) eqn:E.
  - apply str_eqb_eq in E. subst k.
    destruct (dict_get row a) eqn:Ea; cbn [Cover.stage_cell];
      rewrite ?Ea, ?dict_get_set_same; reflexivity.
  - destruct (dict_get row a); try reflexivity;
      apply dict_get_set_other; exact E.
Qed.

Lemma convert_fold_get (header : list str) (row : dict) (k : str) :
  dict_get
    (fold_left
       (fun row k =>
          match dict_get row k with
          | (JArr _ | JObj _) as v => dict_set row k (JStr (json_dumps v))
          | _ => row
          end)
       header row) k
  = if existsb (str_eqb k) header then Cover.stage_cell (dict_get row k)
    else dict_get row k.
Proof.
  revert row; induction header as [|a l IH]; intros row;
    cbn [fold_left existsb]; [reflexivity|].
  rewrite IH, convert_get.
  destruct (str_eqb a k) eqn:E.
  - assert (H : str_eqb k a = true)
      by (apply str_eqb_eq; apply str_eqb_eq in E; auto).
    rewrite H. cbn [orb]. rewrite stage_cell_idem.
    destruct (existsb _ l); reflexivity.
  - assert (H : str_eqb k a = false)
      by (apply str_eqb_neq; apply str_eqb_neq in E; auto).
    rewrite H. reflexivity.
Qed.

Lemma dict_comprehension_ext (cols : list str) (f g : str -> json) :
  (forall k, In k cols -> f k = g k) ->
  dict_comprehension cols f = dict_comprehension cols g.
Proof.
  unfold dict_comprehension. generalize (@nil (str * json)).
  induction cols as [|c cols IH]; intros d H; cbn [fold_left];
    [reflexivity|].
  rewrite (H c) by (left; reflexivity).
  apply IH. intros k Hk. apply H. right. exact Hk.
Qed.

(** The row handed to the writer is the row of [Cover.stage_cell]s. *)
Lemma converted_row (header : list str) (row : dict) :
  dict_comprehension header
    (fun k =>
       dict_get
         (fold_left
            (fun row k =>
               match dict_get row k with
               | (JArr _ | JObj _) as v =>
                   dict_set row k (JStr (json_dumps v))
               | _ => row
               end)
            header row) k)
  = dict_comprehension header (fun k => Cover.stage_cell (dict_get row k)).
Proof.
  apply dict_comprehension_ext. intros k Hk. rewrite convert_fold_get.
  assert (H : existsb (str_eqb k) header = true).
  { apply existsb_exists. exists k. split; [exact Hk | apply str_eqb_refl]. }
  rewrite H. reflexivity.
Qed.

(** The loop over the completed futures, for a body that writes the row
    of a future that has one, logs the failure of one that has not, and
    logs the progress after every fiftieth. *)
Lemma stage_loop (body : nat * nat -> M world unit)
  (written : nat -> option dict) (total : nat) :
  (forall position idx w,
      body (position, idx) w
      = (Return tt,
         let w1 :=
           match written idx with
           | Some row =>
               logger (LogJobProcessed idx) (write_csv (CsvRow row) w)
           | None => logger (LogFutureFailed idx) w
           end in
         if Nat.eqb (Nat.modulo (S position) 50) 0
         then logger (LogProgress (S position) total) w1
         else w1)) ->
  forall l start w c,
    csv_file w = Some c ->
    for_each (enumerate_from start l) body w
    = (Return tt,
       {| jsonl_file := jsonl_file w;
          csv_file :=
            Some (c ++ map CsvRow
                         (flat_map
                            (fun idx =>
                               match written idx with
                               | Some row => [row]
                               | None => []
                               end) l));
          log :=
            log w
            ++ flat_map
                 (fun '(position, idx) =>
                    match written idx with
                    | Some _ => LogJobProcessed idx
                    | None => LogFutureFailed idx
                    end
                    :: (if Nat.eqb (Nat.modulo (S position) 50) 0
                        then [LogProgress (S position) total]
                        else []))
                 (combine (seq start (List.length l)) l) |}).
Proof.
  intros Hstep. induction l as [|idx l IH]; intros start w c Hc.
  - cbn. unfold ret. rewrite !app_nil_r.
    destruct w; cbn in *; subst; reflexivity.
  - cbn [enumerate_from for_each]. unfold bind. rewrite Hstep. cbv zeta.
    cbn [List.length seq combine flat_map map].
    destruct (written idx) as [row|] eqn:Ew;
      destruct (Nat.eqb (Nat.modulo (S start) 50) 0);
      erewrite IH
        by (cbn [csv_file logger write_csv]; rewrite ?Hc; reflexivity);
      cbn [jsonl_file csv_file log logger write_csv map app];
      rewrite <- ?app_assoc; reflexivity.
Qed.

End Stage.

(** X26: the writing loop of the synchronous stage never raises and never
    writes a placeholder.  A future whose worker returned a row that is not
    empty and whose cells can be encoded gets that row written, lists and
    mappings serialized, and is logged as processed; every other future
    (no reply that parses, an empty row, an index without record, a cell
    with a surrogate) only has its failure logged, the placeholder code
    raising before it writes.  After every fiftieth future the loop logs
    the progress, and at the end the number of futures.  The log is that
    of the loop itself, the entries of the workers apart.  The batch
    request file is not touched. *)
Theorem X26_synchronous_stage_never_raises :
  forall (rt : Runtime) (header : list str) (write_header : bool)
         (all_records : list (dict * dict)) (max_retries : Z)
         (w : Normalize.world),
    let r :=
      Normalize.synchronous_stage header write_header all_records
        max_retries w in
    let completed := as_completed (List.length all_records) in
    fst r = Return tt
    /\ Normalize.jsonl_file (snd r) = Normalize.jsonl_file w
    /\ Normalize.log (snd r)
       = Normalize.log w
         ++ Cover.stage_entries header max_retries all_records completed
         ++ [Normalize.LogComplete (List.length completed)]
    /\ Normalize.csv_file (snd r)
       = Some (match Normalize.csv_file w with Some l => l | None => [] end
               ++ (if write_header then [Normalize.CsvHeader header] else [])
               ++ map Normalize.CsvRow
                    (Cover.stage_rows header max_retries all_records
                       completed)).
Proof.
  intros rt header write_header all_records max_retries w r completed.
  assert (Hrun : r
             = (Return tt,
                {| Normalize.jsonl_file := Normalize.jsonl_file w;
                   Normalize.csv_file :=
                     Some (match Normalize.csv_file w with
                           | Some l => l
                           | None => []
                           end
                           ++ (if write_header
                               then [Normalize.CsvHeader header] else [])
                           ++ map Normalize.CsvRow
                                (Cover.stage_rows header max_retries
                                   all_records completed));
                   Normalize.log :=
                     Normalize.log w
                     ++ Cover.stage_entries header max_retries all_records
                          completed
                     ++ [Normalize.LogComplete (List.length completed)] |})).
  { subst r. unfold Normalize.synchronous_stage. cbv zeta. fold completed.
    match goal with
    | |- context [for_each _ ?b] => set (body := b)
    end.
    assert (Hstep : forall position idx w0,
               body (position, idx) w0
               = (Return tt,
                  let w1 :=
                    match
                      Cover.stage_row header max_retries all_records idx
                    with
                    | Some row =>
                        Normalize.logger (Normalize.LogJobProcessed idx)
                          (Normalize.write_csv (Normalize.CsvRow row) w0)
                    | None =>
                        Normalize.logger (Normalize.LogFutureFailed idx) w0
                    end in
                  if Nat.eqb (Nat.modulo (S position) 50) 0
                  then Normalize.logger
                         (Normalize.LogProgress (S position)
                            (List.length all_records)) w1
                  else w1)).
    { intros position idx w0. subst body. cbv beta iota zeta.
      unfold Cover.stage_row, Cover.job_row.
      unfold bind at 1. unfold try_except.
      destruct (nth_error all_records idx) as [[det raw]|].
      2:{ cbn. destruct (Nat.eqb _ 0); reflexivity. }
      destruct (Normalize.worker_job header max_retries idx (det, raw))
        as [[|e row]|].
      - unfold bind at 1.
        destruct (keys raw) as [|k1 [|k2 [|k3 ks]]]; cbn;
          destruct (Nat.eqb _ 0); reflexivity.
      - unfold bind at 1. rewrite writerow_header_row, converted_row.
        cbv zeta.
        destruct (row_encodable _); cbn; destruct (Nat.eqb _ 0);
          reflexivity.
      - unfold bind at 1.
        destruct (keys raw) as [|k1 [|k2 [|k3 ks]]]; cbn;
          destruct (Nat.eqb _ 0); reflexivity. }
    set (c1 := match Normalize.csv_file w with Some l => l | None => [] end).
    set (hdr := if write_header then [Normalize.CsvHeader header] else []).
    assert (Hw2 : exists w2,
               (if write_header
                then modify (Normalize.write_csv (Normalize.CsvHeader header))
                else ret tt) (Normalize.open_csv_a w) = (Return tt, w2)
               /\ Normalize.csv_file w2 = Some (c1 ++ hdr)
               /\ Normalize.jsonl_file w2 = Normalize.jsonl_file w
               /\ Normalize.log w2 = Normalize.log w).
    { subst c1 hdr. destruct write_header; eexists; split;
        try reflexivity; simpl; rewrite ?app_nil_r; auto. }
    destruct Hw2 as (w2 & Hw2 & Hc2 & Hj2 & Hl2).
    pose proof (stage_loop body _ _ Hstep completed 0 w2 Hc2) as Hloop.
    unfold bind at 1. unfold modify at 1. cbv beta iota.
    unfold bind at 1. rewrite Hw2. cbv beta iota.
    unfold bind at 1. unfold Normalize.enumerate. rewrite Hloop.
    cbv beta iota. unfold modify.
    unfold Normalize.logger, Cover.stage_entries, Cover.stage_rows.
    cbn [Normalize.jsonl_file Normalize.log Normalize.csv_file].
    rewrite Hj2, Hl2, <- !app_assoc. reflexivity. }
  rewrite Hrun. cbn [fst snd].
  cbn [Normalize.jsonl_file Normalize.log Normalize.csv_file].
  repeat split; reflexivity.
Qed.

(** ** The progress entries of the batch output processor *)

Section Progress.
Context {rt : Runtime}.
Import ProcessBatch.

Lemma progress_counts_app (l1 l2 : list log_event) :
  Cover.progress_counts (l1 ++ l2)
  = Cover.progress_counts l1 ++ Cover.progress_counts l2.
Proof. unfold Cover.progress_counts. apply flat_map_app. Qed.

Lemma hundredth_row (n : nat) :
  if Nat.eqb (Nat.modulo (S n) 100) 0
  then map (Nat.mul 100) (seq 1 (S n / 100))
       = map (Nat.mul 100) (seq 1 (n / 100)) ++ [S n]
  else S n / 100 = n / 100.
Proof.
  pose proof (Nat.div_mod_eq (S n) 100) as E.
  pose proof (Nat.mod_upper_bound (S n) 100 ltac:(discriminate)) as Hr.
  revert E Hr.
  generalize (Nat.modulo (S n) 100) as m. generalize (S n / 100) as k.
  intros k m E Hr.
  destruct (Nat.eqb m 0) eqn:E0.
  - apply Nat.eqb_eq in E0. subst m.
    assert (Hq : k - 1 = n / 100).
    { apply (Nat.div_unique n 100 (k - 1) 99); lia. }
    assert (Hk : k = S (n / 100)) by lia.
    rewrite Hk, seq_S, map_app. cbn [map]. f_equal. f_equal. lia.
  - apply Nat.eqb_neq in E0.
    apply (Nat.div_unique n 100 k (m - 1)); lia.
Qed.

Lemma progress_invariant_line (header : list str) (line : str) :
  preserves
    (fun s =>
       Cover.progress_counts (log s)
       = map (Nat.mul 100) (seq 1 (written s / 100)))
    (process_line header line).
Proof.
  intros s H. rewrite process_line_run.
  destruct (strip line) as [|c l]; [exact H|]. cbv zeta.
  destruct (json_loads (c :: l)) as [obj|].
  2:{ cbn [snd log logger count_line written].
      rewrite progress_counts_app, H. simpl. apply app_nil_r. }
  destruct (parsed_object obj) as [parsed| |]; try exact H.
  rewrite build_row_run.
  assert (Hw : forall row s2,
             Cover.progress_counts (log s2)
             = map (Nat.mul 100) (seq 1 (written s2 / 100)) ->
             let s3 :=
               snd (if row_encodable row
                    then log_progress (row_written row s2)
                    else (Raised, s2)) in
             Cover.progress_counts (log s3)
             = map (Nat.mul 100) (seq 1 (written s3 / 100))).
  { intros row s2 H2. cbv zeta.
    destruct (row_encodable row); [|exact H2].
    unfold log_progress, bind, gets, modify.
    cbn [written row_written].
    pose proof (hundredth_row (written s2)) as Hh.
    destruct (Nat.eqb (Nat.modulo (S (written s2)) 100) 0).
    - cbn [snd log logger written row_written].
      rewrite progress_counts_app, H2, Hh. reflexivity.
    - cbn [snd log written row_written ret]. rewrite Hh. exact H2. }
  destruct parsed as [| | | | | |[|e d]];
    try (destruct (correlation_id obj);
         [ apply Hw; cbn [log logger written count_line];
           rewrite progress_counts_app, H; simpl; apply app_nil_r
         | exact H ]).
  apply Hw. exact H.
Qed.

End Progress.

(** X27: however the run ends, its log has one progress entry for every
    hundredth row written, in order: the entries report 100, 200, ... up
    to the last multiple of 100 that the number of written rows reaches. *)
Theorem X27_progress_every_hundredth_row :
  forall (rt : Runtime) (header : list str) (lines : list str),
    let s' :=
      snd (ProcessBatch.process_batch_jsonl_to_csv header lines
             ProcessBatch.initial) in
    Cover.progress_counts (ProcessBatch.log s')
    = map (Nat.mul 100) (seq 1 (ProcessBatch.written s' / 100)).
Proof.
  intros rt header lines s'. subst s'.
  apply (@preserves_bind ProcessBatch.state
           (fun s =>
              Cover.progress_counts (ProcessBatch.log s)
              = map (Nat.mul 100) (seq 1 (ProcessBatch.written s / 100)))).
  - apply preserves_for_each. intros line. apply progress_invariant_line.
  - intros _ s H. unfold bind, gets, modify.
    cbn [snd ProcessBatch.log ProcessBatch.logger ProcessBatch.written].
    rewrite progress_counts_app, H. simpl. apply app_nil_r.
  - reflexivity.
Qed.

Section Skipped.
Context {rt : Runtime}.
Import ProcessBatch.

Lemma skipped_lines_app (l1 l2 : list log_event) :
  Cover.skipped_lines (l1 ++ l2)
  = Cover.skipped_lines l1 ++ Cover.skipped_lines l2.
Proof. unfold Cover.skipped_lines. apply flat_map_app. Qed.

Lemma process_line_skipped (header : list str) (line : str) (s : state) :
  Cover.skipped_lines (log (snd (process_line header line s)))
  = Cover.skipped_lines (log s)
    ++ match strip line with
       | [] => []
       | l => match json_loads l with
              | None => [firstn 200 l]
              | Some _ => []
              end
       end.
Proof.
  rewrite process_line_run.
  destruct (strip line) as [|c l]; [symmetry; apply app_nil_r|]. cbv zeta.
  destruct (json_loads (c :: l)) as [obj|].
  2:{ cbn [snd log logger count_line]. apply skipped_lines_app. }
  destruct (parsed_object obj) as [parsed| |];
    try (symmetry; apply app_nil_r).
  rewrite build_row_run.
  assert (Hw : forall row s2,
             Cover.skipped_lines (log s2) = Cover.skipped_lines (log s) ->
             Cover.skipped_lines
               (log (snd (if row_encodable row
                          then log_progress (row_written row s2)
                          else (Raised, s2))))
             = Cover.skipped_lines (log s) ++ []).
  { intros row s2 H2. rewrite app_nil_r. rewrite <- H2.
    destruct (row_encodable row); [|reflexivity].
    unfold log_progress, bind, gets, modify.
    destruct (Nat.eqb _ 0); cbn [snd log logger row_written ret];
      [|reflexivity].
    rewrite skipped_lines_app. apply app_nil_r. }
  destruct parsed as [| | | | | |[|e d]];
    try (destruct (correlation_id obj);
         [ apply Hw; cbn [log logger count_line];
           rewrite skipped_lines_app; apply app_nil_r
         | symmetry; apply app_nil_r ]).
  apply Hw. reflexivity.
Qed.

Lemma for_each_skipped (header : list str) (lines : list str) (s : state) :
  fst (for_each lines (process_line header) s) = Return tt ->
  Cover.skipped_lines (log (snd (for_each lines (process_line header) s)))
  = Cover.skipped_lines (log s)
    ++ flat_map
         (fun line =>
            match strip line with
            | [] => []
            | l => match json_loads l with
                   | None => [firstn 200 l]
                   | Some _ => []
                   end
            end)
         lines.
Proof.
  revert s. induction lines as [|line lines IH]; intros s.
  - intros _. simpl. symmetry. apply app_nil_r.
  - cbn [for_each flat_map]. unfold bind.
    pose proof (process_line_skipped header line s) as Hs.
    destruct (process_line header line s) as [[[]| |] s1]; cbn [fst snd] in *;
      try discriminate.
    intros H. rewrite (IH s1 H), Hs, app_assoc. reflexivity.
Qed.

End Skipped.

(** X28: in a run that ends normally, the lines reported as skipped are,
    in order, the lines that are not blank and do not decode, each
    stripped and cut to its first 200 characters; a blank line is skipped
    without a report, and no other line is reported as skipped. *)
Theorem X28_undecodable_lines_are_reported :
  forall (rt : Runtime) (header : list str) (lines : list str),
    fst (ProcessBatch.process_batch_jsonl_to_csv header lines
           ProcessBatch.initial) = Return tt ->
    Cover.skipped_lines
      (ProcessBatch.log
         (snd (ProcessBatch.process_batch_jsonl_to_csv header lines
                 ProcessBatch.initial)))
    = flat_map
        (fun line =>
           match strip line with
           | [] => []
           | l => match json_loads l with
                  | None => [firstn 200 l]
                  | Some _ => []
                  end
           end)
        lines.
Proof.
  intros rt header lines H.
  destruct (run_of_for_each header lines) as (Ho & _ & _).
  rewrite Ho in H.
  pose proof (for_each_skipped header lines ProcessBatch.initial H) as Hs.
  unfold ProcessBatch.process_batch_jsonl_to_csv. unfold bind at 1.
  destruct (for_each lines (ProcessBatch.process_line header)
              ProcessBatch.initial) as [o s1].
  cbn [fst snd] in *. subst o.
  unfold bind, gets, modify.
  cbn [snd ProcessBatch.log ProcessBatch.logger].
  rewrite skipped_lines_app, Hs. simpl. apply app_nil_r.
Qed.

Lemma X28_undecodable_lines_are_reported_witness :
  let header := [lit "product ID"; lit "name"] in
  let lines :=
    [lit "  not json  "; lit "   "; q "{'custom_id':'task-0'}";
     lit "{broken"] in
  Cover.skipped_lines
    (ProcessBatch.log
       (snd (@ProcessBatch.process_batch_jsonl_to_csv Spec.ascii_runtime
               header lines ProcessBatch.initial)))
  = flat_map
      (fun line =>
         match strip line with
         | [] => []
         | l => match json_loads l with
                | None => [firstn 200 l]
                | Some _ => []
                end
         end)
      lines.
Proof.
  intros header lines.
  apply (@X28_undecodable_lines_are_reported Spec.ascii_runtime header
           lines).
  vm_compute. reflexivity.
Defined.

(** ** A line of the batch output, from its text to its row *)

Section EndToEnd.
Context {rt : Runtime}.
Import ProcessBatch.

Lemma no_content_no_mapping (obj : json) :
  truthy (_extract_content_from_line obj) = false ->
  match content_as_dict obj with
  | Some (JObj (_ :: _)) => False
  | _ => True
  end.
Proof.
  intros H. destruct (content_as_dict obj) as [[| | | | | |[|e d]]|] eqn:E;
    try exact I.
  apply content_as_dict_is_content in E. rewrite E in H. discriminate.
Qed.

Lemma written_row_run (header : list str) (row : dict) (s : state) :
  let cells := safe_row header row in
  exists s',
    (if row_encodable cells then log_progress (row_written cells s)
     else (Raised, s))
    = (if row_encodable cells then Return tt else Raised, s')
    /\ rows s' = rows s ++ (if row_encodable cells then [cells] else [])
    /\ written s' = (if row_encodable cells then S (written s) else written s)
    /\ total s' = total s
    /\ forall e, In e (log s) -> In e (log s').
Proof.
  intros cells. destruct (row_encodable cells).
  - unfold log_progress, bind, gets, modify.
    destruct (Nat.eqb _ 0); eexists; (split; [reflexivity|]);
      cbn [rows written total log row_written logger]; repeat split; auto.
    intros e He. apply in_or_app. left. exact He.
  - exists s. rewrite app_nil_r. repeat split; auto.
Qed.

End EndToEnd.

(** X29: from the text of a line to its row.  When a line decodes, the
    content found in it is a string, and the parser returns a mapping
    that is not empty for that string, the row of the line is the row of
    that mapping, coerced.  When no cell of the row holds a surrogate, the
    row is written, and the line and the row are counted.  When one does,
    the writer raises: the line is counted, the row is neither written nor
    counted. *)
Theorem X29_line_with_parsed_content_gives_its_row :
  forall (rt : Runtime) (header : list str) (line : str) (obj : json)
         (content : str) (e : str * json) (d : dict)
         (s : ProcessBatch.state),
    json_loads (strip line) = Some obj ->
    ProcessBatch._extract_content_from_line obj = JStr content ->
    ProcessBatch._extract_json_from_content (JStr content)
    = Return (JObj (e :: d)) ->
    let row :=
      ProcessBatch.safe_row header (ProcessBatch.parsed_row header (e :: d)) in
    exists s',
      ProcessBatch.process_line header line s
      = (if row_encodable row then Return tt else Raised, s')
      /\ ProcessBatch.rows s'
         = ProcessBatch.rows s ++ (if row_encodable row then [row] else [])
      /\ ProcessBatch.written s'
         = (if row_encodable row then S (ProcessBatch.written s)
            else ProcessBatch.written s)
      /\ ProcessBatch.total s' = S (ProcessBatch.total s).
Proof.
  intros rt header line obj content e d s Hl Hc Hp row.
  rewrite process_line_run.
  destruct (strip line) as [|c0 l0]; [discriminate|]. cbv zeta.
  rewrite Hl.
  assert (Hpo : ProcessBatch.parsed_object obj = Return (JObj (e :: d))).
  { unfold ProcessBatch.parsed_object. rewrite Hc.
    destruct content as [|c1 content1]; [discriminate|].
    cbn [truthy]. rewrite Hp. reflexivity. }
  rewrite Hpo, build_row_run.
  destruct (written_row_run header
              (ProcessBatch.parsed_row header (e :: d))
              (ProcessBatch.count_line s))
    as (s' & Hrun & Hr & Hw & Ht & _).
  exists s'. split; [exact Hrun|]. split; [exact Hr|].
  split; [exact Hw | exact Ht].
Qed.

Lemma X29_line_with_parsed_content_gives_its_row_witness :
  let header := [lit "product ID"; lit "name"] in
  let line :=
    q "{'custom_id':'task-1','response':{'body':{'choices':[{'message':"
    ++ q "{'content':'```json\n{\'name\': \'oil\'}\n```'}}]}}}" in
  let row :=
    @ProcessBatch.safe_row Spec.ascii_runtime header
      (@ProcessBatch.parsed_row Spec.ascii_runtime header
         [(lit "name", JStr (lit "oil"))]) in
  row_encodable row = true
  /\ exists s',
       @ProcessBatch.process_line Spec.ascii_runtime header line
         ProcessBatch.initial
       = (if row_encodable row then Return tt else Raised, s')
       /\ ProcessBatch.rows s'
          = ProcessBatch.rows ProcessBatch.initial
            ++ (if row_encodable row then [row] else [])
       /\ ProcessBatch.written s'
          = (if row_encodable row
             then S (ProcessBatch.written ProcessBatch.initial)
             else ProcessBatch.written ProcessBatch.initial)
       /\ ProcessBatch.total s' = S (ProcessBatch.total ProcessBatch.initial).
Proof.
  intros header line row. split; [vm_compute; reflexivity|].
  apply (@X29_line_with_parsed_content_gives_its_row Spec.ascii_runtime
           header line
           (JObj
              [(lit "custom_id", JStr (lit "task-1"));
               (lit "response",
                JObj
                  [(lit "body",
                    JObj
                      [(lit "choices",
                        JArr
                          [JObj
                             [(lit "message",
                               JObj
                                 [(lit "content",
                                   JStr
                                     (lit "```json" ++ nl
                                      ++ q "{'name': 'oil'}" ++ nl
                                      ++ lit "```"))])]])])])])
           (lit "```json" ++ nl ++ q "{'name': 'oil'}" ++ nl ++ lit "```")
           (lit "name", JStr (lit "oil")) [] ProcessBatch.initial).
  - vm_compute; reflexivity.
  - vm_compute; reflexivity.
  - vm_compute; reflexivity.
Defined.

(** X30: a line that decodes to an object in which no content is found
    and whose "custom_id" is not empty gets the placeholder row with that
    id under "product ID" (when the header has the column), and the
    warning logged for it carries the number of the line and the id.  The
    row is written when no cell of it holds a surrogate; when the id does,
    the writer raises after the warning is logged and no row is
    written. *)
Theorem X30_line_without_content_gives_placeholder :
  forall (rt : Runtime) (header : list str) (line : str) (d : dict)
         (s : ProcessBatch.state),
    json_loads (strip line) = Some (JObj d) ->
    truthy (ProcessBatch._extract_content_from_line (JObj d)) = false ->
    truthy (getk d "custom_id") = true ->
    let row :=
      ProcessBatch.safe_row header
        (ProcessBatch.placeholder_row header (getk d "custom_id")) in
    exists s',
      ProcessBatch.process_line header line s
      = (if row_encodable row then Return tt else Raised, s')
      /\ ProcessBatch.rows s'
         = ProcessBatch.rows s ++ (if row_encodable row then [row] else [])
      /\ In (ProcessBatch.LogPlaceholder (S (ProcessBatch.total s))
               (getk d "custom_id"))
           (ProcessBatch.log s').
Proof.
  intros rt header line d s Hl Hc Hid row.
  rewrite process_line_run.
  destruct (strip line) as [|c0 l0]; [discriminate|]. cbv zeta.
  rewrite Hl.
  pose proof (no_content_no_mapping (JObj d) Hc) as Hn.
  assert (Hcid : ProcessBatch.correlation_id (JObj d)
                 = Some (getk d "custom_id")).
  { unfold ProcessBatch.correlation_id, ProcessBatch.attr_get.
    rewrite Hid. unfold py_or. rewrite Hid. reflexivity. }
  assert (Hpo : exists parsed,
             ProcessBatch.parsed_object (JObj d) = Return parsed
             /\ match parsed with JObj (_ :: _) => False | _ => True end).
  { unfold ProcessBatch.parsed_object. rewrite Hc.
    destruct (ProcessBatch.content_as_dict (JObj d)) as [p|].
    - exists p. split; [reflexivity | exact Hn].
    - exists JNull. split; [reflexivity | exact I]. }
  destruct Hpo as (parsed & -> & Hparsed).
  rewrite build_row_run, Hcid.
  set (s1 := ProcessBatch.logger
               (ProcessBatch.LogPlaceholder
                  (ProcessBatch.total (ProcessBatch.count_line s))
                  (getk d "custom_id"))
               (ProcessBatch.count_line s)).
  destruct (written_row_run header
              (ProcessBatch.placeholder_row header (getk d "custom_id")) s1)
    as (s' & Hrun & Hr & _ & _ & Hlog).
  exists s'. split; [|split].
  - destruct parsed as [| | | | | |[|e0 d0]]; try exact Hrun. contradiction.
  - exact Hr.
  - apply Hlog. subst s1. cbn [ProcessBatch.log ProcessBatch.logger].
    apply in_or_app. right. left. reflexivity.
Qed.

Lemma X30_line_without_content_gives_placeholder_witness :
  let header := [lit "product ID"; lit "name"] in
  let line := q "  {'custom_id': 'task-7', 'error': {'code': 'x'}}  " in
  let d :=
    [(lit "custom_id", JStr (lit "task-7"));
     (lit "error", JObj [(lit "code", JStr (lit "x"))])] in
  let row :=
    @ProcessBatch.safe_row Spec.ascii_runtime header
      (ProcessBatch.placeholder_row header (getk d "custom_id")) in
  row_encodable row = true
  /\ exists s',
       @ProcessBatch.process_line Spec.ascii_runtime header line
         ProcessBatch.initial
       = (if row_encodable row then Return tt else Raised, s')
       /\ ProcessBatch.rows s'
          = ProcessBatch.rows ProcessBatch.initial
            ++ (if row_encodable row then [row] else [])
       /\ In (ProcessBatch.LogPlaceholder
                (S (ProcessBatch.total ProcessBatch.initial))
                (getk d "custom_id"))
            (ProcessBatch.log s').
Proof.
  intros header line d row. split; [vm_compute; reflexivity|].
  apply (@X30_line_without_content_gives_placeholder Spec.ascii_runtime
           header line d ProcessBatch.initial).
  - vm_compute. reflexivity.
  - vm_compute. reflexivity.
  - vm_compute. reflexivity.
Defined.

(** ** Cells that cannot be encoded

    The escape [\ud83d] in a line decodes to a lone surrogate.  As a
    correlation id it reaches the placeholder row, and as a value of the
    parsed content a normal row; in both the writer raises, after the
    warning for the placeholder, and the run stops without a row. *)

Example surrogate_id_stops_the_run :
  @ProcessBatch.process_batch_jsonl_to_csv Spec.ascii_runtime
    [lit "product ID"] [q "{'custom_id':'\ud83d'}"] ProcessBatch.initial
  = (Raised,
     {| ProcessBatch.total := 1; ProcessBatch.written := 0;
        ProcessBatch.rows := [];
        ProcessBatch.log :=
          [ProcessBatch.LogPlaceholder 1 (JStr [55357%N])] |}).
Proof. vm_compute. reflexivity. Qed.

Example surrogate_value_stops_the_run :
  @ProcessBatch.process_batch_jsonl_to_csv Spec.ascii_runtime
    [lit "name"]
    [q "{'custom_id':'task-0','content':'{\'name\':\'\\ud83d\'}'}"]
    ProcessBatch.initial
  = (Raised,
     {| ProcessBatch.total := 1; ProcessBatch.written := 0;
        ProcessBatch.rows := []; ProcessBatch.log := [] |}).
Proof. vm_compute. reflexivity. Qed.

(** A record with such a value: with a serializer that keeps it, the
    request line cannot be written, and [normalize_records] raises where
    it would exit. *)
Example surrogate_record_stops_the_emitter :
  @Normalize.normalize_records Spec.dumps_runtime (Some [lit "name"])
    [Some (q "[{'title':'\ud83d'}]")] 1
    {| Normalize.jsonl_file := None; Normalize.csv_file := None;
       Normalize.log := [] |}
  = (Raised,
     {| Normalize.jsonl_file := Some []; Normalize.csv_file := None;
        Normalize.log := [Normalize.LogPrepared 1] |}).
Proof. vm_compute. reflexivity. Qed.
